(** * Sales Snapshot: the CSV-to-summary pipeline of [src/App.tsx]

    A shallow embedding of the non-UI part of [App.tsx]: the cell
    normalisers [parseNumber] and [tryParseDate], the column detectors
    [detectDateColumn] and [detectMetricColumns], the aggregator
    [aggregate] and the signal generator [buildSignals].

    Conventions of the embedding.
    - A JavaScript string is a [string]; each [ascii] stands for the code
      unit of the same number (0..255).
    - A JavaScript number that holds a metric value is a binary64 [float]
      (the kernel's primitive floats are IEEE 754 doubles, as JavaScript's
      numbers are).  Counters, lengths and time values, which the program
      only ever holds as integers below 2^53, are in [Z].
    - [throw] is the [Threw] constructor of the result of [aggregate].
    - What ECMAScript leaves to the implementation (how [new Date(s)] reads
      a string that is not in the ISO format) is a parameter, [legacy].
    - [localeCompare] is the collation of the host on the characters of
      dates: [-] before [+] before the digits. *)

From Stdlib Require Import ZArith List String Ascii Bool Lia DecimalString.
From Stdlib Require Import PrimFloat FloatOps SpecFloat FloatClass.
From Stdlib Require FloatAxioms.
From Stdlib Require Import Sorted Permutation OrdersEx RelationClasses.
Import ListNotations.

Local Open Scope string_scope.
Local Open Scope list_scope.
Local Open Scope Z_scope.

(** ** Strings *)

Module Js.

Definition code (c : ascii) : Z := Z.of_N (N_of_ascii c).

Definition chars (s : string) : list ascii := list_ascii_of_string s.
Definition str (l : list ascii) : string := string_of_list_ascii l.

(** [WhiteSpace] and [LineTerminator] code units below 256: what [trim],
    the regular expression class [\s] and [parseFloat] all skip. *)
Definition isSpace (c : ascii) : bool :=
  let n := code c in
  ((9 <=? n) && (n <=? 13)) || (n =? 32) || (n =? 160).

Definition isDigit (c : ascii) : bool :=
  let n := code c in (48 <=? n) && (n <=? 57).

Definition digitVal (c : ascii) : Z := code c - 48.

Fixpoint dropWhile {A} (p : A -> bool) (l : list A) : list A :=
  match l with
  | [] => []
  | x :: r => if p x then dropWhile p r else l
  end.

Fixpoint takeWhile {A} (p : A -> bool) (l : list A) : list A :=
  match l with
  | [] => []
  | x :: r => if p x then x :: takeWhile p r else []
  end.

(** [String.prototype.trim]. *)
Definition trim (s : string) : string :=
  str (rev (dropWhile isSpace (rev (dropWhile isSpace (chars s))))).

(** [s.replace(/[...]/g, '')] for a character class [cls]. *)
Definition removeAll (cls : ascii -> bool) (s : string) : string :=
  str (filter (fun c => negb (cls c)) (chars s)).

(** [s.replace(/x/g, y)] for single characters. *)
Definition replaceChar (x y : ascii) (s : string) : string :=
  str (map (fun c => if Ascii.eqb c x then y else c) (chars s)).

(** [s.split(/[...]/)[0]]: what precedes the first character of the class. *)
Definition beforeFirst (cls : ascii -> bool) (s : string) : string :=
  str (takeWhile (fun c => negb (cls c)) (chars s)).

Fixpoint startsWith (p l : list ascii) : bool :=
  match p, l with
  | [], _ => true
  | _ :: _, [] => false
  | a :: p', b :: l' => Ascii.eqb a b && startsWith p' l'
  end.

Fixpoint includesL (l p : list ascii) : bool :=
  startsWith p l ||
  match l with
  | [] => false
  | _ :: l' => includesL l' p
  end.

(** [s.includes(p)]. *)
Definition includes (s p : string) : bool := includesL (chars s) (chars p).

(** [String.prototype.toLowerCase] on code units below 256: A-Z and the
    Latin-1 capitals (0xC0-0xDE but the multiplication sign 0xD7). *)
Definition lowerChar (c : ascii) : ascii :=
  let n := code c in
  if ((65 <=? n) && (n <=? 90)) ||
     ((192 <=? n) && (n <=? 222) && negb (n =? 215))
  then ascii_of_N (Z.to_N (n + 32)) else c.

Definition toLowerCase (s : string) : string := str (map lowerChar (chars s)).

(** [slice(0, n)]. *)
Definition slice0 (n : nat) (s : string) : string := str (firstn n (chars s)).

(** Truthiness of a value of type [string | null | undefined]. *)
Definition truthy (v : option string) : bool :=
  match v with
  | Some s => negb (String.eqb s "")
  | None => false
  end.

(** The collation rank of a character of a date.  [localeCompare] follows
    the collation of the host, not the code units: the hyphen-minus comes
    before the plus sign, both come before the digits, and the digits are
    in their order.  Characters that no date contains are ranked after the
    signs by their code units; the program never compares them. *)
Definition collationRank (c : ascii) : Z :=
  if Ascii.eqb c "-" then 0
  else if Ascii.eqb c "+" then 1
  else 2 + code c.

(** The characters of a date differ at the first level of the collation:
    two strings of them compare as their first differing characters do,
    and a proper prefix comes first. *)
Fixpoint collate (a b : list ascii) : comparison :=
  match a, b with
  | [], [] => Eq
  | [], _ :: _ => Lt
  | _ :: _, [] => Gt
  | x :: a', y :: b' =>
      match collationRank x ?= collationRank y with
      | Eq => collate a' b'
      | c => c
      end
  end.

(** [a.localeCompare(b)].  The only strings the program compares are the
    ten-character prefixes of [toISOString], made of digits, [-] and
    [+]. *)
Definition localeCompare (a b : string) : comparison := collate (chars a) (chars b).

End Js.

(** ** Numbers *)

Module Num.

Local Open Scope float_scope.

(** [Number.isFinite] on a number. *)
Definition isFinite (x : float) : bool := PrimFloat.is_finite x.

(** Truthiness of a number: false for [0], [-0] and [NaN]. *)
Definition truthy (x : float) : bool := negb (PrimFloat.is_zero x || PrimFloat.is_nan x).

(** An integer below 2^53 as a number. *)
Definition ofZ (z : Z) : float :=
  match z with
  | Z0 => PrimFloat.zero
  | Zpos p => SF2Prim (binary_normalize prec emax (Zpos p) 0%Z false)
  | Zneg p => SF2Prim (binary_normalize prec emax (Zneg p) 0%Z false)
  end.

Fixpoint digitsVal (acc : Z) (l : list ascii) : Z :=
  match l with
  | [] => acc
  | c :: r => digitsVal (10 * acc + Js.digitVal c)%Z r
  end.

(** The number nearest to [m * 10^e] (ties to even), for [m > 0]: the
    [MV] of a [StrDecimalLiteral], rounded as [Number] values are. *)
Definition decimal (m : positive) (e : Z) : float :=
  match e with
  | Zneg k =>
      SF2Prim (SFdiv prec emax (S754_finite false m 0%Z)
                               (S754_finite false (10 ^ k)%positive 0%Z))
  | _ => SF2Prim (binary_normalize prec emax (Zpos m * 10 ^ e)%Z 0%Z false)
  end.

Definition signed (neg : bool) (x : float) : float := if neg then - x else x.

(** The exponent part [e], [e+] or [e-] and digits; [None] when the
    characters after the mantissa do not form one. *)
Definition exponentPart (l : list ascii) : option Z :=
  match l with
  | c :: r =>
      if Ascii.eqb c "e" || Ascii.eqb c "E" then
        let '(neg, r') :=
          match r with
          | s :: r' =>
              if Ascii.eqb s "-" then (true, r')
              else if Ascii.eqb s "+" then (false, r') else (false, r)
          | [] => (false, r)
          end in
        match Js.takeWhile Js.isDigit r' with
        | [] => None
        | ds => Some (if neg then - digitsVal 0 ds else digitsVal 0 ds)%Z
        end
      else None
  | [] => None
  end.

(** [Number.parseFloat]: leading white space is skipped and the longest
    prefix that is a [StrDecimalLiteral] is read; [NaN] when there is none. *)
Definition parseFloat (s : string) : float :=
  let l := Js.dropWhile Js.isSpace (Js.chars s) in
  let '(neg, l1) :=
    match l with
    | c :: r =>
        if Ascii.eqb c "-" then (true, r)
        else if Ascii.eqb c "+" then (false, r) else (false, l)
    | [] => (false, l)
    end in
  if Js.startsWith (Js.chars "Infinity") l1 then signed neg PrimFloat.infinity
  else
    let ip := Js.takeWhile Js.isDigit l1 in
    let l2 := Js.dropWhile Js.isDigit l1 in
    let '(fp, l3) :=
      match l2 with
      | c :: r =>
          if Ascii.eqb c "." then (Js.takeWhile Js.isDigit r, Js.dropWhile Js.isDigit r)
          else ([], l2)
      | [] => ([], l2)
      end in
    match ip ++ fp with
    | [] => PrimFloat.nan
    | ds =>
        let ex := match exponentPart l3 with Some e => e | None => 0%Z end in
        match digitsVal 0 ds with
        | Zpos m => signed neg (decimal m (ex - Z.of_nat (List.length fp))%Z)
        | _ => signed neg PrimFloat.zero
        end
    end.

End Num.

(** ** The cell normaliser for numbers *)

(** The argument of [parseNumber]: [string | number | undefined]. *)
Inductive Cell : Type :=
| CUndefined
| CNumber (x : float)
| CString (s : string).

Definition ofLookup (v : option string) : Cell :=
  match v with
  | Some s => CString s
  | None => CUndefined
  end.

Definition isCurrencyNoise (c : ascii) : bool :=
  Ascii.eqb c "$" || Ascii.eqb c "," || Js.isSpace c.
Definition isParen (c : ascii) : bool := Ascii.eqb c "(" || Ascii.eqb c ")".
Definition isPercent (c : ascii) : bool := Ascii.eqb c "%".
Definition isNbsp (c : ascii) : bool := (Js.code c =? 160)%Z.

Definition normalized (value : string) : string :=
  Js.removeAll isNbsp
    (Js.removeAll isPercent
       (Js.removeAll isParen
          (Js.removeAll isCurrencyNoise value))).

Definition parseNumber (raw : Cell) : float :=
  match raw with
  | CUndefined => PrimFloat.zero
  | CNumber x => if Num.isFinite x then x else PrimFloat.zero
  | CString s =>
      let value := Js.trim s in
      if String.eqb value "" then PrimFloat.zero
      else
        let parsed := Num.parseFloat (normalized value) in
        if Num.isFinite parsed then parsed else PrimFloat.zero
  end.

(** ** Dates

    [Date] values as ECMAScript defines them: a time value is a number of
    milliseconds since 1970-01-01T00:00:00Z, an integer of magnitude at
    most 8.64e15, or [NaN] (here [None]). *)

Module Date.

Definition msPerDay : Z := 86400000.
Definition maxTime : Z := 8640000000000000.

(** [TimeClip]. *)
Definition timeClip (t : Z) : option Z :=
  if Z.abs t <=? maxTime then Some t else None.

(** [DayFromYear(y)]: the day number of the first day of year [y]. *)
Definition DayFromYear (y : Z) : Z :=
  365 * (y - 1970) + (y - 1969) / 4 - (y - 1901) / 100 + (y - 1601) / 400.

Definition isLeap (y : Z) : bool :=
  (y mod 4 =? 0) && (negb (y mod 100 =? 0) || (y mod 400 =? 0)).

(** [YearFromTime] on day numbers: the year [y] with
    [DayFromYear y <= d < DayFromYear (y + 1)] (lemma [YearFromDay_spec]). *)
Definition YearFromDay (d : Z) : Z :=
  let y := 1970 + (400 * d) / 146097 in
  if d <? DayFromYear y then y - 1
  else if DayFromYear (y + 1) <=? d then y + 1
  else y.

(** Days of the year before month [m] (1..12); 365 or 366 for [m = 13]. *)
Definition daysBefore (leap : bool) (m : Z) : Z :=
  let l := if leap then 1 else 0 in
  match m with
  | 1 => 0
  | 2 => 31
  | 3 => 59 + l
  | 4 => 90 + l
  | 5 => 120 + l
  | 6 => 151 + l
  | 7 => 181 + l
  | 8 => 212 + l
  | 9 => 243 + l
  | 10 => 273 + l
  | 11 => 304 + l
  | 12 => 334 + l
  | _ => 365 + l
  end.

Definition daysInMonth (y m : Z) : Z :=
  daysBefore (isLeap y) (m + 1) - daysBefore (isLeap y) m.

(** [MonthFromTime] + 1, from the day within the year (0-based). *)
Definition monthOf (leap : bool) (diy : Z) : Z :=
  if diy <? daysBefore leap 2 then 1
  else if diy <? daysBefore leap 3 then 2
  else if diy <? daysBefore leap 4 then 3
  else if diy <? daysBefore leap 5 then 4
  else if diy <? daysBefore leap 6 then 5
  else if diy <? daysBefore leap 7 then 6
  else if diy <? daysBefore leap 8 then 7
  else if diy <? daysBefore leap 9 then 8
  else if diy <? daysBefore leap 10 then 9
  else if diy <? daysBefore leap 11 then 10
  else if diy <? daysBefore leap 12 then 11
  else 12.

(** The civil date (year, month 1..12, day 1..31) of a day number. *)
Definition civil (d : Z) : Z * Z * Z :=
  let y := YearFromDay d in
  let diy := d - DayFromYear y in
  let m := monthOf (isLeap y) diy in
  (y, m, diy - daysBefore (isLeap y) m + 1).

(** [MakeDay] for a month in 1..12. *)
Definition dayOfCivil (y m dt : Z) : Z :=
  DayFromYear y + daysBefore (isLeap y) m + dt - 1.

Definition digitChar (z : Z) : ascii := ascii_of_N (Z.to_N (48 + z)).

(** [k] in [n] decimal digits, most significant first. *)
Fixpoint pad (n : nat) (k : Z) : list ascii :=
  match n with
  | O => []
  | S n' => digitChar (k / 10 ^ Z.of_nat n') :: pad n' (k mod 10 ^ Z.of_nat n')
  end.

Definition yearChars (y : Z) : list ascii :=
  if (0 <=? y) && (y <=? 9999) then pad 4 y
  else (if y <? 0 then "-"%char else "+"%char) :: pad 6 (Z.abs y).

(** [Date.prototype.toISOString] of a valid time value. *)
Definition toISOString (t : Z) : string :=
  let '(y, m, dt) := civil (t / msPerDay) in
  let ms := t mod msPerDay in
  Js.str (yearChars y ++ "-"%char :: pad 2 m ++ "-"%char :: pad 2 dt
          ++ "T"%char :: pad 2 (ms / 3600000)
          ++ ":"%char :: pad 2 (ms / 60000 mod 60)
          ++ ":"%char :: pad 2 (ms / 1000 mod 60)
          ++ "."%char :: pad 3 (ms mod 1000) ++ ["Z"%char]).

(** A run of exactly [n] digits at the head of [l], as its value and what
    follows it. *)
Fixpoint digitsN (n : nat) (acc : Z) (l : list ascii) : option (Z * list ascii) :=
  match n with
  | O => Some (acc, l)
  | S n' =>
      match l with
      | c :: r => if Js.isDigit c then digitsN n' (10 * acc + Js.digitVal c) r else None
      | [] => None
      end
  end.

(** The year of the Date Time String Format: [YYYY], or a sign and six
    digits ([-000000] is not a year). *)
Definition isoYear (l : list ascii) : option (Z * list ascii) :=
  match l with
  | c :: r =>
      if Ascii.eqb c "+" then digitsN 6 0 r
      else if Ascii.eqb c "-" then
        match digitsN 6 0 r with
        | Some (y, r') => if y =? 0 then None else Some (- y, r')
        | None => None
        end
      else digitsN 4 0 l
  | [] => None
  end.

Definition field2 (l : list ascii) : option (Z * list ascii) :=
  match l with
  | c :: r => if Ascii.eqb c "-" then digitsN 2 0 r else None
  | [] => None
  end.

(** The date-only forms of the Date Time String Format ([YYYY],
    [YYYY-MM], [YYYY-MM-DD], each also with an expanded year) that name a
    day of the calendar, read as UTC midnight.  [None] for every other
    string: what the host does with those is [legacy]'s. *)
Definition parseISODate (s : string) : option Z :=
  match isoYear (Js.chars s) with
  | None => None
  | Some (y, []) => Some (dayOfCivil y 1 1 * msPerDay)
  | Some (y, r1) =>
      match field2 r1 with
      | None => None
      | Some (m, r2) =>
          if (1 <=? m) && (m <=? 12) then
            match r2 with
            | [] => Some (dayOfCivil y m 1 * msPerDay)
            | _ =>
                match field2 r2 with
                | Some (dt, []) =>
                    if (1 <=? dt) && (dt <=? daysInMonth y m)
                    then Some (dayOfCivil y m dt * msPerDay) else None
                | _ => None
                end
            end
          else None
      end
  end.

Section Host.

(** What the host makes of a string that is not one of the forms above
    (ECMAScript lets [Date.parse] fall back to heuristics of its own). *)
Variable legacy : string -> option Z.

(** The time value of [new Date(s)]. *)
Definition parse (s : string) : option Z :=
  match parseISODate s with
  | Some t => timeClip t
  | None =>
      match legacy s with
      | Some t => timeClip t
      | None => None
      end
  end.

End Host.

End Date.

(** ** The cell normaliser for dates *)

Definition isSpaceOrT (c : ascii) : bool := Js.isSpace c || Ascii.eqb c "T".

Section Pipeline.

Variable legacy : string -> option Z.

Definition isoDay (t : Z) : string := Js.slice0 10 (Date.toISOString t).

Definition tryParseDate (raw : option string) : option string :=
  match raw with
  | None => None
  | Some raw =>
      if String.eqb raw "" then None
      else
        let value := Js.trim raw in
        if String.eqb value "" then None
        else
          let replacements := Js.replaceChar "/" "-" value in
          match Date.parse legacy replacements with
          | Some t => Some (isoDay t)
          | None =>
              let parts := Js.beforeFirst isSpaceOrT value in
              match Date.parse legacy parts with
              | Some t => Some (isoDay t)
              | None => None
              end
          end
  end.

(** *** Rows

    A [RawRow] is a JavaScript object with string values: the list of its
    own properties, in the order [Object.keys] enumerates them. *)

Definition RawRow : Type := list (string * string).

(** [row[key]]; [None] is [undefined]. *)
Fixpoint get (row : RawRow) (key : string) : option string :=
  match row with
  | [] => None
  | (k, v) :: r => if String.eqb k key then Some v else get r key
  end.

Definition keys (row : RawRow) : list string := map fst row.

(** ** The column detector *)

Definition dateHits (rows : list RawRow) (header : string) : Z :=
  fold_left
    (fun acc row => if Js.truthy (tryParseDate (get row header)) then acc + 1 else acc)
    rows 0.

Definition dateStep (rows : list RawRow) (best : option (string * Z)) (header : string)
  : option (string * Z) :=
  let hits := dateHits rows header in
  if hits =? 0 then best
  else
    match best with
    | None => Some (header, hits)
    | Some (_, bestHits) => if hits >? bestHits then Some (header, hits) else best
    end.

Definition detectDateColumn (rows : list RawRow) (headers : list string) : option string :=
  option_map fst (fold_left (dateStep rows) headers None).

End Pipeline.

Inductive MetricKey : Type := gross | net | discounts | tips | transactions.

Definition metricHints : list (MetricKey * list string) :=
  [ (gross, ["gross"; "total sales"; "total gross"; "revenue"]);
    (net, ["net"; "total net"; "net sales"]);
    (discounts, ["discount"; "comp"; "promo"]);
    (tips, ["tip"; "gratuity"]);
    (transactions, ["transactions"; "orders"; "receipts"; "count"]) ].

Definition isNumberishChar (c : ascii) : bool :=
  Ascii.eqb c "-" || Js.isDigit c || Ascii.eqb c "." || Ascii.eqb c "," ||
  Ascii.eqb c "$" || Ascii.eqb c "(" || Ascii.eqb c ")" || Ascii.eqb c "%".

(** [numberish.test(s)]. *)
Definition numberish (s : string) : bool := existsb isNumberishChar (Js.chars s).

(** [numberish.test(row[header] ?? '')]. *)
Definition numericCell (header : string) (row : RawRow) : bool :=
  numberish (match get row header with Some v => v | None => "" end).

(** [Partial<Record<MetricKey, string>>]. *)
Record Columns : Type := mkColumns {
  colGross : option string;
  colNet : option string;
  colDiscounts : option string;
  colTips : option string;
  colTransactions : option string
}.

Definition noColumns : Columns := mkColumns None None None None None.

Definition column (c : Columns) (m : MetricKey) : option string :=
  match m with
  | gross => colGross c
  | net => colNet c
  | discounts => colDiscounts c
  | tips => colTips c
  | transactions => colTransactions c
  end.

Definition setColumn (m : MetricKey) (h : string) (c : Columns) : Columns :=
  match m with
  | gross => mkColumns (Some h) (colNet c) (colDiscounts c) (colTips c) (colTransactions c)
  | net => mkColumns (colGross c) (Some h) (colDiscounts c) (colTips c) (colTransactions c)
  | discounts => mkColumns (colGross c) (colNet c) (Some h) (colTips c) (colTransactions c)
  | tips => mkColumns (colGross c) (colNet c) (colDiscounts c) (Some h) (colTransactions c)
  | transactions => mkColumns (colGross c) (colNet c) (colDiscounts c) (colTips c) (Some h)
  end.

(** [new Set(headers)]: the headers in order of first occurrence. *)
Fixpoint setOf (l : list string) : list string :=
  match l with
  | [] => []
  | h :: r => h :: filter (fun x => negb (String.eqb x h)) (setOf r)
  end.

(** [available.delete(h)]. *)
Definition delete (h : string) (available : list string) : list string :=
  filter (fun x => negb (String.eqb x h)) available.

Record Best : Type := mkBest { header : string; score : Z }.

Definition hintScore (hints : list string) (headerLc : string) : Z :=
  fold_left (fun acc hint => if Js.includes headerLc hint then acc + 1 else acc) hints 0.

Definition numericDensity (rows : list RawRow) (h : string) : Z :=
  fold_left (fun acc row => if numericCell h row then acc + 1 else acc) rows 0.

Definition weightedScore (rows : list RawRow) (hints : list string) (h : string) : Z :=
  hintScore hints (Js.toLowerCase h) * 2 + numericDensity rows h.

(** The body of the loop over the available headers. *)
Definition scoreStep (rows : list RawRow) (hints : list string)
    (best : option Best) (h : string) : option Best :=
  let headerLc := Js.toLowerCase h in
  if negb (existsb (numericCell h) rows) then best
  else
    let matched := hintScore hints headerLc in
    if (matched =? 0) && (match best with Some _ => true | None => false end) then best
    else
      let weighted := matched * 2 + numericDensity rows h in
      match best with
      | None => Some (mkBest h weighted)
      | Some b => if weighted >? b.(score) then Some (mkBest h weighted) else best
      end.

Definition bestColumn (rows : list RawRow) (hints : list string) (available : list string)
  : option Best :=
  fold_left (scoreStep rows hints) available None.

(** One turn of the loop over [metricHints], on the pair of the set
    [available] and the object [selections]. *)
Definition metricStep (rows : list RawRow) (st : list string * Columns)
    (entry : MetricKey * list string) : list string * Columns :=
  let '(available, selections) := st in
  let '(metric, hints) := entry in
  match bestColumn rows hints available with
  | Some b => (delete b.(header) available, setColumn metric b.(header) selections)
  | None => st
  end.

Definition scoredColumns (rows : list RawRow) (headers : list string)
  : list string * Columns :=
  fold_left (metricStep rows) metricHints (setOf headers, noColumns).

(** [numericDensity > rows.length / 3]: both sides are integers below
    2^53, so the comparison of doubles is that of [3 * density] and the
    length. *)
Definition dense (rows : list RawRow) (h : string) : bool :=
  3 * numericDensity rows h >? Z.of_nat (List.length rows).

Definition detectMetricColumns (rows : list RawRow) (headers : list string) : Columns :=
  let '(available, selections) := scoredColumns rows headers in
  if negb (Js.truthy (colTransactions selections)) then
    match find (dense rows) available with
    | Some h => setColumn transactions h selections
    | None => selections
    end
  else selections.

(** ** The aggregator and the summary *)

(** [Record<MetricKey, number>]. *)
Record Amounts : Type := mkAmounts {
  aGross : float;
  aNet : float;
  aDiscounts : float;
  aTips : float;
  aTransactions : float
}.

Definition amount (a : Amounts) (m : MetricKey) : float :=
  match m with
  | gross => aGross a
  | net => aNet a
  | discounts => aDiscounts a
  | tips => aTips a
  | transactions => aTransactions a
  end.

Definition setAmount (m : MetricKey) (x : float) (a : Amounts) : Amounts :=
  match m with
  | gross => mkAmounts x (aNet a) (aDiscounts a) (aTips a) (aTransactions a)
  | net => mkAmounts (aGross a) x (aDiscounts a) (aTips a) (aTransactions a)
  | discounts => mkAmounts (aGross a) (aNet a) x (aTips a) (aTransactions a)
  | tips => mkAmounts (aGross a) (aNet a) (aDiscounts a) x (aTransactions a)
  | transactions => mkAmounts (aGross a) (aNet a) (aDiscounts a) (aTips a) x
  end.

Definition zeroAmounts : Amounts :=
  mkAmounts PrimFloat.zero PrimFloat.zero PrimFloat.zero PrimFloat.zero PrimFloat.zero.

Definition mapAmounts (f : float -> float) (a : Amounts) : Amounts :=
  mkAmounts (f (aGross a)) (f (aNet a)) (f (aDiscounts a)) (f (aTips a))
            (f (aTransactions a)).

(** [DailyAggregate]: the date and the five accumulators. *)
Record DailyAggregate : Type := mkDaily {
  dateISO : string;
  amounts : Amounts
}.

Record Ratios : Type := mkRatios {
  discountRate : float;
  netPerTransaction : float;
  tipsPerTransaction : float
}.

(** [Summary].  [calendarDays] is [None] when it is [NaN]. *)
Record Summary : Type := mkSummary {
  operatingDays : Z;
  calendarDays : option Z;
  totals : Amounts;
  perOperatingDay : Amounts;
  perCalendarDay : Amounts;
  ratios : Ratios;
  signals : list string
}.

Definition allMetrics : list MetricKey := [gross; net; discounts; tips; transactions].

Definition metricName (m : MetricKey) : string :=
  match m with
  | gross => "gross"
  | net => "net"
  | discounts => "discounts"
  | tips => "tips"
  | transactions => "transactions"
  end.

(** [`${n}`] for an integer. *)
Definition showZ (n : Z) : string := NilZero.string_of_int (Z.to_int n).

Definition showNumber (n : option Z) : string :=
  match n with
  | Some z => showZ z
  | None => "NaN"
  end.

(** *** Signals *)

Definition msgGap (operatingDays : Z) (calendarDays : option Z) : string :=
  "Operating-day normalization matters: " ++ showZ operatingDays
  ++ " active days across " ++ showNumber calendarDays
  ++ " calendar days. Totals alone understate per-day performance.".
Definition msgEveryDay : string :=
  "Performance is normalized: every calendar day shows activity.".
Definition msgTicket : string :=
  "Revenue is driven more by ticket size than transaction volume; protect average check to maintain momentum.".
Definition msgVolume : string :=
  "Revenue is volume-led; keep an eye on traffic levers and service speed.".
Definition msgBalanced : string :=
  "Ticket size and volume are balanced drivers of revenue.".
Definition msgDiscountMaterial : string :=
  "Discount pressure is material (discounts over 15% of gross). Ensure promos are intentional.".
Definition msgDiscountModerate : string :=
  "Moderate discounting detected; track whether promos are lifting ticket size or just eroding margin.".
Definition msgDiscountLight : string :=
  "Discount impact is light; margin preservation is strong.".
Definition msgTipsSoft : string :=
  "Tips per transaction are soft; consider service quality or customer mix changes.".
Definition msgTipsStrong : string :=
  "Tips per transaction are strong; service experience may be a differentiator.".
Definition msgTipsSteady : string :=
  "Tips per transaction are steady; no major behavioral signal detected.".

Definition normalizationNote (operatingDays : Z) (calendarDays : option Z) : string :=
  match calendarDays with
  | Some c => if operatingDays <? c then msgGap operatingDays calendarDays else msgEveryDay
  | None => msgEveryDay
  end.

(** [grossPerDay && tickets && txnPace]. *)
Definition driverGuard (grossPerDay tickets txnPace : float) : bool :=
  Num.truthy grossPerDay && Num.truthy tickets && Num.truthy txnPace.

Definition driverNote (tickets txnPace : float) : string :=
  if (txnPace <? tickets * 1.5)%float then msgTicket
  else if (tickets <? txnPace * 1.5)%float then msgVolume
  else msgBalanced.

#[warnings="-inexact-float"]
Definition discountNote (r : Ratios) : string :=
  if (0.15 <=? discountRate r)%float then msgDiscountMaterial
  else if (0.05 <? discountRate r)%float then msgDiscountModerate
  else msgDiscountLight.

Definition tipsNote (r : Ratios) : string :=
  if (tipsPerTransaction r <? 1)%float then msgTipsSoft
  else if (2.5 <? tipsPerTransaction r)%float then msgTipsStrong
  else msgTipsSteady.

Definition buildSignals (operatingDays : Z) (calendarDays : option Z)
    (perOperatingDay : Amounts) (ratios : Ratios) : list string :=
  let messages := [normalizationNote operatingDays calendarDays] in
  let grossPerDay := aGross perOperatingDay in
  let tickets := netPerTransaction ratios in
  let txnPace := aTransactions perOperatingDay in
  let messages :=
    if driverGuard grossPerDay tickets txnPace
    then messages ++ [driverNote tickets txnPace] else messages in
  let messages := messages ++ [discountNote ratios] in
  messages ++ [tipsNote ratios].

(** *** Aggregation *)

Inductive Outcome : Type :=
| Threw (message : string)
| Returned (daily : list DailyAggregate) (summary : Summary).

Definition errNoRows : string := "No rows detected in CSV.".
Definition errNoDate : string :=
  "Could not find a date column. Please ensure the CSV includes a date column.".
Definition errMissing (missing : list MetricKey) : string :=
  "Missing expected numeric columns: " ++ String.concat ", " (map metricName missing).
Definition errNoDatedRows : string := "No usable dated rows found after parsing.".

(** The [Map] from ISO date to aggregate, in insertion order. *)
Fixpoint bucketGet (bucket : list DailyAggregate) (k : string) : option DailyAggregate :=
  match bucket with
  | [] => None
  | e :: r => if String.eqb (dateISO e) k then Some e else bucketGet r k
  end.

Fixpoint bucketSet (bucket : list DailyAggregate) (k : string) (v : DailyAggregate)
  : list DailyAggregate :=
  match bucket with
  | [] => [v]
  | e :: r => if String.eqb (dateISO e) k then v :: r else e :: bucketSet r k v
  end.

(** [entry[metric] += parseNumber(row[column])], skipped without a column. *)
Definition addMetric (metricColumns : Columns) (row : RawRow)
    (entry : Amounts) (metric : MetricKey) : Amounts :=
  let column := column metricColumns metric in
  if negb (Js.truthy column) then entry
  else
    match column with
    | Some c =>
        setAmount metric (amount entry metric + parseNumber (ofLookup (get row c)))%float entry
    | None => entry
    end.

Section Aggregate.

Variable legacy : string -> option Z.

Definition rowStep (dateColumn : string) (metricColumns : Columns)
    (bucket : list DailyAggregate) (row : RawRow) : list DailyAggregate :=
  let d := tryParseDate legacy (get row dateColumn) in
  if negb (Js.truthy d) then bucket
  else
    match d with
    | Some dateISO =>
        let entry :=
          match bucketGet bucket dateISO with
          | Some e => e
          | None => mkDaily dateISO zeroAmounts
          end in
        bucketSet bucket dateISO
          (mkDaily (dateISO) (fold_left (addMetric metricColumns row) allMetrics (amounts entry)))
    | None => bucket
    end.

(** [daily.sort((a, b) => a.dateISO.localeCompare(b.dateISO))]: a stable
    sort. *)
Fixpoint insertDaily (x : DailyAggregate) (l : list DailyAggregate) : list DailyAggregate :=
  match l with
  | [] => [x]
  | y :: r =>
      match Js.localeCompare (dateISO x) (dateISO y) with
      | Gt => y :: insertDaily x r
      | _ => x :: l
      end
  end.

Definition sortDaily (l : list DailyAggregate) : list DailyAggregate :=
  fold_right insertDaily [] l.

Definition addAmounts (acc cur : Amounts) : Amounts :=
  mkAmounts (aGross acc + aGross cur) (aNet acc + aNet cur)
            (aDiscounts acc + aDiscounts cur) (aTips acc + aTips cur)
            (aTransactions acc + aTransactions cur)%float.

Definition sumDaily (daily : list DailyAggregate) : Amounts :=
  fold_left (fun acc cur => addAmounts acc (amounts cur)) daily zeroAmounts.

(** [Math.round(x / d)] for integers [x] and [d > 0]: the nearest integer,
    a half going up. *)
Definition roundDiv (x d : Z) : Z := (2 * x + d) / (2 * d).

(** The span of the sorted days; [None] is [NaN]. *)
Definition spanDays (daily : list DailyAggregate) : option Z :=
  match daily with
  | [] => None
  | first :: _ =>
      match Date.parse legacy (dateISO first),
            Date.parse legacy (dateISO (last daily first)) with
      | Some start, Some stop => Some (roundDiv (stop - start) Date.msPerDay + 1)
      | _, _ => None
      end
  end.

Definition numberOf (n : option Z) : float :=
  match n with
  | Some z => Num.ofZ z
  | None => PrimFloat.nan
  end.

Definition ratiosOf (totals : Amounts) : Ratios :=
  mkRatios
    (if Num.truthy (aGross totals) then aDiscounts totals / aGross totals else 0)%float
    (if Num.truthy (aTransactions totals) then aNet totals / aTransactions totals else 0)%float
    (if Num.truthy (aTransactions totals) then aTips totals / aTransactions totals else 0)%float.

(** What [aggregate] builds from the sorted days, once there is one. *)
Definition summaryOf (daily : list DailyAggregate) : Summary :=
  let totals := sumDaily daily in
  let operatingDays := Z.of_nat (List.length daily) in
  let calendarDays := spanDays daily in
  let perOperatingDay :=
    mapAmounts (fun value => value / Num.ofZ operatingDays)%float totals in
  let perCalendarDay :=
    mapAmounts (fun value => value / numberOf calendarDays)%float totals in
  let ratios := ratiosOf totals in
  let signals := buildSignals operatingDays calendarDays perOperatingDay ratios in
  mkSummary operatingDays calendarDays totals perOperatingDay perCalendarDay
            ratios signals.

Definition missingMetrics (metricColumns : Columns) : list MetricKey :=
  filter (fun m => negb (Js.truthy (column metricColumns m))) [gross; net].

Definition aggregate (rows : list RawRow) : Outcome :=
  match rows with
  | [] => Threw errNoRows
  | row0 :: _ =>
      let headers := keys row0 in
      match detectDateColumn legacy rows headers with
      | None => Threw errNoDate
      | Some dateColumn =>
          if String.eqb dateColumn "" then Threw errNoDate
          else
            let metricColumns := detectMetricColumns rows headers in
            match missingMetrics metricColumns with
            | _ :: _ => Threw (errMissing (missingMetrics metricColumns))
            | [] =>
                let bucket := fold_left (rowStep dateColumn metricColumns) rows [] in
                let daily := sortDaily bucket in
                match daily with
                | [] => Threw errNoDatedRows
                | _ :: _ => Returned daily (summaryOf daily)
                end
            end
      end
  end.

End Aggregate.

(** ** The file handler of the page

    The state of the component [App] and its callback [handleFiles].  The
    callback is asynchronous: it sets the file name, awaits the text of
    the file, and then parses, aggregates and sets the three other state
    variables in one go. *)

Module App.

(** What a [catch] clause receives: an [Error] with its message, or some
    other value. *)
Inductive Thrown : Type :=
| ErrorObject (message : string)
| OtherValue.

(** What [Papa.parse] returns: the records and the messages of its
    errors. *)
Record ParseResult : Type := mkParseResult {
  data : list RawRow;
  errors : list string
}.

(** A [File]: its name and what [file.text()] settles to. *)
Record File : Type := mkFile {
  name : string;
  text : string + Thrown
}.

(** The four state variables. *)
Record State : Type := mkState {
  daily : list DailyAggregate;
  summary : option Summary;
  error : option string;
  fileName : string
}.

Definition initial : State := mkState [] None None "".

Definition setFileName (n : string) (st : State) : State :=
  mkState (daily st) (summary st) (error st) n.

Section Handler.

Variable legacy : string -> option Z.

(** [Papa.parse(text, { header: true, skipEmptyLines: true })]: a library
    function, which returns or throws. *)
Variable papaParse : string -> ParseResult + Thrown.

(** The [try] block, from the text of the file on. *)
Definition tryBlock (text : string + Thrown)
  : (list DailyAggregate * Summary) + Thrown :=
  match text with
  | inr thrown => inr thrown
  | inl text =>
      match papaParse text with
      | inr thrown => inr thrown
      | inl parsed =>
          match errors parsed with
          | message :: _ => inr (ErrorObject message)
          | [] =>
              let rows :=
                filter (fun row => (0 <? List.length (keys row))%nat) (data parsed) in
              match aggregate legacy rows with
              | Threw message => inr (ErrorObject message)
              | Returned aggregated builtSummary => inl (aggregated, builtSummary)
              end
          end
      end
  end.

(** The part of [handleFiles] that runs once [file.text()] has settled. *)
Definition afterText (st : State) (text : string + Thrown) : State :=
  match tryBlock text with
  | inl (aggregated, builtSummary) =>
      mkState aggregated (Some builtSummary) None (fileName st)
  | inr err =>
      let message :=
        match err with
        | ErrorObject message => message
        | OtherValue => "Unable to parse CSV."
        end in
      mkState [] None (Some message) (fileName st)
  end.

(** One call of [handleFiles] that runs to its end undisturbed. *)
Definition handleFiles (st : State) (files : list File) : State :=
  match files with
  | [] => st
  | file :: _ => afterText (setFileName (name file) st) (text file)
  end.

(** The two steps of a call, which the steps of other calls can come
    between. *)
Inductive Event : Type :=
| Started (file : File)
| Settled (file : File).

Definition step (st : State) (ev : Event) : State :=
  match ev with
  | Started file => setFileName (name file) st
  | Settled file => afterText st (text file)
  end.

Definition run (events : list Event) : State := fold_left step events initial.

(** What the page shows makes sense: a summary comes with the non-empty
    daily sequence of the same run of [aggregate] and without an error
    message; without a summary the daily sequence is empty. *)
Definition coherent (st : State) : Prop :=
  match summary st with
  | Some s =>
      error st = None /\ daily st <> [] /\
      exists rows, aggregate legacy rows = Returned (daily st) s
  | None => daily st = []
  end.

End Handler.

End App.

(** ** Sample records and hosts *)

(** A host whose [Date.parse] reads the standard format and nothing else. *)
Definition isoOnly : string -> option Z := fun _ => None.

(** The two records of the specification's end-to-end scenario A. *)
Definition scenarioA : list RawRow :=
  [ [("Date", "2024-01-01"); ("Total Sales", "$100.00"); ("Net Sales", "$90.00");
     ("Discounts", "$5.00"); ("Tip", "$10.00"); ("Orders", "10")];
    [("Date", "2024-01-03"); ("Total Sales", "$200.00"); ("Net Sales", "$180.00");
     ("Discounts", "$0.00"); ("Tip", "$30.00"); ("Orders", "15")] ].

(** Two days whose order counts overflow to [+Infinity] and [-Infinity]:
    their total is [NaN]. *)
Definition overflowRows : list RawRow :=
  [ [("Date", "2024-01-01"); ("Gross", "10"); ("Net", "8"); ("Discounts", "0");
     ("Tip", "1"); ("Orders", "1e308")];
    [("Date", "2024-01-01"); ("Gross", "10"); ("Net", "8"); ("Discounts", "0");
     ("Tip", "1"); ("Orders", "1e308")];
    [("Date", "2024-01-02"); ("Gross", "10"); ("Net", "8"); ("Discounts", "0");
     ("Tip", "1"); ("Orders", "-1e308")];
    [("Date", "2024-01-02"); ("Gross", "10"); ("Net", "8"); ("Discounts", "0");
     ("Tip", "1"); ("Orders", "-1e308")] ].

(** Scenario A without its [Discounts] column. *)
Definition noDiscountRows : list RawRow :=
  [ [("Date", "2024-01-01"); ("Total Sales", "$100.00"); ("Net Sales", "$90.00");
     ("Tip", "$10.00"); ("Orders", "10")];
    [("Date", "2024-01-03"); ("Total Sales", "$200.00"); ("Net Sales", "$180.00");
     ("Tip", "$30.00"); ("Orders", "15")] ].

(** A free-text column with one cell that holds a digit, before a column of
    amounts whose name has no hint. *)
Definition notesRows : list RawRow :=
  [ [("Notes", "2 shots"); ("Amount", "5.00")];
    [("Notes", ""); ("Amount", "6.00")] ].

(** An export with an unnamed first column of record numbers, as data
    frame libraries write it, and no column of order counts. *)
Definition indexedRows : list RawRow :=
  [ [("", "0"); ("Date", "2024-01-01"); ("Gross", "10"); ("Net", "9");
     ("Discounts", "1"); ("Tips", "2")];
    [("", "1"); ("Date", "2024-01-02"); ("Gross", "20"); ("Net", "18");
     ("Discounts", "2"); ("Tips", "4")] ].

(** One record with a date and no amount. *)
Definition memoRows : list RawRow := [ [("Date", "2024-01-01"); ("Memo", "n/a")] ].

(** One record whose dates are in a column without a name. *)
Definition unnamedDateRows : list RawRow :=
  [ [("", "2024-01-15"); ("Gross", "10"); ("Net", "9")] ].

(** The first valid day, in the expanded-year form. *)
Definition firstDayRows : list RawRow :=
  [ [("Date", "-271821-04-20"); ("Gross", "1"); ("Net", "1")] ].

(** Three days in expanded years, the latest first. *)
Definition signRows : list RawRow :=
  [ [("Date", "+010000-01-01"); ("Gross", "10"); ("Net", "9")];
    [("Date", "-000002-01-01"); ("Gross", "20"); ("Net", "18")];
    [("Date", "-000001-01-01"); ("Gross", "30"); ("Net", "27")] ].

(** The records of scenario A, the later day first. *)
Definition reversedA : list RawRow := rev scenarioA.

(** Two days before the year 0000, in the expanded-year form of the Date
    Time String Format, and two days around the end of the year 9999. *)
Definition bcRows : list RawRow :=
  [ [("Date", "-000001-06-15"); ("Gross", "1"); ("Net", "1")];
    [("Date", "-000002-06-15"); ("Gross", "1"); ("Net", "1")] ].

Definition y10kRows : list RawRow :=
  [ [("Date", "9999-12-31"); ("Gross", "1"); ("Net", "1")];
    [("Date", "+010000-01-01"); ("Gross", "1"); ("Net", "1")] ].

(** A host in a zone [offset] minutes east of UTC that reads [MM/DD/YYYY]
    and [MM-DD-YYYY] as local midnight of that day (what V8, SpiderMonkey
    and JavaScriptCore do with [MM/DD/YYYY]), and no other string outside
    the standard format. *)
Definition usDateHost (offset : Z) (s : string) : option Z :=
  match Date.digitsN 2 0 (Js.chars s) with
  | Some (m, sep1 :: r1) =>
      match Date.digitsN 2 0 r1 with
      | Some (dt, sep2 :: r2) =>
          match Date.digitsN 4 0 r2 with
          | Some (y, []) =>
              if (Ascii.eqb sep1 "/" || Ascii.eqb sep1 "-") && Ascii.eqb sep1 sep2
                 && (1 <=? m) && (m <=? 12) && (1 <=? dt) && (dt <=? Date.daysInMonth y m)
              then Some (Date.dayOfCivil y m dt * Date.msPerDay - offset * 60000)
              else None
          | _ => None
          end
      | _ => None
      end
  | _ => None
  end.

(** * Properties *)

(** ** The cell normaliser for numbers *)

Lemma isFinite_guard (x : float) :
  Num.isFinite (if Num.isFinite x then x else PrimFloat.zero) = true.
Proof. destruct (Num.isFinite x) eqn:E; [exact E | reflexivity]. Qed.

Lemma parseNumber_finite (raw : Cell) : Num.isFinite (parseNumber raw) = true.
Proof.
  destruct raw as [| x | s]; cbn [parseNumber].
  - reflexivity.
  - apply isFinite_guard.
  - destruct (String.eqb (Js.trim s) ""); [reflexivity | apply isFinite_guard].
Qed.

Lemma parseNumber_blank (s : string) :
  Js.trim s = "" -> parseNumber (CString s) = PrimFloat.zero.
Proof. intros E. cbn [parseNumber]. rewrite E. reflexivity. Qed.

Lemma parseNumber_unparseable (s : string) :
  Num.isFinite (Num.parseFloat (normalized (Js.trim s))) = false ->
  parseNumber (CString s) = PrimFloat.zero.
Proof.
  intros E. cbn [parseNumber].
  destruct (String.eqb (Js.trim s) ""); [reflexivity |].
  rewrite E. reflexivity.
Qed.

(** C6. [parseNumber] is total and its result is always a finite number
    (it never raises, and never returns [NaN] or an infinity); it is 0 for
    [undefined], for the empty string, for a blank string and whenever
    [parseFloat] finds no finite number in the stripped cell; and
    ["$1,234.50"] gives 1234.5, ["(12.00)"] gives 12 (the parentheses are
    stripped, the sign is not changed) and ["12%"] gives 12. *)
Theorem parseNumber_spec :
  (forall raw, Num.isFinite (parseNumber raw) = true) /\
  parseNumber CUndefined = 0%float /\
  parseNumber (CString "") = 0%float /\
  (forall s, Js.trim s = "" -> parseNumber (CString s) = 0%float) /\
  (forall s, Num.isFinite (Num.parseFloat (normalized (Js.trim s))) = false ->
             parseNumber (CString s) = 0%float) /\
  (forall x, Num.isFinite x = false -> parseNumber (CNumber x) = 0%float) /\
  parseNumber (CString "$1,234.50") = 1234.5%float /\
  parseNumber (CString "(12.00)") = 12%float /\
  parseNumber (CString "12%") = 12%float.
Proof.
  split; [exact parseNumber_finite |].
  split; [reflexivity |].
  split; [reflexivity |].
  split; [exact parseNumber_blank |].
  split; [exact parseNumber_unparseable |].
  split; [intros x E; cbn [parseNumber]; rewrite E; reflexivity |].
  repeat split; vm_compute; reflexivity.
Qed.

Lemma parseNumber_spec_witness :
  Num.isFinite (Num.parseFloat (normalized (Js.trim "n/a"))) = false /\
  parseNumber (CString "n/a") = 0%float.
Proof.
  split.
  - vm_compute. reflexivity.
  - apply (proj1 (proj2 (proj2 (proj2 (proj2 parseNumber_spec)))) "n/a").
    vm_compute. reflexivity.
Defined.

(** ** Numbers: zero, [NaN] and truthiness *)

Definition isZero (x : float) : bool := (x =? 0)%float.
Definition isNaN (x : float) : bool := PrimFloat.is_nan x.

Lemma truthy_false_iff (x : float) :
  Num.truthy x = false <-> isZero x = true \/ isNaN x = true.
Proof.
  unfold Num.truthy, isZero, isNaN, PrimFloat.is_zero.
  rewrite negb_false_iff, orb_true_iff. reflexivity.
Qed.

Lemma truthy_true_iff (x : float) :
  Num.truthy x = true <-> isZero x = false /\ isNaN x = false.
Proof.
  unfold Num.truthy, isZero, isNaN, PrimFloat.is_zero.
  rewrite negb_true_iff, orb_false_iff. reflexivity.
Qed.

(** ** Signals *)

Definition isNormalizationNote (m : string) : Prop :=
  m = msgEveryDay \/ exists o c, m = msgGap o c.
Definition isDriverNote (m : string) : Prop :=
  m = msgTicket \/ m = msgVolume \/ m = msgBalanced.
Definition isDiscountNote (m : string) : Prop :=
  m = msgDiscountMaterial \/ m = msgDiscountModerate \/ m = msgDiscountLight.
Definition isTipsNote (m : string) : Prop :=
  m = msgTipsSoft \/ m = msgTipsStrong \/ m = msgTipsSteady.

Lemma normalizationNote_kind o c : isNormalizationNote (normalizationNote o c).
Proof.
  unfold normalizationNote, isNormalizationNote.
  destruct c as [c |]; [destruct (o <? c) |]; eauto.
Qed.

Lemma driverNote_kind t p : isDriverNote (driverNote t p).
Proof.
  unfold driverNote, isDriverNote.
  destruct (_ <? _)%float; [| destruct (_ <? _)%float]; auto.
Qed.

Lemma discountNote_kind r : isDiscountNote (discountNote r).
Proof.
  unfold discountNote, isDiscountNote.
  destruct (_ <=? _)%float; [| destruct (_ <? _)%float]; auto.
Qed.

Lemma tipsNote_kind r : isTipsNote (tipsNote r).
Proof.
  unfold tipsNote, isTipsNote.
  destruct (_ <? _)%float; [| destruct (_ <? _)%float]; auto.
Qed.

(** The four kinds of note are told apart by their first words. *)
Lemma driver_not_normalization m : isDriverNote m -> ~ isNormalizationNote m.
Proof.
  intros [-> | [-> | ->]] [E | (o & c & E)]; discriminate E.
Qed.

Lemma driver_not_discount m : isDriverNote m -> ~ isDiscountNote m.
Proof.
  intros [-> | [-> | ->]] [E | [E | E]]; discriminate E.
Qed.

Lemma driver_not_tips m : isDriverNote m -> ~ isTipsNote m.
Proof.
  intros [-> | [-> | ->]] [E | [E | E]]; discriminate E.
Qed.

Lemma buildSignals_shape o c p r :
  buildSignals o c p r
  = normalizationNote o c
    :: (if driverGuard (aGross p) (netPerTransaction r) (aTransactions p)
        then [driverNote (netPerTransaction r) (aTransactions p)] else [])
    ++ [discountNote r; tipsNote r].
Proof.
  unfold buildSignals. destruct (driverGuard _ _ _); reflexivity.
Qed.

Lemma driverGuard_true_iff g t p :
  driverGuard g t p = true <->
  (isZero g = false /\ isNaN g = false) /\
  (isZero t = false /\ isNaN t = false) /\
  (isZero p = false /\ isNaN p = false).
Proof.
  unfold driverGuard. rewrite !andb_true_iff, !truthy_true_iff. tauto.
Qed.

(** C10 (as amended). For every input, [buildSignals] returns three or
    four messages: the normalization note first, then the driver note
    when there is one, then the discount note and the tips note; the driver
    note is there exactly when [perOperatingDay.gross], [netPerTransaction]
    and [perOperatingDay.transactions] are each neither zero nor [NaN]. *)
Theorem buildSignals_messages (o : Z) (c : option Z) (p : Amounts) (r : Ratios) :
  let messages := buildSignals o c p r in
  (List.length messages = 3%nat \/ List.length messages = 4%nat) /\
  (exists n rest, messages = n :: rest /\ isNormalizationNote n) /\
  (exists d, In d messages /\ isDiscountNote d) /\
  (exists t, In t messages /\ isTipsNote t) /\
  ((exists m, In m messages /\ isDriverNote m) <->
   (isZero (aGross p) = false /\ isNaN (aGross p) = false) /\
   (isZero (netPerTransaction r) = false /\ isNaN (netPerTransaction r) = false) /\
   (isZero (aTransactions p) = false /\ isNaN (aTransactions p) = false)).
Proof.
  cbv zeta. rewrite buildSignals_shape, <- driverGuard_true_iff.
  pose proof (normalizationNote_kind o c) as Hn.
  pose proof (discountNote_kind r) as Hd.
  pose proof (tipsNote_kind r) as Ht.
  pose proof (driverNote_kind (netPerTransaction r) (aTransactions p)) as Hv.
  destruct (driverGuard _ _ _); cbn [app List.length In].
  - split; [right; reflexivity |].
    split; [eexists; eexists; split; [reflexivity | exact Hn] |].
    split; [eexists; split; [| exact Hd]; auto |].
    split; [eexists; split; [| exact Ht]; auto |].
    split; [reflexivity | intros _; eexists; split; [| exact Hv]; auto].
  - split; [left; reflexivity |].
    split; [eexists; eexists; split; [reflexivity | exact Hn] |].
    split; [eexists; split; [| exact Hd]; auto |].
    split; [eexists; split; [| exact Ht]; auto |].
    split; [| discriminate].
    intros (m & [<- | [<- | [<- | []]]] & Hm); exfalso.
    + exact (driver_not_normalization _ Hm Hn).
    + exact (driver_not_discount _ Hm Hd).
    + exact (driver_not_tips _ Hm Ht).
Qed.

(** The claim C10 as stated fails at a [NaN]: with [perOperatingDay.gross]
    [NaN] and the two other quantities 1, all three are non-zero and there
    is no driver note. *)
Lemma buildSignals_nan_no_driver :
  let p := mkAmounts PrimFloat.nan 1 1 1 1 in
  let r := mkRatios 0 1 1 in
  ((aGross p =? 0)%float = false /\
   (netPerTransaction r =? 0)%float = false /\
   (aTransactions p =? 0)%float = false) /\
  buildSignals 1 (Some 1) p r = [msgEveryDay; msgDiscountLight; msgTipsSteady] /\
  ~ (exists m, In m (buildSignals 1 (Some 1) p r) /\ isDriverNote m).
Proof.
  cbv zeta. split; [repeat split; vm_compute; reflexivity |].
  split; [vm_compute; reflexivity |].
  intros (m & Hin & Hm).
  replace (buildSignals 1 (Some 1) (mkAmounts PrimFloat.nan 1 1 1 1) (mkRatios 0 1 1))
    with [msgEveryDay; msgDiscountLight; msgTipsSteady] in Hin
    by (vm_compute; reflexivity).
  destruct Hin as [<- | [<- | [<- | []]]];
    destruct Hm as [E | [E | E]]; discriminate E.
Qed.

(** ** The metric columns *)

Section MetricColumns.

Variable rows : list RawRow.

(** A column is eligible when some record has a numeric-looking cell in it. *)
Definition eligible (h : string) : bool := existsb (numericCell h) rows.

Definition hintCount (hints : list string) (h : string) : Z :=
  hintScore hints (Js.toLowerCase h).

(** The first eligible column of a pool: the one the scan scores while it
    has no best yet. *)
Definition firstEligible (available : list string) : option string :=
  find eligible available.

Lemma hintScore_from (hints : list string) (s : string) (a : Z) :
  a <= fold_left (fun acc hint => if Js.includes s hint then acc + 1 else acc) hints a.
Proof.
  revert a. induction hints as [| x hints IH]; intros a; cbn [fold_left]; [lia |].
  destruct (Js.includes s x); [specialize (IH (a + 1)) | specialize (IH a)]; lia.
Qed.

Lemma hintCount_nonneg hints h : 0 <= hintCount hints h.
Proof. apply hintScore_from. Qed.

Lemma bestColumn_snoc hints available h :
  bestColumn rows hints (available ++ [h])
  = scoreStep rows hints (bestColumn rows hints available) h.
Proof. unfold bestColumn. rewrite fold_left_app. reflexivity. Qed.

Lemma firstEligible_snoc available h :
  firstEligible (available ++ [h])
  = match firstEligible available with
    | Some x => Some x
    | None => if eligible h then Some h else None
    end.
Proof.
  unfold firstEligible. induction available as [| x l IH]; cbn [app find].
  - destruct (eligible h); reflexivity.
  - destruct (eligible x); [reflexivity | exact IH].
Qed.

Lemma firstEligible_none available :
  firstEligible available = None <-> forall h, In h available -> eligible h = false.
Proof.
  unfold firstEligible. split.
  - intros E h Hin. exact (find_none _ _ E h Hin).
  - intros H. induction available as [| x l IH]; [reflexivity |].
    cbn [find]. rewrite (H x (or_introl eq_refl)). apply IH.
    intros h Hh. apply H. right. exact Hh.
Qed.

(** A column competes for a metric when it is eligible and either its name
    contains a hint or it is the first eligible column of the pool. *)
Definition competes (hints : list string) (available : list string) (h : string) : Prop :=
  eligible h = true /\
  (0 < hintCount hints h \/ firstEligible available = Some h).

(** What the scan of a pool leaves in [best]. *)
Definition scanned (hints : list string) (available : list string)
    (best : option Best) : Prop :=
  match best with
  | None => firstEligible available = None
  | Some b =>
      In (header b) available /\
      competes hints available (header b) /\
      score b = weightedScore rows hints (header b) /\
      forall h, In h available -> competes hints available h ->
                weightedScore rows hints h <= score b
  end.

Lemma competes_snoc_old hints available x h :
  In h available -> competes hints (available ++ [x]) h -> competes hints available h.
Proof.
  intros Hin [He [Hk | Hf]]; split; auto.
  rewrite firstEligible_snoc in Hf.
  destruct (firstEligible available) as [y |] eqn:Ey; [right; exact Hf |].
  rewrite (proj1 (firstEligible_none available) Ey h Hin) in He. discriminate He.
Qed.

Lemma competes_snoc_keep hints available x h :
  competes hints available h -> competes hints (available ++ [x]) h.
Proof.
  intros [He [Hk | Hf]]; split; auto.
  right. rewrite firstEligible_snoc, Hf. reflexivity.
Qed.

Lemma bestColumn_scanned hints available :
  scanned hints available (bestColumn rows hints available).
Proof.
  induction available as [| x l IH] using rev_ind; [reflexivity |].
  rewrite bestColumn_snoc. unfold scoreStep. fold (eligible x).
  fold (hintCount hints x).
  destruct (bestColumn rows hints l) as [b |] eqn:Eb; cbn [scanned] in IH |- *.
  - destruct IH as (Hin & Hc & Hs & Hmax).
    destruct (eligible x) eqn:Ex; cbn [negb].
    + destruct (hintCount hints x =? 0) eqn:Ek; cbn [andb].
      * (* no hint and a best exists: skipped *)
        apply Z.eqb_eq in Ek.
        split; [apply in_or_app; left; exact Hin |].
        split; [apply competes_snoc_keep; exact Hc |].
        split; [exact Hs |].
        intros h Hh Hch. apply in_app_or in Hh. destruct Hh as [Hh | [<- | []]].
        -- apply Hmax; [exact Hh | eapply competes_snoc_old; eauto].
        -- destruct Hch as [_ [Hk | Hf]]; [lia |].
           rewrite firstEligible_snoc in Hf.
           destruct (firstEligible l) as [y |] eqn:Ey.
           ++ injection Hf as ->.
              assert (Hy : In x l).
              { unfold firstEligible in Ey. apply find_some in Ey. tauto. }
              apply Hmax; [exact Hy | split; [exact Ex | right; exact Ey]].
           ++ destruct Hc as [He _].
              rewrite (proj1 (firstEligible_none l) Ey _ Hin) in He. discriminate He.
      * apply Z.eqb_neq in Ek. pose proof (hintCount_nonneg hints x) as Hk.
        change (hintCount hints x * 2 + numericDensity rows x)
          with (weightedScore rows hints x).
        assert (Hw : weightedScore rows hints x
                     = hintCount hints x * 2 + numericDensity rows x) by reflexivity.
        destruct (weightedScore rows hints x >? score b) eqn:Eg.
        -- cbn [scanned header score].
           split; [apply in_or_app; right; left; reflexivity |].
           split; [split; [exact Ex | left; lia] |].
           split; [reflexivity |].
           intros h Hh Hch. apply in_app_or in Hh. destruct Hh as [Hh | [<- | []]].
           ++ specialize (Hmax h Hh (competes_snoc_old _ _ _ _ Hh Hch)). lia.
           ++ lia.
        -- cbn [scanned].
           split; [apply in_or_app; left; exact Hin |].
           split; [apply competes_snoc_keep; exact Hc |].
           split; [exact Hs |].
           intros h Hh Hch. apply in_app_or in Hh. destruct Hh as [Hh | [<- | []]].
           ++ apply Hmax; [exact Hh | eapply competes_snoc_old; eauto].
           ++ lia.
    + split; [apply in_or_app; left; exact Hin |].
      split; [apply competes_snoc_keep; exact Hc |].
      split; [exact Hs |].
      intros h Hh Hch. apply in_app_or in Hh. destruct Hh as [Hh | [<- | []]].
      * apply Hmax; [exact Hh | eapply competes_snoc_old; eauto].
      * destruct Hch as [He _]. rewrite Ex in He. discriminate He.
  - destruct (eligible x) eqn:Ex; cbn [negb andb].
    + rewrite andb_false_r. cbn [scanned header score].
      fold (hintCount hints x). 
      split; [apply in_or_app; right; left; reflexivity |].
      assert (Hf : firstEligible (l ++ [x]) = Some x).
      { rewrite firstEligible_snoc, IH, Ex. reflexivity. }
      split; [split; [exact Ex | right; exact Hf] |].
      split; [reflexivity |].
      intros h Hh Hch. apply in_app_or in Hh. destruct Hh as [Hh | [<- | []]].
      * destruct Hch as [He _].
        rewrite (proj1 (firstEligible_none l) IH h Hh) in He. discriminate He.
      * apply Z.le_refl.
    + cbn [scanned]. rewrite firstEligible_snoc, IH, Ex. reflexivity.
Qed.

End MetricColumns.

(** *** The loop over the metric keys *)

Definition MetricKey_eq_dec (a b : MetricKey) : {a = b} + {a <> b}.
Proof. decide equality. Defined.

Lemma column_setColumn_same m h c : column (setColumn m h c) m = Some h.
Proof. destruct m; reflexivity. Qed.

Lemma column_setColumn_other m m' h c :
  m <> m' -> column (setColumn m h c) m' = column c m'.
Proof. destruct m, m'; intros H; try reflexivity; contradiction H; reflexivity. Qed.

Lemma in_delete (h x : string) (l : list string) :
  In x (delete h l) <-> In x l /\ x <> h.
Proof.
  unfold delete. rewrite filter_In, negb_true_iff, String.eqb_neq. reflexivity.
Qed.

Lemma in_setOf (x : string) (l : list string) : In x (setOf l) <-> In x l.
Proof.
  induction l as [| h l IH]; cbn [setOf In]; [reflexivity |].
  rewrite filter_In, negb_true_iff, String.eqb_neq, IH.
  destruct (string_dec h x) as [E | N]; [tauto |].
  split; [tauto |]. intros [E | H]; [tauto |]. right. split; [exact H | congruence].
Qed.

Lemma NoDup_app_both {A} (a b : list A) (x : A) :
  NoDup (a ++ b) -> In x a -> In x b -> False.
Proof.
  induction a as [| y a IH]; cbn [app In]; [tauto |].
  intros Hnd [-> | Ha] Hb; inversion Hnd as [| ? ? Hy Hnd']; subst.
  - apply Hy. apply in_or_app. right. exact Hb.
  - exact (IH Hnd' Ha Hb).
Qed.

Lemma metricHints_keys : map fst metricHints = allMetrics.
Proof. reflexivity. Qed.

Lemma allMetrics_NoDup : NoDup allMetrics.
Proof. repeat constructor; cbn; intuition discriminate. Qed.

Section MetricLoop.

Variable rows : list RawRow.

Definition loop (entries : list (MetricKey * list string)) (st : list string * Columns)
  : list string * Columns :=
  fold_left (metricStep rows) entries st.

Lemma metricStep_eq available selections m hints :
  metricStep rows (available, selections) (m, hints)
  = match bestColumn rows hints available with
    | Some b => (delete (header b) available, setColumn m (header b) selections)
    | None => (available, selections)
    end.
Proof. reflexivity. Qed.

(** The loop leaves alone the keys it does not visit. *)
Lemma loop_frame entries available selections m :
  ~ In m (map fst entries) ->
  column (snd (loop entries (available, selections))) m = column selections m.
Proof.
  revert available selections.
  induction entries as [| [m' hints] es IH]; intros av sel Hm; [reflexivity |].
  cbn [map fst In] in Hm. unfold loop. cbn [fold_left]. rewrite metricStep_eq.
  destruct (bestColumn rows hints av) as [b |].
  - fold (loop es (delete (header b) av, setColumn m' (header b) sel)).
    rewrite IH by tauto. apply column_setColumn_other. tauto.
  - apply IH. tauto.
Qed.

(** The pool after the loop: the columns of the pool before it that no
    visited key has claimed. *)
Lemma loop_pool entries available selections :
  NoDup (map fst entries) ->
  (forall m, In m (map fst entries) -> column selections m = None) ->
  forall h,
    In h (fst (loop entries (available, selections))) <->
    In h available /\
    forall m, In m (map fst entries) ->
              column (snd (loop entries (available, selections))) m <> Some h.
Proof.
  revert available selections.
  induction entries as [| [m hints] es IH]; intros av sel Hnd Hnone h.
  - cbn. split; [intros H; split; [exact H | intros m []] | tauto].
  - cbn [map fst] in Hnd, Hnone |- *. inversion Hnd as [| ? ? Hm Hnd']; subst.
    unfold loop. cbn [fold_left]. rewrite metricStep_eq.
    destruct (bestColumn rows hints av) as [b |].
    + fold (loop es (delete (header b) av, setColumn m (header b) sel)).
      rewrite IH; [| exact Hnd' |].
      * rewrite in_delete. split.
        -- intros [[Hin Hne] Hes]. split; [exact Hin |].
           intros m' [<- | Hm']; [| apply Hes; exact Hm'].
           rewrite loop_frame by exact Hm. rewrite column_setColumn_same. congruence.
        -- intros [Hin Hall]. split; [split; [exact Hin |] |].
           ++ specialize (Hall m (or_introl eq_refl)).
              rewrite loop_frame in Hall by exact Hm.
              rewrite column_setColumn_same in Hall. congruence.
           ++ intros m' Hm'. apply Hall. right. exact Hm'.
      * intros m' Hm'. rewrite column_setColumn_other.
        -- apply Hnone. right. exact Hm'.
        -- intros ->. exact (Hm Hm').
    + fold (loop es (av, sel)).
      rewrite IH; [| exact Hnd' | intros m' Hm'; apply Hnone; right; exact Hm'].
      split.
      * intros [Hin Hes]. split; [exact Hin |].
        intros m' [<- | Hm']; [| apply Hes; exact Hm'].
        rewrite loop_frame by exact Hm. rewrite Hnone by (left; reflexivity). discriminate.
      * intros [Hin Hall]. split; [exact Hin |]. intros m' Hm'. apply Hall. right. exact Hm'.
Qed.

Lemma loop_app before after st :
  loop (before ++ after) st = loop after (loop before st).
Proof. unfold loop. apply fold_left_app. Qed.

(** The key visited after [before] gets the best column of the pool left
    by [before], and keeps it. *)
Lemma loop_at before m hints after st :
  ~ In m (map fst after) ->
  column (snd (loop (before ++ (m, hints) :: after) st)) m
  = match bestColumn rows hints (fst (loop before st)) with
    | Some b => Some (header b)
    | None => column (snd (loop before st)) m
    end.
Proof.
  intros Hm. rewrite loop_app. destruct (loop before st) as [av sel].
  unfold loop at 1. cbn [fold_left fst snd]. rewrite metricStep_eq.
  destruct (bestColumn rows hints av) as [b |].
  - fold (loop after (delete (header b) av, setColumn m (header b) sel)).
    rewrite loop_frame by exact Hm. apply column_setColumn_same.
  - fold (loop after (av, sel)). apply loop_frame. exact Hm.
Qed.

Lemma numericDensity_not_eligible h :
  eligible rows h = false -> numericDensity rows h = 0.
Proof.
  unfold eligible, numericDensity. induction rows as [| r l IH]; [reflexivity |].
  cbn [existsb fold_left]. intros H. apply orb_false_elim in H. destruct H as [H1 H2].
  rewrite H1. apply IH. exact H2.
Qed.

End MetricLoop.

Section MetricSelection.

Variable rows : list RawRow.
Variable headers : list string.

Definition transactionHints : list string :=
  ["transactions"; "orders"; "receipts"; "count"].

Lemma scoredColumns_last :
  scoredColumns rows headers
  = metricStep rows
      (loop rows (removelast metricHints) (setOf headers, noColumns))
      (transactions, transactionHints).
Proof. reflexivity. Qed.

Lemma dense_eligible h : dense rows h = true -> eligible rows h = true.
Proof.
  unfold dense. intros H. destruct (eligible rows h) eqn:E; [reflexivity |].
  rewrite (numericDensity_not_eligible rows h E) in H.
  apply Z.gtb_lt in H. lia.
Qed.

(** The fall-back scan for [transactions] changes nothing unless the
    scored loop chose a column with the empty name for it: when the loop
    found no column, no column left has a numeric-looking cell. *)
Lemma detectMetricColumns_column m :
  (m = transactions -> column (snd (scoredColumns rows headers)) m <> Some "") ->
  column (detectMetricColumns rows headers) m
  = column (snd (scoredColumns rows headers)) m.
Proof.
  intros Hm. unfold detectMetricColumns.
  destruct (scoredColumns rows headers) as [av sel] eqn:Es. cbn [snd] in *.
  destruct (Js.truthy (colTransactions sel)) eqn:Et; cbn [negb]; [reflexivity |].
  destruct (find (dense rows) av) as [h |] eqn:Ef; [| reflexivity].
  destruct (MetricKey_eq_dec m transactions) as [-> | Hne].
  - exfalso. specialize (Hm eq_refl). cbn [column] in Hm.
    assert (En : colTransactions sel = None).
    { destruct (colTransactions sel) as [c |]; [| reflexivity].
      cbn in Et. apply negb_false_iff, String.eqb_eq in Et. congruence. }
    rewrite scoredColumns_last in Es.
    destruct (loop rows (removelast metricHints) (setOf headers, noColumns))
      as [av4 sel4] eqn:E4.
    rewrite metricStep_eq in Es.
    pose proof (bestColumn_scanned rows transactionHints av4) as Hsc.
    destruct (bestColumn rows transactionHints av4) as [b |].
    + injection Es as _ <-. cbn in En. discriminate En.
    + injection Es as <- <-. cbn [scanned] in Hsc.
      apply find_some in Ef. destruct Ef as [Hin Hd].
      apply dense_eligible in Hd.
      rewrite (proj1 (firstEligible_none rows av4) Hsc h Hin) in Hd. discriminate Hd.
  - apply column_setColumn_other. congruence.
Qed.

(** [transactions] is the last key of [metricHints]. *)
Lemma transactions_last before hints after :
  metricHints = before ++ (transactions, hints) :: after ->
  before = removelast metricHints /\ hints = transactionHints /\ after = [].
Proof.
  intros H. unfold metricHints in H.
  do 4 (destruct before as [| e before]; cbn [app] in H;
        [discriminate H | injection H as E H; subst e]).
  destruct before as [| e before]; cbn [app] in H.
  - injection H as E1 E2. subst hints after. repeat split.
  - injection H as _ H. destruct before; discriminate H.
Qed.

(** When the scored loop chooses the column with the empty name for
    [transactions], the fall-back scan runs on the pool that is left: the
    first of its columns with a numeric-looking cell in more than a third
    of the records replaces the choice. *)
Lemma detectMetricColumns_empty_name :
  column (snd (scoredColumns rows headers)) transactions = Some "" ->
  column (detectMetricColumns rows headers) transactions
  = match find (dense rows)
            (delete "" (fst (loop rows (removelast metricHints) (setOf headers, noColumns))))
    with
    | Some h => Some h
    | None => Some ""
    end.
Proof.
  unfold detectMetricColumns. rewrite scoredColumns_last.
  pose proof (loop_frame rows (removelast metricHints) (setOf headers) noColumns transactions)
    as Hf.
  destruct (loop rows (removelast metricHints) (setOf headers, noColumns)) as [av4 sel4].
  cbn [fst snd] in *. rewrite metricStep_eq.
  destruct (bestColumn rows transactionHints av4) as [b |]; cbn [snd fst].
  - rewrite column_setColumn_same. intros E. injection E as E. rewrite E.
    cbn [setColumn colTransactions Js.truthy String.eqb negb].
    destruct (find (dense rows) (delete "" av4)) as [h |]; reflexivity.
  - rewrite Hf; [discriminate |]. cbn. intuition discriminate.
Qed.

(** C1 (as amended). For the metric key [m] that [metricHints] lists after
    the keys [before], with the hints [hints]: the pool [available] is made
    of the headers that no earlier key has claimed; the columns that
    compete are the eligible ones (some record has a numeric-looking cell)
    whose name contains a hint, and the first eligible column of the pool
    whatever its name; the column selected for [m] competes and its score,
    twice its number of hints plus its number of numeric-looking cells, is
    the greatest among the columns that compete.  A column selected without
    any hint in its name has more numeric-looking cells than every eligible
    column with a hint.  No column is selected exactly when the pool has no
    eligible column.  The selection is what [detectMetricColumns] returns
    for [m], with one exception: when the column selected for
    [transactions] is the one whose name is the empty string, the fall-back
    scan replaces it by the first column left in the pool that has a
    numeric-looking cell in more than a third of the records, if there is
    one. *)
Theorem detectMetricColumns_best_competing
    (before : list (MetricKey * list string)) (m : MetricKey) (hints : list string)
    (after : list (MetricKey * list string)) :
  metricHints = before ++ (m, hints) :: after ->
  let available := fst (loop rows before (setOf headers, noColumns)) in
  let selections := snd (scoredColumns rows headers) in
  (forall h, In h available <->
             In h headers /\
             forall m', In m' (map fst before) -> column selections m' <> Some h) /\
  match column selections m with
  | None => forall h, In h available -> eligible rows h = false
  | Some c =>
      In c available /\
      competes rows hints available c /\
      (forall h, In h available -> competes rows hints available h ->
                 weightedScore rows hints h <= weightedScore rows hints c) /\
      (hintCount hints c = 0 ->
       forall h, In h available -> eligible rows h = true -> 0 < hintCount hints h ->
                 numericDensity rows h < numericDensity rows c)
  end /\
  (m <> transactions \/ column selections m <> Some "" ->
   column (detectMetricColumns rows headers) m = column selections m) /\
  (m = transactions -> column selections m = Some "" ->
   column (detectMetricColumns rows headers) m
   = match find (dense rows) (delete "" available) with
     | Some h => Some h
     | None => Some ""
     end).
Proof.
  intros Hsplit. cbv zeta.
  assert (Hnd : NoDup (map fst (before ++ (m, hints) :: after))).
  { rewrite <- Hsplit, metricHints_keys. exact allMetrics_NoDup. }
  rewrite map_app in Hnd. cbn [map fst] in Hnd.
  pose proof (NoDup_remove_1 _ _ _ Hnd) as Hnd1.
  pose proof (NoDup_remove_2 _ _ _ Hnd) as Hnd2.
  assert (Hnb : NoDup (map fst before)).
  { apply NoDup_app_remove_r in Hnd1. exact Hnd1. }
  assert (Hma : ~ In m (map fst after)).
  { intros H. apply Hnd2. apply in_or_app. right. exact H. }
  assert (Hlater : forall m', In m' (map fst before) ->
            column (snd (scoredColumns rows headers)) m'
            = column (snd (loop rows before (setOf headers, noColumns))) m').
  { intros m' Hm'. unfold scoredColumns. fold (loop rows metricHints (setOf headers, noColumns)).
    rewrite Hsplit, loop_app.
    destruct (loop rows before (setOf headers, noColumns)) as [av sel].
    apply loop_frame. cbn [map fst In]. intros [<- | H].
    - apply Hnd2. apply in_or_app. left. exact Hm'.
    - exact (NoDup_app_both _ _ _ Hnd1 Hm' H). }
  split; [| split; [| split]].
  - intros h. rewrite loop_pool; [| exact Hnb | intros m0 _; destruct m0; reflexivity].
    rewrite in_setOf. split; intros [Hin Hall]; (split; [exact Hin |]);
      intros m' Hm'; specialize (Hall m' Hm').
    + rewrite Hlater by exact Hm'. exact Hall.
    + rewrite Hlater in Hall by exact Hm'. exact Hall.
  - unfold scoredColumns. fold (loop rows metricHints (setOf headers, noColumns)).
    rewrite Hsplit, loop_at by exact Hma.
    pose proof (bestColumn_scanned rows hints
                  (fst (loop rows before (setOf headers, noColumns)))) as Hsc.
    destruct (bestColumn rows hints _) as [b |]; cbn [scanned] in Hsc.
    + destruct Hsc as (Hin & Hc & Hs & Hmax). rewrite <- Hs.
      split; [exact Hin |]. split; [exact Hc |]. split; [exact Hmax |].
      intros Hk h Hh He Hp.
      specialize (Hmax h Hh (conj He (or_introl Hp))).
      rewrite Hs in Hmax. unfold weightedScore in Hmax.
      fold (hintCount hints h) in Hmax. fold (hintCount hints (header b)) in Hmax.
      lia.
    + rewrite loop_frame.
      * replace (column noColumns m) with (@None string) by (destruct m; reflexivity).
        apply firstEligible_none. exact Hsc.
      * intros H. apply Hnd2. apply in_or_app. left. exact H.
  - intros Hm. apply detectMetricColumns_column. intros ->.
    destruct Hm as [Hm | Hm]; [contradiction Hm; reflexivity | exact Hm].
  - intros -> Hc. destruct (transactions_last before hints after Hsplit) as (-> & _ & _).
    apply detectMetricColumns_empty_name. exact Hc.
Qed.

End MetricSelection.

Lemma detectMetricColumns_best_competing_witness :
  column (detectMetricColumns scenarioA (keys (hd [] scenarioA))) gross
  = column (snd (scoredColumns scenarioA (keys (hd [] scenarioA)))) gross /\
  column (snd (scoredColumns indexedRows (keys (hd [] indexedRows)))) transactions = Some "" /\
  column (detectMetricColumns indexedRows (keys (hd [] indexedRows))) transactions
  = Some "Date".
Proof.
  split; [| split].
  - apply (proj1 (proj2 (proj2 (detectMetricColumns_best_competing
                                  scenarioA (keys (hd [] scenarioA)) [] gross
                                  ["gross"; "total sales"; "total gross"; "revenue"]
                                  (tl metricHints) eq_refl)))).
    left. discriminate.
  - vm_compute. reflexivity.
  - rewrite (proj2 (proj2 (proj2 (detectMetricColumns_best_competing
                                    indexedRows (keys (hd [] indexedRows))
                                    (removelast metricHints) transactions
                                    ["transactions"; "orders"; "receipts"; "count"]
                                    [] eq_refl))) eq_refl).
    + vm_compute. reflexivity.
    + vm_compute. reflexivity.
Defined.

(** The claim C1 as stated fails: for [gross], with nothing claimed yet,
    [Notes] is selected with score 1 although the eligible column
    [Amount] has score 2. *)
Lemma detectMetricColumns_not_maximal :
  let hints := ["gross"; "total sales"; "total gross"; "revenue"] in
  let headers := keys (hd [] notesRows) in
  In (gross, hints) metricHints /\
  column (detectMetricColumns notesRows headers) gross = Some "Notes" /\
  In "Amount" headers /\
  eligible notesRows "Amount" = true /\
  weightedScore notesRows hints "Notes" = 1 /\
  weightedScore notesRows hints "Amount" = 2.
Proof.
  cbv zeta. split; [left; reflexivity |].
  split; [vm_compute; reflexivity |].
  split; [right; left; reflexivity |].
  repeat split; vm_compute; reflexivity.
Qed.

(** *** No column for two metric keys *)

Section Distinct.

Variable rows : list RawRow.

(** The claimed columns are out of the pool and pairwise different. *)
Definition apart (st : list string * Columns) : Prop :=
  (forall m c, column (snd st) m = Some c -> ~ In c (fst st)) /\
  (forall m1 m2 c, column (snd st) m1 = Some c -> column (snd st) m2 = Some c -> m1 = m2).

Lemma apart_claim available selections m h :
  apart (available, selections) -> In h available ->
  apart (delete h available, setColumn m h selections).
Proof.
  intros [Ha Hb] Hin. split; cbn [fst snd] in *.
  - intros m' c Hc. rewrite in_delete.
    destruct (MetricKey_eq_dec m m') as [<- | Hne].
    + rewrite column_setColumn_same in Hc. injection Hc as <-. tauto.
    + rewrite column_setColumn_other in Hc by exact Hne.
      specialize (Ha m' c Hc). tauto.
  - intros m1 m2 c H1 H2.
    destruct (MetricKey_eq_dec m m1) as [<- | N1];
      destruct (MetricKey_eq_dec m m2) as [<- | N2]; try reflexivity.
    + rewrite column_setColumn_same in H1. injection H1 as <-.
      rewrite column_setColumn_other in H2 by exact N2.
      exfalso. exact (Ha m2 h H2 Hin).
    + rewrite column_setColumn_same in H2. injection H2 as <-.
      rewrite column_setColumn_other in H1 by exact N1.
      exfalso. exact (Ha m1 h H1 Hin).
    + rewrite column_setColumn_other in H1 by exact N1.
      rewrite column_setColumn_other in H2 by exact N2.
      exact (Hb m1 m2 c H1 H2).
Qed.

Lemma apart_loop entries st : apart st -> apart (loop rows entries st).
Proof.
  revert st. induction entries as [| [m hints] es IH]; intros [av sel] H; [exact H |].
  unfold loop. cbn [fold_left]. rewrite metricStep_eq.
  pose proof (bestColumn_scanned rows hints av) as Hsc.
  destruct (bestColumn rows hints av) as [b |]; cbn [scanned] in Hsc.
  - apply IH. apply apart_claim; [exact H | tauto].
  - apply IH. exact H.
Qed.

Lemma apart_detectMetricColumns headers m1 m2 c :
  column (detectMetricColumns rows headers) m1 = Some c ->
  column (detectMetricColumns rows headers) m2 = Some c ->
  m1 = m2.
Proof.
  assert (H : apart (scoredColumns rows headers)).
  { apply (apart_loop metricHints). split; cbn [fst snd].
    - intros m c' Hc. destruct m; discriminate Hc.
    - intros m1' m2' c' Hc. destruct m1'; discriminate Hc. }
  unfold detectMetricColumns.
  destruct (scoredColumns rows headers) as [av sel].
  destruct (negb (Js.truthy (colTransactions sel))); [| apply H].
  destruct (find (dense rows) av) as [h |] eqn:Ef; [| apply H].
  apply find_some in Ef. destruct Ef as [Hin _].
  pose proof (apart_claim av sel transactions h H Hin) as [_ K].
  apply K.
Qed.

End Distinct.

(** ** The fall-back for [transactions] *)

Section Fallback.

Variable rows : list RawRow.
Variable headers : list string.

(** The pool and the claimed columns stay among the headers. *)
Definition within (st : list string * Columns) : Prop :=
  (forall h, In h (fst st) -> In h headers) /\
  (forall m c, column (snd st) m = Some c -> In c headers).

Lemma within_loop entries st : within st -> within (loop rows entries st).
Proof.
  revert st. induction entries as [| [m hints] es IH]; intros [av sel] H; [exact H |].
  unfold loop. cbn [fold_left]. rewrite metricStep_eq.
  pose proof (bestColumn_scanned rows hints av) as Hsc.
  destruct (bestColumn rows hints av) as [b |]; cbn [scanned] in Hsc; [| apply IH; exact H].
  apply IH. destruct H as [Ha Hb]. cbn [fst snd] in *. split; cbn [fst snd].
  - intros h Hh. apply in_delete in Hh. apply Ha. tauto.
  - intros m' c Hc. destruct (MetricKey_eq_dec m m') as [<- | N].
    + rewrite column_setColumn_same in Hc. injection Hc as <-. apply Ha. tauto.
    + rewrite column_setColumn_other in Hc by exact N. exact (Hb m' c Hc).
Qed.

Lemma scoredColumns_within : within (scoredColumns rows headers).
Proof.
  apply (within_loop metricHints). split; cbn [fst snd].
  - intros h Hh. apply in_setOf. exact Hh.
  - intros m c Hc. destruct m; discriminate Hc.
Qed.

(** Every selected column is one of the headers. *)
Lemma detectMetricColumns_within m c :
  column (detectMetricColumns rows headers) m = Some c -> In c headers.
Proof.
  pose proof scoredColumns_within as H. unfold detectMetricColumns.
  destruct (scoredColumns rows headers) as [av sel]. destruct H as [Ha Hb].
  cbn [fst snd] in *.
  destruct (negb (Js.truthy (colTransactions sel))); [| apply Hb].
  destruct (find (dense rows) av) as [h |] eqn:Ef; [| apply Hb].
  apply find_some in Ef. destruct Ef as [Hin _].
  destruct (MetricKey_eq_dec transactions m) as [<- | N].
  - rewrite column_setColumn_same. intros E. injection E as <-. exact (Ha h Hin).
  - rewrite column_setColumn_other by exact N. apply Hb.
Qed.

End Fallback.

(** When no header is the empty string, the scan that follows the scored
    loop in [detectMetricColumns] ("if transactions is still missing, grab
    any remaining numeric column") never selects anything: the result is
    the selection of the scored loop.  When the loop leaves [transactions]
    without a column, no column that is left has a numeric-looking cell. *)
Theorem transactions_fallback_inert (rows : list RawRow) (headers : list string) :
  ~ In "" headers ->
  forall m, column (detectMetricColumns rows headers) m
            = column (snd (scoredColumns rows headers)) m.
Proof.
  intros Hne m. apply detectMetricColumns_column. intros _ E.
  apply Hne. exact (proj2 (scoredColumns_within rows headers) m "" E).
Qed.

Lemma transactions_fallback_inert_witness :
  column (detectMetricColumns notesRows (keys (hd [] notesRows))) transactions
  = column (snd (scoredColumns notesRows (keys (hd [] notesRows)))) transactions.
Proof.
  apply (transactions_fallback_inert notesRows (keys (hd [] notesRows))).
  intros [E | [E | []]]; discriminate E.
Defined.

(** ** The calendar *)

Section Calendar.

Import Date.

Lemma DayFromYear_length y :
  DayFromYear (y + 1) = DayFromYear y + daysBefore (isLeap y) 13.
Proof.
  unfold DayFromYear, isLeap, daysBefore.
  destruct (Z.eqb_spec (y mod 4) 0), (Z.eqb_spec (y mod 100) 0),
    (Z.eqb_spec (y mod 400) 0); cbn [negb andb orb];
    Z.div_mod_to_equations; lia.
Qed.

Lemma DayFromYear_mono y1 y2 : y1 <= y2 -> DayFromYear y1 <= DayFromYear y2.
Proof. unfold DayFromYear. intros H. Z.div_mod_to_equations. lia. Qed.

Lemma DayFromYear_next y1 y2 : y1 < y2 -> DayFromYear (y1 + 1) <= DayFromYear y2.
Proof. intros H. apply DayFromYear_mono. lia. Qed.

Lemma YearFromDay_estimate d :
  let y := 1970 + (400 * d) / 146097 in
  DayFromYear (y - 1) <= d < DayFromYear (y + 2).
Proof. cbv zeta. unfold DayFromYear. Z.div_mod_to_equations. lia. Qed.

(** [YearFromDay d] is the year that holds day [d]. *)
Lemma YearFromDay_spec d :
  DayFromYear (YearFromDay d) <= d < DayFromYear (YearFromDay d + 1).
Proof.
  pose proof (YearFromDay_estimate d) as H. cbv zeta in H. unfold YearFromDay.
  set (y := 1970 + 400 * d / 146097) in *.
  destruct (Z.ltb_spec d (DayFromYear y)) as [L | L].
  - replace (y - 1 + 1) with y by lia. lia.
  - destruct (Z.leb_spec (DayFromYear (y + 1)) d) as [L' | L'].
    + replace (y + 1 + 1) with (y + 2) by lia. lia.
    + lia.
Qed.

Lemma YearFromDay_unique d y :
  DayFromYear y <= d < DayFromYear (y + 1) -> YearFromDay d = y.
Proof.
  intros H. pose proof (YearFromDay_spec d) as K.
  destruct (Z.lt_trichotomy (YearFromDay d) y) as [L | [E | L]]; [| exact E |].
  - pose proof (DayFromYear_next _ _ L). lia.
  - pose proof (DayFromYear_next _ _ L). lia.
Qed.

Lemma YearFromDay_mono d1 d2 : d1 <= d2 -> YearFromDay d1 <= YearFromDay d2.
Proof.
  intros H. pose proof (YearFromDay_spec d1) as K1. pose proof (YearFromDay_spec d2) as K2.
  destruct (Z.le_gt_cases (YearFromDay d1) (YearFromDay d2)) as [L | L]; [exact L |].
  pose proof (DayFromYear_next _ _ L). lia.
Qed.

Lemma monthOf_spec leap diy :
  0 <= diy < daysBefore leap 13 ->
  1 <= monthOf leap diy <= 12 /\
  daysBefore leap (monthOf leap diy) <= diy < daysBefore leap (monthOf leap diy + 1).
Proof.
  intros H. unfold monthOf.
  repeat match goal with
         | |- context [if ?a <? ?b then _ else _] => destruct (Z.ltb_spec a b)
         end;
    destruct leap; cbn in *; lia.
Qed.

Lemma daysBefore_mono leap m1 m2 :
  1 <= m1 -> m1 < m2 -> m2 <= 13 -> daysBefore leap m1 < daysBefore leap m2.
Proof.
  intros H1 H2 H3.
  assert (C1 : m1 = 1 \/ m1 = 2 \/ m1 = 3 \/ m1 = 4 \/ m1 = 5 \/ m1 = 6 \/ m1 = 7 \/
               m1 = 8 \/ m1 = 9 \/ m1 = 10 \/ m1 = 11 \/ m1 = 12) by lia.
  assert (C2 : m2 = 2 \/ m2 = 3 \/ m2 = 4 \/ m2 = 5 \/ m2 = 6 \/ m2 = 7 \/
               m2 = 8 \/ m2 = 9 \/ m2 = 10 \/ m2 = 11 \/ m2 = 12 \/ m2 = 13) by lia.
  destruct leap;
    repeat (destruct C1 as [-> | C1]); try subst m1;
    repeat (destruct C2 as [-> | C2]); try subst m2; cbn; lia.
Qed.

(** The civil date of a day is a date of the calendar, and [dayOfCivil]
    gives the day back. *)
Lemma civil_valid d :
  let '(y, m, dt) := civil d in
  1 <= m <= 12 /\ 1 <= dt <= daysInMonth y m /\ dayOfCivil y m dt = d.
Proof.
  unfold civil, daysInMonth, dayOfCivil.
  pose proof (YearFromDay_spec d) as Hy. rewrite DayFromYear_length in Hy.
  set (y := YearFromDay d) in *.
  pose proof (monthOf_spec (isLeap y) (d - DayFromYear y)) as Hm.
  lia.
Qed.

(** Later days have later civil dates, in the order of year, month, day. *)
Lemma civil_mono d1 d2 :
  d1 < d2 ->
  let '(y1, m1, t1) := civil d1 in
  let '(y2, m2, t2) := civil d2 in
  y1 < y2 \/ (y1 = y2 /\ (m1 < m2 \/ (m1 = m2 /\ t1 < t2))).
Proof.
  intros H. unfold civil.
  pose proof (YearFromDay_mono d1 d2 (Z.lt_le_incl _ _ H)) as Hy.
  pose proof (YearFromDay_spec d1) as K1. pose proof (YearFromDay_spec d2) as K2.
  rewrite DayFromYear_length in K1, K2.
  destruct (Z.eq_dec (YearFromDay d1) (YearFromDay d2)) as [E | N]; [| left; lia].
  right. split; [exact E |]. rewrite <- E in *.
  set (y := YearFromDay d1) in *.
  pose proof (monthOf_spec (isLeap y) (d1 - DayFromYear y)) as M1.
  pose proof (monthOf_spec (isLeap y) (d2 - DayFromYear y)) as M2.
  set (m1 := monthOf (isLeap y) (d1 - DayFromYear y)) in *.
  set (m2 := monthOf (isLeap y) (d2 - DayFromYear y)) in *.
  destruct (Z.lt_trichotomy m1 m2) as [L | [Em | L]].
  - left. exact L.
  - right. split; [exact Em |]. rewrite Em. lia.
  - exfalso.
    assert (daysBefore (isLeap y) (m2 + 1) <= daysBefore (isLeap y) m1).
    { destruct (Z.eq_dec (m2 + 1) m1) as [<- | Nm]; [lia |].
      apply Z.lt_le_incl. apply daysBefore_mono; lia. }
    lia.
Qed.

End Calendar.

(** ** Decimal fields *)

Section Digits.

Import Date.

Lemma code_digitChar z : 0 <= z <= 9 -> Js.code (digitChar z) = 48 + z.
Proof.
  intros H. unfold Js.code, digitChar.
  assert (B : (Z.to_N (48 + z) < 256)%N).
  { apply N2Z.inj_lt. rewrite Z2N.id by lia. change (Z.of_N 256) with 256. lia. }
  rewrite (N_ascii_embedding _ B). rewrite Z2N.id; lia.
Qed.

Lemma isDigit_digitChar z : 0 <= z <= 9 -> Js.isDigit (digitChar z) = true.
Proof.
  intros H. unfold Js.isDigit. rewrite code_digitChar by exact H.
  apply andb_true_iff. split; apply Z.leb_le; lia.
Qed.

Lemma digitVal_digitChar z : 0 <= z <= 9 -> Js.digitVal (digitChar z) = z.
Proof. intros H. unfold Js.digitVal. rewrite code_digitChar by exact H. lia. Qed.

Lemma pow10_succ n : 10 ^ Z.of_nat (S n) = 10 * 10 ^ Z.of_nat n.
Proof. rewrite Nat2Z.inj_succ, Z.pow_succ_r by lia. reflexivity. Qed.

Lemma pow10_pos n : 0 < 10 ^ Z.of_nat n.
Proof. apply Z.pow_pos_nonneg; lia. Qed.

(** The leading digit and the rest of a number below [10^(n+1)]. *)
Lemma lead_digit n k :
  0 <= k < 10 ^ Z.of_nat (S n) ->
  0 <= k / 10 ^ Z.of_nat n <= 9 /\
  0 <= k mod 10 ^ Z.of_nat n < 10 ^ Z.of_nat n /\
  k = (k / 10 ^ Z.of_nat n) * 10 ^ Z.of_nat n + k mod 10 ^ Z.of_nat n.
Proof.
  rewrite pow10_succ. pose proof (pow10_pos n) as Hp. intros H.
  pose proof (Z.div_mod k (10 ^ Z.of_nat n) ltac:(lia)) as E.
  pose proof (Z.mod_pos_bound k (10 ^ Z.of_nat n) Hp) as B.
  assert (0 <= k / 10 ^ Z.of_nat n) by (apply Z.div_pos; lia).
  assert (k / 10 ^ Z.of_nat n < 10) by (apply Z.div_lt_upper_bound; lia).
  lia.
Qed.

(** Reading back a field written by [pad]. *)
Lemma digitsN_pad n acc k r :
  0 <= k < 10 ^ Z.of_nat n ->
  digitsN n acc (pad n k ++ r) = Some (acc * 10 ^ Z.of_nat n + k, r).
Proof.
  revert acc k. induction n as [| n IH]; intros acc k H.
  - cbn in *. f_equal. f_equal. lia.
  - destruct (lead_digit n k H) as (Hd & Hr & E).
    cbn [pad app digitsN]. rewrite isDigit_digitChar by exact Hd.
    rewrite digitVal_digitChar by exact Hd. rewrite IH by exact Hr.
    f_equal. f_equal. rewrite pow10_succ. lia.
Qed.

Lemma compare_str a b : Js.localeCompare (Js.str a) (Js.str b) = Js.collate a b.
Proof.
  unfold Js.localeCompare, Js.chars, Js.str.
  rewrite !list_ascii_of_string_of_list_ascii. reflexivity.
Qed.

Lemma rank_digitChar x : 0 <= x <= 9 -> Js.collationRank (digitChar x) = 50 + x.
Proof.
  intros Hx. pose proof (code_digitChar x Hx) as E. unfold Js.collationRank.
  destruct (Ascii.eqb_spec (digitChar x) "-") as [K | _];
    [rewrite K in E; change (Js.code "-") with 45 in E; lia |].
  destruct (Ascii.eqb_spec (digitChar x) "+") as [K | _];
    [rewrite K in E; change (Js.code "+") with 43 in E; lia |].
  lia.
Qed.

Lemma compare_digitChar x y :
  0 <= x <= 9 -> 0 <= y <= 9 ->
  (Js.collationRank (digitChar x) ?= Js.collationRank (digitChar y)) = (x ?= y).
Proof.
  intros Hx Hy. rewrite !rank_digitChar by assumption.
  destruct (Z.compare_spec x y), (Z.compare_spec (50 + x) (50 + y)); try reflexivity; lia.
Qed.

(** Fields of the same width compare as the numbers they hold. *)
Lemma compare_pad n a b r1 r2 :
  0 <= a < 10 ^ Z.of_nat n -> 0 <= b < 10 ^ Z.of_nat n ->
  Js.collate (pad n a ++ r1) (pad n b ++ r2)
  = match a ?= b with
    | Eq => Js.collate r1 r2
    | c => c
    end.
Proof.
  revert a b. induction n as [| n IH]; intros a b Ha Hb.
  - cbn in Ha, Hb. assert (a = 0) by lia. assert (b = 0) by lia. subst. reflexivity.
  - destruct (lead_digit n a Ha) as (Hda & Hra & Ea).
    destruct (lead_digit n b Hb) as (Hdb & Hrb & Eb).
    cbn [pad app Js.collate]. rewrite compare_digitChar by assumption.
    rewrite IH by assumption.
    set (P := 10 ^ Z.of_nat n) in *. pose proof (pow10_pos n) as HP. fold P in HP.
    set (xa := a / P) in *. set (xb := b / P) in *.
    set (ra := a mod P) in *. set (rb := b mod P) in *.
    destruct (Z.compare_spec xa xb) as [E | L | L].
    + assert (Eab : (a ?= b) = (ra ?= rb)).
      { destruct (Z.compare_spec a b), (Z.compare_spec ra rb); try reflexivity; nia. }
      rewrite Eab. reflexivity.
    + assert (a < b) by nia. rewrite (proj2 (Z.compare_lt_iff a b)); auto.
    + assert (b < a) by nia. rewrite (proj2 (Z.compare_gt_iff a b)); auto.
Qed.

Lemma pad_isDigit n k :
  0 <= k < 10 ^ Z.of_nat n -> forall c, In c (pad n k) -> Js.isDigit c = true.
Proof.
  revert k. induction n as [| n IH]; intros k Hk c Hc; [contradiction Hc |].
  destruct (lead_digit n k Hk) as (L & R & _). cbn [pad In] in Hc.
  destruct Hc as [<- | Hc]; [| exact (IH _ R c Hc)].
  apply isDigit_digitChar. exact L.
Qed.

End Digits.

(** ** ISO days *)

(** [YYYY-MM-DD]. *)
Definition isoDate (y m dt : Z) : list ascii :=
  Date.pad 4 y ++ "-"%char :: Date.pad 2 m ++ "-"%char :: Date.pad 2 dt.

(** A date string that starts with a digit: the ten-character prefix of
    [toISOString] for a year from 0000 to 9999, where it is the whole date
    [YYYY-MM-DD]. *)
Definition plainDate (s : string) : bool :=
  match s with
  | String c _ => Js.isDigit c
  | EmptyString => false
  end.

Section IsoDay.

Import Date.

Lemma chars_str l : Js.chars (Js.str l) = l.
Proof. apply list_ascii_of_string_of_list_ascii. Qed.

Lemma isoDay_plain t :
  let '(y, m, dt) := civil (t / msPerDay) in
  0 <= y <= 9999 -> isoDay t = Js.str (isoDate y m dt).
Proof.
  unfold isoDay, toISOString. destruct (civil (t / msPerDay)) as [[y m] dt].
  intros Hy. unfold yearChars.
  replace ((0 <=? y) && (y <=? 9999)) with true
    by (symmetry; apply andb_true_iff; split; apply Z.leb_le; lia).
  unfold Js.slice0. rewrite chars_str. reflexivity.
Qed.

Lemma isoDay_signed t :
  let '(y, _, _) := civil (t / msPerDay) in
  ~ 0 <= y <= 9999 -> plainDate (isoDay t) = false.
Proof.
  unfold isoDay, toISOString. destruct (civil (t / msPerDay)) as [[y m] dt].
  intros Hy. unfold yearChars.
  replace ((0 <=? y) && (y <=? 9999)) with false.
  - unfold Js.slice0. rewrite chars_str. destruct (y <? 0); reflexivity.
  - symmetry. apply andb_false_iff.
    destruct (Z.leb_spec 0 y); [right; apply Z.leb_gt; lia | left; reflexivity].
Qed.

Lemma isoDay_nonempty t : isoDay t <> "".
Proof.
  unfold isoDay, toISOString. destruct (civil (t / msPerDay)) as [[y m] dt].
  unfold yearChars, Js.slice0. rewrite chars_str.
  destruct ((0 <=? y) && (y <=? 9999)); [| destruct (y <? 0)]; discriminate.
Qed.

Lemma digitChar_not_sign z c :
  0 <= z <= 9 -> Js.isDigit c = false -> Ascii.eqb (digitChar z) c = false.
Proof.
  intros Hz Hc. destruct (Ascii.eqb_spec (digitChar z) c) as [<- | N]; [| reflexivity].
  rewrite isDigit_digitChar in Hc by exact Hz. discriminate Hc.
Qed.

Lemma plain_range y m dt :
  0 <= y <= 9999 -> 1 <= m <= 12 -> 1 <= dt <= daysInMonth y m ->
  0 <= y < 10 ^ Z.of_nat 4 /\ 0 <= m < 10 ^ Z.of_nat 2 /\ 0 <= dt < 10 ^ Z.of_nat 2.
Proof.
  intros Hy Hm Hd. change (10 ^ Z.of_nat 4) with 10000. change (10 ^ Z.of_nat 2) with 100.
  assert (daysInMonth y m <= 31).
  { unfold daysInMonth.
    assert (C : m = 1 \/ m = 2 \/ m = 3 \/ m = 4 \/ m = 5 \/ m = 6 \/ m = 7 \/
                m = 8 \/ m = 9 \/ m = 10 \/ m = 11 \/ m = 12) by lia.
    destruct (isLeap y); repeat (destruct C as [-> | C]); try subst m; cbn; lia. }
  lia.
Qed.

(** [Date.parse] reads a plain ISO date as UTC midnight of that day,
    whatever the host. *)
Lemma parseISODate_isoDate y m dt :
  0 <= y <= 9999 -> 1 <= m <= 12 -> 1 <= dt <= daysInMonth y m ->
  parseISODate (Js.str (isoDate y m dt)) = Some (dayOfCivil y m dt * msPerDay).
Proof.
  intros Hy Hm Hd. destruct (plain_range y m dt Hy Hm Hd) as (Ry & Rm & Rd).
  unfold parseISODate. rewrite chars_str. unfold isoYear.
  destruct (lead_digit 3 y Ry) as (L & _ & _).
  unfold isoDate at 1. cbn [pad app].
  rewrite !(digitChar_not_sign _ _ L) by reflexivity.
  change (digitChar (y / 10 ^ Z.of_nat 3) :: pad 3 (y mod 10 ^ Z.of_nat 3)
          ++ "-"%char :: pad 2 m ++ "-"%char :: pad 2 dt)
    with (pad 4 y ++ "-"%char :: pad 2 m ++ "-"%char :: pad 2 dt).
  unfold isoDate.
  rewrite digitsN_pad by exact Ry. cbn [field2]. cbn [Ascii.eqb Bool.eqb].
  rewrite digitsN_pad by exact Rm.
  replace ((1 <=? 0 * 10 ^ Z.of_nat 2 + m) && (0 * 10 ^ Z.of_nat 2 + m <=? 12)) with true
    by (symmetry; apply andb_true_iff; split; apply Z.leb_le; lia).
  cbn [field2 Ascii.eqb Bool.eqb].
  rewrite <- (app_nil_r (pad 2 dt)). rewrite digitsN_pad by exact Rd.
  replace (0 * 10 ^ Z.of_nat 4 + y) with y by lia.
  replace (0 * 10 ^ Z.of_nat 2 + m) with m by lia.
  replace (0 * 10 ^ Z.of_nat 2 + dt) with dt by lia.
  replace ((1 <=? dt) && (dt <=? daysInMonth y m)) with true
    by (symmetry; apply andb_true_iff; split; apply Z.leb_le; lia).
  reflexivity.
Qed.

End IsoDay.

Section IsoOrder.

Import Date.

Lemma plain_year t :
  plainDate (isoDay t) = true -> 0 <= fst (fst (civil (t / msPerDay))) <= 9999.
Proof.
  intros H. pose proof (isoDay_signed t) as K.
  destruct (civil (t / msPerDay)) as [[y m] dt]. cbn [fst].
  destruct (Z_le_dec 0 y); [destruct (Z_le_dec y 9999); [lia |] |];
    rewrite K in H by lia; discriminate H.
Qed.

Lemma plain_day_bounds d :
  0 <= fst (fst (civil d)) <= 9999 -> -719528 <= d < 2932897.
Proof.
  unfold civil. cbn [fst]. intros H. pose proof (YearFromDay_spec d) as K.
  pose proof (DayFromYear_mono 0 (YearFromDay d) ltac:(lia)) as L.
  pose proof (DayFromYear_mono (YearFromDay d + 1) 10000 ltac:(lia)) as U.
  change (DayFromYear 0) with (-719528) in L.
  change (DayFromYear 10000) with 2932897 in U. lia.
Qed.

(** Reading a plain day back gives UTC midnight of the same day. *)
Lemma parse_isoDay legacy t :
  plainDate (isoDay t) = true ->
  Date.parse legacy (isoDay t) = Some (t / msPerDay * msPerDay).
Proof.
  intros H. pose proof (plain_year t H) as Hy.
  pose proof (plain_day_bounds _ Hy) as Hb.
  pose proof (isoDay_plain t) as E. pose proof (civil_valid (t / msPerDay)) as V.
  destruct (civil (t / msPerDay)) as [[y m] dt]. cbn [fst] in Hy.
  destruct V as (Vm & Vd & Vc). rewrite (E Hy).
  unfold Date.parse. rewrite parseISODate_isoDate by assumption.
  rewrite Vc. unfold timeClip, maxTime, msPerDay in *.
  destruct (Z.leb_spec (Z.abs (t / 86400000 * 86400000)) 8640000000000000);
    [reflexivity | lia].
Qed.

Lemma compare_isoDate y1 m1 t1 y2 m2 t2 :
  0 <= y1 < 10 ^ Z.of_nat 4 -> 0 <= m1 < 10 ^ Z.of_nat 2 -> 0 <= t1 < 10 ^ Z.of_nat 2 ->
  0 <= y2 < 10 ^ Z.of_nat 4 -> 0 <= m2 < 10 ^ Z.of_nat 2 -> 0 <= t2 < 10 ^ Z.of_nat 2 ->
  Js.collate (isoDate y1 m1 t1) (isoDate y2 m2 t2)
  = match y1 ?= y2 with
    | Eq => match m1 ?= m2 with
            | Eq => t1 ?= t2
            | c => c
            end
    | c => c
    end.
Proof.
  intros. unfold isoDate. rewrite compare_pad by assumption.
  destruct (y1 ?= y2); try reflexivity.
  cbn [Js.collate]. change (Js.collationRank "-" ?= Js.collationRank "-") with Eq. cbv iota.
  rewrite compare_pad by assumption.
  destruct (m1 ?= m2); try reflexivity.
  cbn [Js.collate]. change (Js.collationRank "-" ?= Js.collationRank "-") with Eq. cbv iota.
  rewrite <- (app_nil_r (pad 2 t1)), <- (app_nil_r (pad 2 t2)).
  rewrite compare_pad by assumption.
  destruct (t1 ?= t2); reflexivity.
Qed.

Lemma collate_refl l : Js.collate l l = Eq.
Proof.
  induction l as [| x l IH]; [reflexivity |]. cbn [Js.collate].
  rewrite Z.compare_refl. exact IH.
Qed.

(** On plain days the order of the strings is the order of the days. *)
Lemma compare_isoDay t1 t2 :
  plainDate (isoDay t1) = true -> plainDate (isoDay t2) = true ->
  Js.localeCompare (isoDay t1) (isoDay t2) = (t1 / msPerDay ?= t2 / msPerDay).
Proof.
  intros H1 H2.
  pose proof (plain_year t1 H1) as Y1. pose proof (plain_year t2 H2) as Y2.
  pose proof (isoDay_plain t1) as E1. pose proof (isoDay_plain t2) as E2.
  destruct (Z.compare_spec (t1 / msPerDay) (t2 / msPerDay)) as [E | L | L].
  - rewrite E in E1, Y1. destruct (civil (t2 / msPerDay)) as [[y m] d].
    rewrite (E1 Y1), (E2 Y2), compare_str. apply collate_refl.
  - pose proof (civil_valid (t1 / msPerDay)) as V1.
    pose proof (civil_valid (t2 / msPerDay)) as V2.
    pose proof (civil_mono (t1 / msPerDay) (t2 / msPerDay) L) as M.
    destruct (civil (t1 / msPerDay)) as [[y1 m1] d1].
    destruct (civil (t2 / msPerDay)) as [[y2 m2] d2]. cbn [fst] in Y1, Y2.
    destruct V1 as (Vm1 & Vd1 & Vc1). destruct V2 as (Vm2 & Vd2 & Vc2).
    destruct (plain_range y1 m1 d1 Y1 Vm1 Vd1) as (? & ? & ?).
    destruct (plain_range y2 m2 d2 Y2 Vm2 Vd2) as (? & ? & ?).
    rewrite (E1 Y1), (E2 Y2), compare_str, compare_isoDate by assumption.
    destruct M as [Ly | [-> [Lm | [-> Ld]]]].
    + rewrite (proj2 (Z.compare_lt_iff _ _) Ly). reflexivity.
    + rewrite Z.compare_refl, (proj2 (Z.compare_lt_iff _ _) Lm). reflexivity.
    + rewrite !Z.compare_refl, (proj2 (Z.compare_lt_iff _ _) Ld). reflexivity.
  - pose proof (civil_valid (t1 / msPerDay)) as V1.
    pose proof (civil_valid (t2 / msPerDay)) as V2.
    pose proof (civil_mono (t2 / msPerDay) (t1 / msPerDay) L) as M.
    destruct (civil (t1 / msPerDay)) as [[y1 m1] d1].
    destruct (civil (t2 / msPerDay)) as [[y2 m2] d2]. cbn [fst] in Y1, Y2.
    destruct V1 as (Vm1 & Vd1 & Vc1). destruct V2 as (Vm2 & Vd2 & Vc2).
    destruct (plain_range y1 m1 d1 Y1 Vm1 Vd1) as (? & ? & ?).
    destruct (plain_range y2 m2 d2 Y2 Vm2 Vd2) as (? & ? & ?).
    rewrite (E1 Y1), (E2 Y2), compare_str, compare_isoDate by assumption.
    destruct M as [Ly | [<- [Lm | [<- Ld]]]].
    + rewrite (proj2 (Z.compare_gt_iff _ _) Ly). reflexivity.
    + rewrite Z.compare_refl, (proj2 (Z.compare_gt_iff _ _) Lm). reflexivity.
    + rewrite !Z.compare_refl, (proj2 (Z.compare_gt_iff _ _) Ld). reflexivity.
Qed.

(** The characters of a plain date: the digits and the hyphen. *)
Definition isPlainChar (c : ascii) : bool := Js.isDigit c || Ascii.eqb c "-".

(** On them the collation and the code units give the same order. *)
Lemma rank_plain x y :
  isPlainChar x = true -> isPlainChar y = true ->
  (Js.collationRank x ?= Js.collationRank y) = Ascii.compare x y.
Proof.
  unfold isPlainChar, Js.isDigit, Js.collationRank, Ascii.compare.
  rewrite <- (N2Z.inj_compare (N_of_ascii x) (N_of_ascii y)).
  fold (Js.code x). fold (Js.code y). intros Hx Hy.
  destruct (Ascii.eqb_spec x "-") as [X | _], (Ascii.eqb_spec y "-") as [Y | _];
    try (rewrite X in *; change (Js.code "-") with 45 in *);
    try (rewrite Y in *; change (Js.code "-") with 45 in *).
  - reflexivity.
  - rewrite orb_false_r in Hy. apply andb_true_iff in Hy. destruct Hy as [L U].
    apply Z.leb_le in L, U.
    destruct (Ascii.eqb_spec y "+") as [K | _];
      [rewrite K in L; change (Js.code "+") with 43 in L; lia |].
    destruct (Z.compare_spec 0 (2 + Js.code y)), (Z.compare_spec 45 (Js.code y));
      try reflexivity; lia.
  - rewrite orb_false_r in Hx. apply andb_true_iff in Hx. destruct Hx as [L U].
    apply Z.leb_le in L, U.
    destruct (Ascii.eqb_spec x "+") as [K | _];
      [rewrite K in L; change (Js.code "+") with 43 in L; lia |].
    destruct (Z.compare_spec (2 + Js.code x) 0), (Z.compare_spec (Js.code x) 45);
      try reflexivity; lia.
  - rewrite orb_false_r in Hx, Hy. apply andb_true_iff in Hx, Hy.
    destruct Hx as [Lx Ux], Hy as [Ly Uy]. apply Z.leb_le in Lx, Ux, Ly, Uy.
    destruct (Ascii.eqb_spec x "+") as [K | _];
      [rewrite K in Lx; change (Js.code "+") with 43 in Lx; lia |].
    destruct (Ascii.eqb_spec y "+") as [K | _];
      [rewrite K in Ly; change (Js.code "+") with 43 in Ly; lia |].
    destruct (Z.compare_spec (2 + Js.code x) (2 + Js.code y)),
      (Z.compare_spec (Js.code x) (Js.code y)); try reflexivity; lia.
Qed.

Lemma collate_plain a b :
  Forall (fun c => isPlainChar c = true) a -> Forall (fun c => isPlainChar c = true) b ->
  Js.collate a b = String.compare (Js.str a) (Js.str b).
Proof.
  intros Ha. revert b. induction Ha as [| x a Hx Ha IH]; intros b Hb;
    destruct Hb as [| y b Hy Hb]; try reflexivity.
  cbn [Js.collate Js.str string_of_list_ascii String.compare].
  rewrite (rank_plain x y Hx Hy). fold (Js.str a). fold (Js.str b).
  rewrite (IH b Hb). reflexivity.
Qed.

Lemma isoDate_plain_chars y m dt :
  0 <= y < 10 ^ Z.of_nat 4 -> 0 <= m < 10 ^ Z.of_nat 2 -> 0 <= dt < 10 ^ Z.of_nat 2 ->
  Forall (fun c => isPlainChar c = true) (isoDate y m dt).
Proof.
  intros Hy Hm Hd. apply Forall_forall. intros c. unfold isoDate, isPlainChar.
  rewrite !in_app_iff. cbn [In]. rewrite !in_app_iff. cbn [In].
  intros [K | [<- | [K | [<- | K]]]]; try reflexivity;
    [rewrite (pad_isDigit 4 y Hy c K) | rewrite (pad_isDigit 2 m Hm c K)
     | rewrite (pad_isDigit 2 dt Hd c K)]; reflexivity.
Qed.

(** On plain days the collation of the host and the order of the code
    units agree. *)
Lemma localeCompare_plain t1 t2 :
  plainDate (isoDay t1) = true -> plainDate (isoDay t2) = true ->
  Js.localeCompare (isoDay t1) (isoDay t2) = String.compare (isoDay t1) (isoDay t2).
Proof.
  intros H1 H2.
  pose proof (plain_year t1 H1) as Y1. pose proof (plain_year t2 H2) as Y2.
  pose proof (isoDay_plain t1) as E1. pose proof (isoDay_plain t2) as E2.
  pose proof (civil_valid (t1 / msPerDay)) as V1.
  pose proof (civil_valid (t2 / msPerDay)) as V2.
  destruct (civil (t1 / msPerDay)) as [[y1 m1] d1].
  destruct (civil (t2 / msPerDay)) as [[y2 m2] d2]. cbn [fst] in Y1, Y2.
  destruct V1 as (Vm1 & Vd1 & _). destruct V2 as (Vm2 & Vd2 & _).
  destruct (plain_range y1 m1 d1 Y1 Vm1 Vd1) as (? & ? & ?).
  destruct (plain_range y2 m2 d2 Y2 Vm2 Vd2) as (? & ? & ?).
  rewrite (E1 Y1), (E2 Y2), compare_str.
  apply collate_plain; apply isoDate_plain_chars; assumption.
Qed.

End IsoOrder.

(** ** Valid time values and the standard format *)

Section ValidTimes.

Import Date.

Variable legacy : string -> option Z.

Lemma timeClip_Some t t' : timeClip t = Some t' -> t' = t /\ Z.abs t <= maxTime.
Proof.
  unfold timeClip. destruct (Z.leb_spec (Z.abs t) maxTime); [| discriminate].
  intros E. injection E as <-. auto.
Qed.

Lemma parse_clipped s t : Date.parse legacy s = Some t -> Z.abs t <= maxTime.
Proof.
  unfold Date.parse. destruct (parseISODate s) as [u |].
  - intros H. apply timeClip_Some in H. destruct H as [-> H]. exact H.
  - destruct (legacy s) as [u |]; [| discriminate].
    intros H. apply timeClip_Some in H. destruct H as [-> H]. exact H.
Qed.

(** A resolved date is the ISO day of a valid time value. *)
Lemma tryParseDate_valid raw k :
  tryParseDate legacy raw = Some k -> exists t, k = isoDay t /\ Z.abs t <= maxTime.
Proof.
  unfold tryParseDate. destruct raw as [raw |]; [| discriminate].
  destruct (String.eqb raw ""); [discriminate |].
  destruct (String.eqb (Js.trim raw) ""); [discriminate |].
  destruct (Date.parse legacy (Js.replaceChar "/" "-" (Js.trim raw))) as [t |] eqn:E1.
  - intros E. injection E as <-. exists t. split; [reflexivity |]. exact (parse_clipped _ _ E1).
  - destruct (Date.parse legacy (Js.beforeFirst isSpaceOrT (Js.trim raw))) as [t |] eqn:E2;
      [| discriminate].
    intros E. injection E as <-. exists t. split; [reflexivity |]. exact (parse_clipped _ _ E2).
Qed.

(** The years of the valid time values have at most six digits. *)
Lemma valid_year t :
  Z.abs t <= maxTime -> -271821 <= YearFromDay (t / msPerDay) <= 275760.
Proof.
  intros H. pose proof (YearFromDay_spec (t / msPerDay)) as K.
  assert (B : -100000000 <= t / msPerDay <= 100000000).
  { unfold maxTime, msPerDay in *. Z.div_mod_to_equations. lia. }
  split.
  - destruct (Z_le_dec (-271821) (YearFromDay (t / msPerDay))) as [L | L]; [exact L |].
    pose proof (DayFromYear_mono (YearFromDay (t / msPerDay) + 1) (-271821) ltac:(lia)) as M.
    change (DayFromYear (-271821)) with (-100000109) in M. lia.
  - destruct (Z_le_dec (YearFromDay (t / msPerDay)) 275760) as [L | L]; [exact L |].
    pose proof (DayFromYear_mono 275761 (YearFromDay (t / msPerDay)) ltac:(lia)) as M.
    change (DayFromYear 275761) with 100000110 in M. lia.
Qed.

(** The ten characters kept of a date with an expanded year: the sign, the
    six digits of the year and the month. *)
Lemma isoDay_expanded t :
  let '(y, m, _) := civil (t / msPerDay) in
  ~ 0 <= y <= 9999 ->
  isoDay t = Js.str ((if y <? 0 then "-"%char else "+"%char)
                       :: pad 6 (Z.abs y) ++ "-"%char :: pad 2 m).
Proof.
  unfold isoDay, toISOString. destruct (civil (t / msPerDay)) as [[y m] dt].
  intros Hy. unfold yearChars.
  replace ((0 <=? y) && (y <=? 9999)) with false.
  - unfold Js.slice0. rewrite chars_str. reflexivity.
  - symmetry. apply andb_false_iff.
    destruct (Z.leb_spec 0 y); [right; apply Z.leb_gt; lia | left; reflexivity].
Qed.

Lemma parseISODate_expanded y m :
  ~ 0 <= y <= 9999 -> Z.abs y < 10 ^ Z.of_nat 6 -> 1 <= m <= 12 ->
  parseISODate (Js.str ((if y <? 0 then "-"%char else "+"%char)
                          :: pad 6 (Z.abs y) ++ "-"%char :: pad 2 m))
  = Some (dayOfCivil y m 1 * msPerDay).
Proof.
  intros Hy Ha Hm. unfold parseISODate. rewrite chars_str. unfold isoYear.
  assert (Ra : 0 <= Z.abs y < 10 ^ Z.of_nat 6) by lia.
  assert (Rm : 0 <= m < 10 ^ Z.of_nat 2) by (change (10 ^ Z.of_nat 2) with 100; lia).
  destruct (Z.ltb_spec y 0) as [L | L].
  - cbn [Ascii.eqb Bool.eqb]. rewrite digitsN_pad by exact Ra.
    replace (0 * 10 ^ Z.of_nat 6 + Z.abs y =? 0) with false by (symmetry; apply Z.eqb_neq; lia).
    cbn [field2 Ascii.eqb Bool.eqb].
    rewrite <- (app_nil_r (pad 2 m)), digitsN_pad by exact Rm.
    replace ((1 <=? 0 * 10 ^ Z.of_nat 2 + m) && (0 * 10 ^ Z.of_nat 2 + m <=? 12)) with true
      by (symmetry; apply andb_true_iff; split; apply Z.leb_le; lia).
    do 3 f_equal; lia.
  - cbn [Ascii.eqb Bool.eqb]. rewrite digitsN_pad by exact Ra.
    cbn [field2 Ascii.eqb Bool.eqb].
    rewrite <- (app_nil_r (pad 2 m)), digitsN_pad by exact Rm.
    replace ((1 <=? 0 * 10 ^ Z.of_nat 2 + m) && (0 * 10 ^ Z.of_nat 2 + m <=? 12)) with true
      by (symmetry; apply andb_true_iff; split; apply Z.leb_le; lia).
    do 3 f_equal; lia.
Qed.

(** Every date that [tryParseDate] returns is in the standard format, and
    names UTC midnight of some day: when [new Date] reads it back, the
    host's own reading of other strings plays no part, and the time value,
    if it is in range, is a multiple of [msPerDay]. *)
Lemma parseISODate_resolved t :
  Z.abs t <= maxTime -> exists d, parseISODate (isoDay t) = Some (d * msPerDay).
Proof.
  intros Ht. pose proof (valid_year t Ht) as Hy. pose proof (isoDay_plain t) as Hp.
  pose proof (isoDay_expanded t) as He. pose proof (civil_valid (t / msPerDay)) as V.
  unfold civil in *.
  set (y := YearFromDay (t / msPerDay)) in *.
  set (m := monthOf (isLeap y) (t / msPerDay - DayFromYear y)) in *.
  set (dt := t / msPerDay - DayFromYear y - daysBefore (isLeap y) m + 1) in *.
  cbv beta iota zeta in Hp, He, V. destruct V as (Vm & Vd & Vc).
  destruct (Z_le_dec 0 y) as [L0 | L0]; [destruct (Z_le_dec y 9999) as [L1 | L1] |].
  - exists (dayOfCivil y m dt). rewrite Hp by lia.
    apply parseISODate_isoDate; [lia | exact Vm | exact Vd].
  - exists (dayOfCivil y m 1). rewrite He by lia.
    apply parseISODate_expanded; [lia | change (10 ^ Z.of_nat 6) with 1000000; lia | exact Vm].
  - exists (dayOfCivil y m 1). rewrite He by lia.
    apply parseISODate_expanded; [lia | change (10 ^ Z.of_nat 6) with 1000000; lia | exact Vm].
Qed.

End ValidTimes.

(** ** Resolved dates and the bucket *)

Section Bucket.

Variable legacy : string -> option Z.

Lemma tryParseDate_isoDay raw k :
  tryParseDate legacy raw = Some k -> exists t, k = isoDay t.
Proof.
  intros H. destruct (tryParseDate_valid legacy raw k H) as (t & E & _). eauto.
Qed.

(** A resolved date is never the empty string: testing the result of
    [tryParseDate] for truthiness is testing it for [null]. *)
Lemma tryParseDate_truthy raw :
  Js.truthy (tryParseDate legacy raw) = true <-> exists k, tryParseDate legacy raw = Some k.
Proof.
  split.
  - destruct (tryParseDate legacy raw) as [k |]; [eauto | discriminate].
  - intros [k E]. rewrite E. cbn. destruct (tryParseDate_isoDay raw k E) as [t ->].
    apply negb_true_iff, String.eqb_neq, isoDay_nonempty.
Qed.

Definition resolves (c : string) (row : RawRow) : bool :=
  Js.truthy (tryParseDate legacy (get row c)).

Definition bucketKeys (bucket : list DailyAggregate) : list string := map dateISO bucket.

Lemma bucketSet_keys bucket k v :
  dateISO v = k ->
  bucketKeys (bucketSet bucket k v)
  = if existsb (String.eqb k) (bucketKeys bucket)
    then bucketKeys bucket else bucketKeys bucket ++ [k].
Proof.
  intros Hv. unfold bucketKeys.
  induction bucket as [| e r IH]; cbn [bucketSet map existsb app].
  - rewrite Hv. reflexivity.
  - rewrite (String.eqb_sym k (dateISO e)).
    destruct (String.eqb_spec (dateISO e) k) as [E | N]; cbn [map orb].
    + rewrite Hv, E. reflexivity.
    + rewrite IH. destruct (existsb (String.eqb k) (map dateISO r)); reflexivity.
Qed.

Lemma existsb_eqb_In k l : existsb (String.eqb k) l = true <-> In k l.
Proof.
  rewrite existsb_exists. split.
  - intros (x & Hx & E). apply String.eqb_eq in E. subst. exact Hx.
  - intros H. exists k. split; [exact H | apply String.eqb_refl].
Qed.

Lemma bucketSet_In bucket k v x :
  dateISO v = k ->
  In x (bucketKeys (bucketSet bucket k v)) <-> In x (bucketKeys bucket) \/ x = k.
Proof.
  intros Hv. rewrite (bucketSet_keys bucket k v Hv).
  destruct (existsb (String.eqb k) (bucketKeys bucket)) eqn:E.
  - apply existsb_eqb_In in E. split; [tauto | intros [H | ->]; assumption].
  - rewrite in_app_iff. cbn [In]. intuition congruence.
Qed.

Lemma bucketSet_NoDup bucket k v :
  dateISO v = k -> NoDup (bucketKeys bucket) -> NoDup (bucketKeys (bucketSet bucket k v)).
Proof.
  intros Hv Hnd. rewrite (bucketSet_keys bucket k v Hv).
  destruct (existsb (String.eqb k) (bucketKeys bucket)) eqn:E; [exact Hnd |].
  apply NoDup_app; [exact Hnd | repeat constructor; intros [] | ].
  intros x Hx [<- | []].
  apply existsb_eqb_In in Hx. congruence.
Qed.

Lemma rowStep_eq c cols bucket row :
  rowStep legacy c cols bucket row
  = match tryParseDate legacy (get row c) with
    | Some k =>
        bucketSet bucket k
          (mkDaily k
             (fold_left (addMetric cols row) allMetrics
                (amounts match bucketGet bucket k with
                         | Some e => e
                         | None => mkDaily k zeroAmounts
                         end)))
    | None => bucket
    end.
Proof.
  unfold rowStep.
  destruct (Js.truthy (tryParseDate legacy (get row c))) eqn:E; cbn [negb].
  - reflexivity.
  - destruct (tryParseDate legacy (get row c)) as [k |] eqn:Ek; [| reflexivity].
    assert (H : Js.truthy (Some k) = true).
    { rewrite <- Ek. apply tryParseDate_truthy. eauto. }
    rewrite H in E. discriminate E.
Qed.

(** The keys of the bucket after the rows: those it had, and the dates the
    rows resolve to; they stay distinct. *)
Lemma bucket_keys c cols rows bucket x :
  In x (bucketKeys (fold_left (rowStep legacy c cols) rows bucket)) <->
  In x (bucketKeys bucket) \/
  exists row, In row rows /\ tryParseDate legacy (get row c) = Some x.
Proof.
  revert bucket. induction rows as [| row rows IH]; intros bucket; cbn [fold_left].
  - split; [tauto | intros [H | (row & [] & _)]; exact H].
  - rewrite IH, rowStep_eq.
    destruct (tryParseDate legacy (get row c)) as [k |] eqn:Ek.
    + rewrite bucketSet_In by reflexivity. split.
      * intros [[H | ->] | (r & Hr & E)]; [tauto | right | right].
        -- exists row. split; [left; reflexivity | exact Ek].
        -- exists r. split; [right; exact Hr | exact E].
      * intros [H | (r & [<- | Hr] & E)]; [tauto | left; right; congruence |].
        right. exists r. tauto.
    + split.
      * intros [H | (r & Hr & E)]; [tauto |]. right. exists r. split; [right |]; assumption.
      * intros [H | (r & [<- | Hr] & E)]; [tauto | congruence |]. right. exists r. tauto.
Qed.

Lemma bucket_NoDup c cols rows bucket :
  NoDup (bucketKeys bucket) ->
  NoDup (bucketKeys (fold_left (rowStep legacy c cols) rows bucket)).
Proof.
  revert bucket. induction rows as [| row rows IH]; intros bucket H; cbn [fold_left];
    [exact H |].
  apply IH. rewrite rowStep_eq.
  destruct (tryParseDate legacy (get row c)); [| exact H].
  apply bucketSet_NoDup; [reflexivity | exact H].
Qed.

End Bucket.

(** ** The order of dates and the sort *)

Section Sorting.

Lemma rank_inj x y : Js.collationRank x = Js.collationRank y -> x = y.
Proof.
  unfold Js.collationRank, Js.code. pose proof (N2Z.is_nonneg (N_of_ascii x)).
  pose proof (N2Z.is_nonneg (N_of_ascii y)).
  destruct (Ascii.eqb_spec x "-") as [X1 | _], (Ascii.eqb_spec y "-") as [Y1 | _],
    (Ascii.eqb_spec x "+") as [X2 | _], (Ascii.eqb_spec y "+") as [Y2 | _];
    try congruence; try lia.
  intros E. assert (K : N_of_ascii x = N_of_ascii y) by lia.
  rewrite <- (ascii_N_embedding x), <- (ascii_N_embedding y), K. reflexivity.
Qed.

Lemma collate_eq a b : Js.collate a b = Eq -> a = b.
Proof.
  revert b. induction a as [| x a IH]; intros [| y b]; cbn [Js.collate];
    try discriminate; [reflexivity |].
  destruct (Z.compare_spec (Js.collationRank x) (Js.collationRank y)) as [E | _ | _];
    try discriminate.
  intros H. rewrite (rank_inj x y E), (IH b H). reflexivity.
Qed.

Lemma collate_antisym a b : Js.collate b a = CompOpp (Js.collate a b).
Proof.
  revert b. induction a as [| x a IH]; intros [| y b]; cbn [Js.collate]; try reflexivity.
  rewrite (Z.compare_antisym (Js.collationRank x) (Js.collationRank y)).
  destruct (Js.collationRank x ?= Js.collationRank y); cbn [CompOpp]; auto.
Qed.

Lemma collate_lt_trans a b c :
  Js.collate a b = Lt -> Js.collate b c = Lt -> Js.collate a c = Lt.
Proof.
  revert b c. induction a as [| x a IH]; intros [| y b] [| z c]; cbn [Js.collate];
    try discriminate; try reflexivity.
  destruct (Z.compare_spec (Js.collationRank x) (Js.collationRank y)) as [E1 | L1 | L1];
    try discriminate;
    destruct (Z.compare_spec (Js.collationRank y) (Js.collationRank z)) as [E2 | L2 | L2];
    try discriminate; intros H1 H2.
  - rewrite E1, E2, Z.compare_refl. exact (IH b c H1 H2).
  - rewrite E1. rewrite (proj2 (Z.compare_lt_iff _ _) L2). reflexivity.
  - rewrite <- E2. rewrite (proj2 (Z.compare_lt_iff _ _) L1). reflexivity.
  - rewrite (proj2 (Z.compare_lt_iff _ _) (Z.lt_trans _ _ _ L1 L2)). reflexivity.
Qed.

Lemma str_chars_id (s : string) : Js.str (Js.chars s) = s.
Proof. apply string_of_list_ascii_of_string. Qed.

Lemma compare_eq a b : Js.localeCompare a b = Eq -> a = b.
Proof.
  unfold Js.localeCompare. intros H. apply collate_eq in H.
  rewrite <- (str_chars_id a), <- (str_chars_id b), H. reflexivity.
Qed.

Lemma compare_antisym a b : Js.localeCompare b a = CompOpp (Js.localeCompare a b).
Proof. apply collate_antisym. Qed.

Lemma compare_lt_trans a b c :
  Js.localeCompare a b = Lt -> Js.localeCompare b c = Lt -> Js.localeCompare a c = Lt.
Proof. apply collate_lt_trans. Qed.

Lemma compare_refl a : Js.localeCompare a a = Eq.
Proof. apply collate_refl. Qed.

(** [a] sorts no later than [b]. *)
Definition dateLe (a b : DailyAggregate) : Prop :=
  Js.localeCompare (dateISO a) (dateISO b) <> Gt.

(** [a] sorts before [b]. *)
Definition dateLt (a b : DailyAggregate) : Prop :=
  Js.localeCompare (dateISO a) (dateISO b) = Lt.

Lemma dateLe_trans a b c : dateLe a b -> dateLe b c -> dateLe a c.
Proof.
  unfold dateLe. intros H1 H2.
  destruct (Js.localeCompare (dateISO a) (dateISO b)) eqn:E1; [| | contradiction H1; reflexivity].
  - apply compare_eq in E1. rewrite E1. exact H2.
  - destruct (Js.localeCompare (dateISO b) (dateISO c)) eqn:E2;
      [| | contradiction H2; reflexivity].
    + apply compare_eq in E2. rewrite <- E2, E1. discriminate.
    + rewrite (compare_lt_trans _ _ _ E1 E2). discriminate.
Qed.

Lemma dateLe_flip a b : ~ dateLe a b -> dateLe b a.
Proof.
  unfold dateLe. intros H. rewrite compare_antisym.
  destruct (Js.localeCompare (dateISO a) (dateISO b)); cbn; try discriminate.
  contradiction H; discriminate.
Qed.

Lemma insertDaily_perm x l : Permutation (insertDaily x l) (x :: l).
Proof.
  induction l as [| y l IH]; cbn [insertDaily]; [reflexivity |].
  destruct (Js.localeCompare (dateISO x) (dateISO y)); try reflexivity.
  rewrite IH. apply perm_swap.
Qed.

Lemma sortDaily_perm l : Permutation (sortDaily l) l.
Proof.
  induction l as [| x l IH]; [reflexivity |].
  cbn [sortDaily fold_right]. fold (sortDaily l).
  rewrite insertDaily_perm. constructor. exact IH.
Qed.

Lemma insertDaily_sorted x l :
  StronglySorted dateLe l -> StronglySorted dateLe (insertDaily x l).
Proof.
  induction l as [| y l IH]; intros H; cbn [insertDaily].
  - repeat constructor.
  - inversion H as [| ? ? Hl Hy]; subst.
    destruct (Js.localeCompare (dateISO x) (dateISO y)) eqn:E.
    + constructor; [exact H |]. constructor.
      * unfold dateLe. rewrite E. discriminate.
      * eapply Forall_impl; [| exact Hy]. intros z Hz.
        apply (dateLe_trans x y z); [unfold dateLe; rewrite E; discriminate | exact Hz].
    + constructor; [exact H |]. constructor.
      * unfold dateLe. rewrite E. discriminate.
      * eapply Forall_impl; [| exact Hy]. intros z Hz.
        apply (dateLe_trans x y z); [unfold dateLe; rewrite E; discriminate | exact Hz].
    + constructor; [apply IH; exact Hl |].
      assert (Hyx : dateLe y x).
      { apply dateLe_flip. unfold dateLe. rewrite E. intros K. apply K. reflexivity. }
      eapply Permutation_Forall.
      * symmetry. apply insertDaily_perm.
      * constructor; assumption.
Qed.

Lemma sortDaily_sorted l : StronglySorted dateLe (sortDaily l).
Proof.
  induction l as [| x l IH]; [constructor |].
  cbn [sortDaily fold_right]. fold (sortDaily l). apply insertDaily_sorted. exact IH.
Qed.

Lemma StronglySorted_weaken {A} (R R' : A -> A -> Prop) (l : list A) :
  (forall a b, In a l -> In b l -> R a b -> R' a b) ->
  StronglySorted R l -> StronglySorted R' l.
Proof.
  induction l as [| x l IH]; intros Himp Hs; [constructor |].
  inversion Hs as [| ? ? Hl Hall]; subst. constructor.
  - apply IH; [| exact Hl]. intros a b Ha Hb. apply Himp; right; assumption.
  - rewrite Forall_forall in Hall |- *. intros y Hy.
    apply Himp; [left; reflexivity | right; exact Hy | exact (Hall y Hy)].
Qed.

(** With distinct dates the order is strict. *)
Lemma sorted_strict l :
  NoDup (map dateISO l) -> StronglySorted dateLe l -> StronglySorted dateLt l.
Proof.
  induction l as [| x l IH]; intros Hnd Hs; [constructor |].
  cbn [map] in Hnd. inversion Hnd as [| ? ? Hx Hnd']; subst.
  inversion Hs as [| ? ? Hl Hall]; subst.
  constructor; [exact (IH Hnd' Hl) |].
  rewrite Forall_forall in Hall |- *. intros y Hy. specialize (Hall y Hy).
  unfold dateLe, dateLt in *.
  destruct (Js.localeCompare (dateISO x) (dateISO y)) eqn:E;
    [| reflexivity | contradiction Hall; reflexivity].
  apply compare_eq in E. exfalso. apply Hx. rewrite E.
  apply in_map. exact Hy.
Qed.

Lemma sortDaily_keys l x : In x (map dateISO (sortDaily l)) <-> In x (map dateISO l).
Proof.
  split; apply Permutation_in; [| symmetry]; apply Permutation_map, sortDaily_perm.
Qed.

Lemma sortDaily_NoDup l : NoDup (map dateISO l) -> NoDup (map dateISO (sortDaily l)).
Proof.
  apply Permutation_NoDup. symmetry. apply Permutation_map, sortDaily_perm.
Qed.

End Sorting.

(** ** The date column *)

Section DateColumn.

Variable legacy : string -> option Z.
Variable rows : list RawRow.

Lemma dateHits_from h (l : list RawRow) a :
  fold_left (fun acc row =>
               if Js.truthy (tryParseDate legacy (get row h)) then acc + 1 else acc) l a
  = a + Z.of_nat (List.length (filter (resolves legacy h) l)).
Proof.
  revert a. induction l as [| r l IH]; intros a; cbn [fold_left filter]; [cbn; lia |].
  rewrite IH. unfold resolves at 2.
  destruct (Js.truthy (tryParseDate legacy (get r h))); cbn [List.length]; lia.
Qed.

(** The hits of a column: the number of records whose cell resolves. *)
Lemma dateHits_count h :
  dateHits legacy rows h = Z.of_nat (List.length (filter (resolves legacy h) rows)).
Proof. unfold dateHits. rewrite dateHits_from. lia. Qed.

Lemma dateHits_le h : 0 <= dateHits legacy rows h <= Z.of_nat (List.length rows).
Proof.
  rewrite dateHits_count. pose proof (filter_length_le (resolves legacy h) rows). lia.
Qed.

Lemma dateHits_pos h :
  0 < dateHits legacy rows h ->
  exists row k, In row rows /\ tryParseDate legacy (get row h) = Some k.
Proof.
  rewrite dateHits_count.
  destruct (filter (resolves legacy h) rows) as [| row l] eqn:E; [cbn; lia |].
  intros _. assert (Hin : In row (filter (resolves legacy h) rows)) by (rewrite E; left; reflexivity).
  apply filter_In in Hin. destruct Hin as [Hin Hr].
  apply tryParseDate_truthy in Hr. destruct Hr as [k Hk]. eauto.
Qed.

Lemma dateHits_zero h :
  dateHits legacy rows h = 0 <-> filter (resolves legacy h) rows = [].
Proof.
  rewrite dateHits_count. destruct (filter (resolves legacy h) rows); cbn [List.length].
  - tauto.
  - split; [lia | discriminate].
Qed.

(** What the scan of the headers leaves in [best]. *)
Definition dateScanned (seen : list string) (best : option (string * Z)) : Prop :=
  match best with
  | None => forall h, In h seen -> dateHits legacy rows h = 0
  | Some (c, n) =>
      In c seen /\ n = dateHits legacy rows c /\ 0 < n /\
      forall h, In h seen -> dateHits legacy rows h <= n
  end.

Lemma dateScan_spec headers :
  dateScanned headers (fold_left (dateStep legacy rows) headers None).
Proof.
  induction headers as [| x l IH] using rev_ind; [intros h [] |].
  rewrite fold_left_app. cbn [fold_left]. unfold dateStep at 1.
  pose proof (dateHits_le x) as Hx.
  destruct (fold_left (dateStep legacy rows) l None) as [[c n] |]; cbn [dateScanned] in *.
  - destruct IH as (Hin & Hn & Hpos & Hmax).
    destruct (Z.eqb_spec (dateHits legacy rows x) 0) as [E | N].
    + split; [apply in_or_app; left; exact Hin |]. split; [exact Hn |]. split; [exact Hpos |].
      intros h Hh. apply in_app_or in Hh. destruct Hh as [Hh | [<- | []]]; [auto | lia].
    + destruct (Z.gtb_spec (dateHits legacy rows x) n) as [G | G].
      * split; [apply in_or_app; right; left; reflexivity |]. split; [reflexivity |].
        split; [lia |].
        intros h Hh. apply in_app_or in Hh. destruct Hh as [Hh | [<- | []]]; [| lia].
        specialize (Hmax h Hh). lia.
      * split; [apply in_or_app; left; exact Hin |]. split; [exact Hn |]. split; [exact Hpos |].
        intros h Hh. apply in_app_or in Hh. destruct Hh as [Hh | [<- | []]]; [auto | lia].
  - destruct (Z.eqb_spec (dateHits legacy rows x) 0) as [E | N].
    + intros h Hh. apply in_app_or in Hh. destruct Hh as [Hh | [<- | []]]; auto.
    + split; [apply in_or_app; right; left; reflexivity |]. split; [reflexivity |].
      split; [lia |].
      intros h Hh. apply in_app_or in Hh. destruct Hh as [Hh | [<- | []]]; [| lia].
      rewrite (IH h Hh). lia.
Qed.

(** The detected column has the most hits, and at least one. *)
Lemma detectDateColumn_Some headers c :
  detectDateColumn legacy rows headers = Some c ->
  In c headers /\ 0 < dateHits legacy rows c /\
  forall h, In h headers -> dateHits legacy rows h <= dateHits legacy rows c.
Proof.
  unfold detectDateColumn. pose proof (dateScan_spec headers) as H.
  destruct (fold_left (dateStep legacy rows) headers None) as [[c' n] |]; [| discriminate].
  cbn. intros E. injection E as <-. destruct H as (Hin & -> & Hpos & Hmax). auto.
Qed.

Lemma detectDateColumn_None headers :
  detectDateColumn legacy rows headers = None <->
  forall h, In h headers -> dateHits legacy rows h = 0.
Proof.
  unfold detectDateColumn. pose proof (dateScan_spec headers) as H.
  destruct (fold_left (dateStep legacy rows) headers None) as [[c' n] |]; cbn.
  - split; [discriminate |]. intros K. destruct H as (Hin & -> & Hpos & _).
    rewrite (K c' Hin) in Hpos. lia.
  - split; [intros _; exact H | reflexivity].
Qed.

(** Among the headers with the most hits, the first one is detected: every
    header before it has fewer hits. *)
Lemma dateScan_first headers c n :
  fold_left (dateStep legacy rows) headers None = Some (c, n) ->
  exists pre post,
    headers = pre ++ c :: post /\
    forall h, In h pre -> dateHits legacy rows h < dateHits legacy rows c.
Proof.
  revert c n. induction headers as [| x l IH] using rev_ind; intros c n; [discriminate |].
  rewrite fold_left_app. cbn [fold_left]. unfold dateStep at 1.
  pose proof (dateHits_le x) as Hx. pose proof (dateScan_spec l) as Hl.
  destruct (fold_left (dateStep legacy rows) l None) as [[c0 n0] |] eqn:El;
    cbn [dateScanned] in Hl.
  - destruct Hl as (_ & Hn0 & _ & Hmax).
    assert (Keep : Some (c0, n0) = Some (c, n) ->
              exists pre post, l ++ [x] = pre ++ c :: post /\
                forall h, In h pre -> dateHits legacy rows h < dateHits legacy rows c).
    { intros E. injection E as <- <-.
      destruct (IH c0 n0 eq_refl) as (pre & post & -> & Hpre).
      exists pre, (post ++ [x]). split; [| exact Hpre].
      rewrite <- app_assoc. reflexivity. }
    destruct (Z.eqb_spec (dateHits legacy rows x) 0) as [E | N]; [exact Keep |].
    destruct (Z.gtb_spec (dateHits legacy rows x) n0) as [G | G]; [| exact Keep].
    intros E. injection E as <- <-. exists l, []. split; [reflexivity |].
    intros h Hh. specialize (Hmax h Hh). lia.
  - destruct (Z.eqb_spec (dateHits legacy rows x) 0) as [E | N]; [discriminate |].
    intros E. injection E as <- <-. exists l, []. split; [reflexivity |].
    intros h Hh. rewrite (Hl h Hh). lia.
Qed.

Lemma detectDateColumn_earliest headers c :
  detectDateColumn legacy rows headers = Some c ->
  exists pre post,
    headers = pre ++ c :: post /\
    forall h, In h pre -> dateHits legacy rows h < dateHits legacy rows c.
Proof.
  unfold detectDateColumn.
  destruct (fold_left (dateStep legacy rows) headers None) as [[c' n] |] eqn:E;
    [| discriminate].
  cbn. intros K. injection K as <-. exact (dateScan_first headers c' n E).
Qed.

(** Some record resolves in the detected column. *)
Lemma detectDateColumn_resolves headers c :
  detectDateColumn legacy rows headers = Some c ->
  exists row k, In row rows /\ tryParseDate legacy (get row c) = Some k.
Proof.
  intros H. apply detectDateColumn_Some in H. apply dateHits_pos. tauto.
Qed.

(** The first header wins when every record resolves in it: no column has
    more hits, and a later one needs strictly more. *)
Lemma detectDateColumn_first h rest :
  rows <> [] ->
  (forall row, In row rows -> resolves legacy h row = true) ->
  detectDateColumn legacy rows (h :: rest) = Some h.
Proof.
  intros Hne Hall. unfold detectDateColumn. cbn [fold_left].
  assert (Hh : dateHits legacy rows h = Z.of_nat (List.length rows)).
  { rewrite dateHits_count. f_equal. f_equal.
    clear Hne. induction rows as [| r l IH]; [reflexivity |].
    cbn [filter]. rewrite (Hall r (or_introl eq_refl)). f_equal.
    apply IH. intros row Hr. apply Hall. right. exact Hr. }
  assert (Hpos : 0 < Z.of_nat (List.length rows)).
  { destruct rows; [contradiction Hne; reflexivity | cbn [List.length]; lia]. }
  unfold dateStep at 2. rewrite Hh.
  destruct (Z.eqb_spec (Z.of_nat (List.length rows)) 0) as [E | _]; [lia |].
  assert (K : forall l, fold_left (dateStep legacy rows) l
                          (Some (h, Z.of_nat (List.length rows)))
                        = Some (h, Z.of_nat (List.length rows))).
  { induction l as [| x l IH]; [reflexivity |]. cbn [fold_left]. unfold dateStep at 2.
    pose proof (dateHits_le x) as Hx.
    destruct (dateHits legacy rows x =? 0); [exact IH |].
    destruct (Z.gtb_spec (dateHits legacy rows x) (Z.of_nat (List.length rows))); [lia |].
    exact IH. }
  rewrite K. reflexivity.
Qed.

End DateColumn.

(** ** The date column has the most hits *)

(** [detectDateColumn] returns the first of the headers with the greatest
    number of records whose cell resolves to a date, when that number is
    not zero, and nothing when no cell of any column resolves. *)
Theorem detectDateColumn_most_hits (legacy : string -> option Z)
    (rows : list RawRow) (headers : list string) :
  match detectDateColumn legacy rows headers with
  | Some c =>
      0 < dateHits legacy rows c /\
      (forall h, In h headers -> dateHits legacy rows h <= dateHits legacy rows c) /\
      exists pre post,
        headers = pre ++ c :: post /\
        forall h, In h pre -> dateHits legacy rows h < dateHits legacy rows c
  | None => forall h, In h headers -> dateHits legacy rows h = 0
  end.
Proof.
  destruct (detectDateColumn legacy rows headers) as [c |] eqn:E.
  - pose proof (detectDateColumn_Some legacy rows headers c E) as (_ & Hp & Hm).
    split; [exact Hp |]. split; [exact Hm |].
    exact (detectDateColumn_earliest legacy rows headers c E).
  - apply detectDateColumn_None. exact E.
Qed.

(** ** When [aggregate] raises *)

Section AggregateFacts.

Variable legacy : string -> option Z.

(** What a successful run of [aggregate] went through. *)
Lemma aggregate_Returned (rows : list RawRow) (daily : list DailyAggregate) (s : Summary) :
  aggregate legacy rows = Returned daily s ->
  exists row0 rest dateColumn,
    rows = row0 :: rest /\
    detectDateColumn legacy rows (keys row0) = Some dateColumn /\
    dateColumn <> "" /\
    missingMetrics (detectMetricColumns rows (keys row0)) = [] /\
    daily = sortDaily
              (fold_left (rowStep legacy dateColumn (detectMetricColumns rows (keys row0)))
                         rows []) /\
    daily <> [] /\
    s = summaryOf legacy daily.
Proof.
  unfold aggregate. destruct rows as [| row0 rest]; [discriminate |].
  destruct (detectDateColumn legacy (row0 :: rest) (keys row0)) as [c |] eqn:Ed;
    [| discriminate].
  destruct (String.eqb c "") eqn:Ec; [discriminate |].
  destruct (missingMetrics _) eqn:Em; [| discriminate].
  destruct (sortDaily _) as [| d0 ds] eqn:Es; [discriminate |].
  intros H. injection H as <- <-.
  exists row0, rest, c. repeat split; try reflexivity; try assumption.
  - apply String.eqb_neq. exact Ec.
  - symmetry. exact Es.
  - discriminate.
Qed.

End AggregateFacts.

Section Errors.

Variable legacy : string -> option Z.

(** The sorted days of the records, for a date column and metric columns. *)
Definition dailyOf (rows : list RawRow) (c : string) (cols : Columns) : list DailyAggregate :=
  sortDaily (fold_left (rowStep legacy c cols) rows []).

Lemma dailyOf_keys rows c cols k :
  In k (map dateISO (dailyOf rows c cols)) <->
  exists row, In row rows /\ tryParseDate legacy (get row c) = Some k.
Proof.
  unfold dailyOf. rewrite sortDaily_keys.
  fold (bucketKeys (fold_left (rowStep legacy c cols) rows [])).
  rewrite bucket_keys. cbn [bucketKeys map In]. tauto.
Qed.

Lemma dailyOf_nonempty rows headers c cols :
  detectDateColumn legacy rows headers = Some c -> dailyOf rows c cols <> [].
Proof.
  intros H. destruct (detectDateColumn_resolves legacy rows headers c H) as (row & k & Hr & Hk).
  assert (Hin : In k (map dateISO (dailyOf rows c cols))).
  { apply dailyOf_keys. eauto. }
  intros E. rewrite E in Hin. exact Hin.
Qed.

(** The daily sequence is strictly ascending and without repeated dates. *)
Lemma dailyOf_sorted rows c cols :
  StronglySorted dateLt (dailyOf rows c cols) /\ NoDup (map dateISO (dailyOf rows c cols)).
Proof.
  assert (Hnd : NoDup (map dateISO (dailyOf rows c cols))).
  { unfold dailyOf. apply sortDaily_NoDup. apply (bucket_NoDup legacy). constructor. }
  split; [| exact Hnd].
  apply sorted_strict; [exact Hnd |]. unfold dailyOf. apply sortDaily_sorted.
Qed.

(** [aggregate] without its fourth [throw], which no input reaches. *)
Lemma aggregate_eq rows :
  aggregate legacy rows
  = match rows with
    | [] => Threw errNoRows
    | row0 :: _ =>
        match detectDateColumn legacy rows (keys row0) with
        | None => Threw errNoDate
        | Some c =>
            if String.eqb c "" then Threw errNoDate
            else
              let cols := detectMetricColumns rows (keys row0) in
              match missingMetrics cols with
              | _ :: _ => Threw (errMissing (missingMetrics cols))
              | [] => Returned (dailyOf rows c cols) (summaryOf legacy (dailyOf rows c cols))
              end
        end
    end.
Proof.
  unfold aggregate. destruct rows as [| row0 rest]; [reflexivity |].
  destruct (detectDateColumn legacy (row0 :: rest) (keys row0)) as [c |] eqn:Ed;
    [| reflexivity].
  destruct (String.eqb c ""); [reflexivity |]. cbv zeta.
  destruct (missingMetrics _); [| reflexivity].
  fold (dailyOf (row0 :: rest) c (detectMetricColumns (row0 :: rest) (keys row0))).
  pose proof (dailyOf_nonempty (row0 :: rest) (keys row0) c
                (detectMetricColumns (row0 :: rest) (keys row0)) Ed) as Hne.
  destruct (dailyOf _ _ _); [contradiction Hne; reflexivity | reflexivity].
Qed.

Lemma errors_distinct :
  errNoRows <> errNoDate /\ errNoRows <> errNoDatedRows /\ errNoDate <> errNoDatedRows /\
  forall missing,
    errMissing missing <> errNoRows /\ errMissing missing <> errNoDate /\
    errMissing missing <> errNoDatedRows.
Proof.
  repeat split; try discriminate; unfold errMissing; cbn [append]; discriminate.
Qed.

Lemma errMissing_names :
  errMissing [gross; net] = "Missing expected numeric columns: gross, net" /\
  errMissing [gross] = "Missing expected numeric columns: gross" /\
  errMissing [net] = "Missing expected numeric columns: net".
Proof. repeat split. Qed.

Lemma missingMetrics_cases cols :
  missingMetrics cols = [] \/ missingMetrics cols = [gross] \/
  missingMetrics cols = [net] \/ missingMetrics cols = [gross; net].
Proof.
  unfold missingMetrics. cbn [filter].
  destruct (negb (Js.truthy (column cols gross))), (negb (Js.truthy (column cols net))); auto.
Qed.

(** The records that survive date resolution. *)
Definition survivors (rows : list RawRow) (dateColumn : option string) : list RawRow :=
  match dateColumn with
  | Some c => filter (resolves legacy c) rows
  | None => []
  end.

Lemma survivors_nonempty rows headers c :
  detectDateColumn legacy rows headers = Some c -> survivors rows (Some c) <> [].
Proof.
  intros H. apply detectDateColumn_Some in H. destruct H as (_ & Hpos & _).
  cbn [survivors]. intros E. apply dateHits_zero in E. lia.
Qed.

End Errors.

(** What the code takes for a name that was not detected: [null] or
    [undefined], and also the empty string. *)
Definition undetected (v : option string) : Prop := v = None \/ v = Some "".

Lemma truthy_undetected (v : option string) : Js.truthy v = false <-> undetected v.
Proof.
  unfold undetected. destruct v as [c |]; cbn [Js.truthy].
  - rewrite negb_false_iff, String.eqb_eq. split.
    + intros ->. right. reflexivity.
    + intros [H | H]; [discriminate H | injection H as ->; reflexivity].
  - split; [left |]; reflexivity.
Qed.

Lemma truthy_detected (v : option string) : Js.truthy v = true <-> ~ undetected v.
Proof.
  rewrite <- truthy_undetected. destruct (Js.truthy v); split; congruence.
Qed.

(** C3 (as amended). [aggregate] raises exactly when the record set is
    empty, or the date column is not detected or is the column without a
    name, or [gross] or [net] has no column or the column without a name,
    or no record survives date resolution.  The first of these that holds
    decides the message: the four messages are pairwise different and the
    third names [gross, net], [gross] or [net] according to the columns
    that are missing.  Whenever a date column is detected some record survives date
    resolution.  In every other case, whatever the cells and the optional
    metric columns are, [aggregate] returns.  When no header is the empty
    string, a name is taken for not detected only when there is none. *)
Theorem aggregate_raises_iff (legacy : string -> option Z) (rows : list RawRow) :
  let headers := keys (hd [] rows) in
  let dateColumn := detectDateColumn legacy rows headers in
  let cols := detectMetricColumns rows headers in
  let noDate := undetected dateColumn in
  let noGross := undetected (column cols gross) in
  let noNet := undetected (column cols net) in
  ((exists message, aggregate legacy rows = Threw message) <->
   rows = [] \/ noDate \/ noGross \/ noNet \/ survivors legacy rows dateColumn = []) /\
  (rows = [] -> aggregate legacy rows = Threw "No rows detected in CSV.") /\
  (rows <> [] -> noDate ->
   aggregate legacy rows
   = Threw "Could not find a date column. Please ensure the CSV includes a date column.") /\
  (rows <> [] -> ~ noDate -> noGross -> noNet ->
   aggregate legacy rows = Threw "Missing expected numeric columns: gross, net") /\
  (rows <> [] -> ~ noDate -> noGross -> ~ noNet ->
   aggregate legacy rows = Threw "Missing expected numeric columns: gross") /\
  (rows <> [] -> ~ noDate -> ~ noGross -> noNet ->
   aggregate legacy rows = Threw "Missing expected numeric columns: net") /\
  (rows <> [] -> ~ noDate -> ~ noGross -> ~ noNet ->
   exists daily summary, aggregate legacy rows = Returned daily summary) /\
  (~ noDate -> survivors legacy rows dateColumn <> []) /\
  (~ In "" headers ->
   (noDate <-> dateColumn = None) /\
   forall m, undetected (column cols m) <-> column cols m = None) /\
  (errNoRows <> errNoDate /\ errNoRows <> errNoDatedRows /\ errNoDate <> errNoDatedRows /\
   forall ms, errMissing ms <> errNoRows /\ errMissing ms <> errNoDate /\
              errMissing ms <> errNoDatedRows).
Proof.
  cbv zeta. rewrite aggregate_eq.
  assert (Hmiss : forall cols,
            missingMetrics cols
            = (if Js.truthy (column cols gross) then [] else [gross])
              ++ (if Js.truthy (column cols net) then [] else [net])).
  { intros cols. unfold missingMetrics. cbn [filter].
    destruct (Js.truthy (column cols gross)), (Js.truthy (column cols net)); reflexivity. }
  rewrite <- !truthy_undetected.
  split; [| split; [| split; [| split; [| split; [| split; [| split; [| split; [| split]]]]]]]].
  - destruct rows as [| row0 rest]; [split; eauto |]. cbn [hd].
    destruct (detectDateColumn legacy (row0 :: rest) (keys row0)) as [c |] eqn:Ed;
      [| split; eauto].
    pose proof (survivors_nonempty legacy _ _ _ Ed) as Hs.
    cbn [Js.truthy]. destruct (String.eqb c ""); cbn [negb]; [split; eauto |].
    cbv zeta. rewrite Hmiss.
    destruct (Js.truthy (column _ gross)), (Js.truthy (column _ net)); cbn [app];
      (split; [intros [msg K]; try discriminate K; auto |]);
      try (intros _; eexists; reflexivity).
    intros [K | [K | [K | [K | K]]]]; try discriminate K. contradiction.
  - intros ->. reflexivity.
  - intros Hne Ht. destruct rows as [| row0 rest]; [contradiction Hne; reflexivity |].
    cbn [hd] in *. destruct (detectDateColumn _ _ _) as [c |]; [| reflexivity].
    cbn [Js.truthy] in Ht. apply negb_false_iff in Ht. rewrite Ht. reflexivity.
  - intros Hne Ht Hg Hn. destruct rows as [| row0 rest]; [contradiction Hne; reflexivity |].
    cbn [hd] in *. destruct (detectDateColumn _ _ _) as [c |]; [| contradiction Ht; reflexivity].
    destruct (String.eqb c "") eqn:Ec; [contradiction Ht; cbn; rewrite Ec; reflexivity |].
    cbv zeta. rewrite Hmiss, Hg, Hn. reflexivity.
  - intros Hne Ht Hg Hn. destruct rows as [| row0 rest]; [contradiction Hne; reflexivity |].
    cbn [hd] in *. destruct (detectDateColumn _ _ _) as [c |]; [| contradiction Ht; reflexivity].
    destruct (String.eqb c "") eqn:Ec; [contradiction Ht; cbn; rewrite Ec; reflexivity |].
    cbv zeta. rewrite Hmiss, Hg. apply not_false_is_true in Hn. rewrite Hn. reflexivity.
  - intros Hne Ht Hg Hn. destruct rows as [| row0 rest]; [contradiction Hne; reflexivity |].
    cbn [hd] in *. destruct (detectDateColumn _ _ _) as [c |]; [| contradiction Ht; reflexivity].
    destruct (String.eqb c "") eqn:Ec; [contradiction Ht; cbn; rewrite Ec; reflexivity |].
    cbv zeta. rewrite Hmiss, Hn. apply not_false_is_true in Hg. rewrite Hg. reflexivity.
  - intros Hne Ht Hg Hn. destruct rows as [| row0 rest]; [contradiction Hne; reflexivity |].
    cbn [hd] in *. destruct (detectDateColumn _ _ _) as [c |]; [| contradiction Ht; reflexivity].
    destruct (String.eqb c "") eqn:Ec; [contradiction Ht; cbn; rewrite Ec; reflexivity |].
    cbv zeta. rewrite Hmiss. apply not_false_is_true in Hg, Hn. rewrite Hg, Hn. cbn [app].
    eauto.
  - intros Ht.
    destruct (detectDateColumn legacy rows (keys (hd [] rows))) as [c |] eqn:Ed;
      [| contradiction Ht; reflexivity].
    exact (survivors_nonempty legacy _ _ _ Ed).
  - intros Hne. split.
    + destruct (detectDateColumn legacy rows (keys (hd [] rows))) as [c |] eqn:Ed;
        [| split; reflexivity].
      apply detectDateColumn_Some in Ed. destruct Ed as (Hin & _).
      split; [| discriminate]. cbn [Js.truthy]. intros E.
      apply negb_false_iff, String.eqb_eq in E. subst c. contradiction.
    + intros m. rewrite <- truthy_undetected.
      destruct (column (detectMetricColumns rows (keys (hd [] rows))) m) as [c |] eqn:Ec;
        [| split; reflexivity].
      apply detectMetricColumns_within in Ec.
      split; [| discriminate]. cbn [Js.truthy]. intros E.
      apply negb_false_iff, String.eqb_eq in E. subst c. contradiction.
  - exact errors_distinct.
Qed.

Lemma aggregate_raises_iff_witness :
  aggregate isoOnly [] = Threw "No rows detected in CSV." /\
  aggregate isoOnly memoRows = Threw "Missing expected numeric columns: net" /\
  exists daily summary, aggregate isoOnly scenarioA = Returned daily summary.
Proof.
  split; [| split].
  - apply (proj1 (proj2 (aggregate_raises_iff isoOnly []))). reflexivity.
  - apply (proj1 (proj2 (proj2 (proj2 (proj2 (proj2 (aggregate_raises_iff isoOnly memoRows))))))).
    + discriminate.
    + vm_compute. intros [H | H]; discriminate H.
    + vm_compute. intros [H | H]; discriminate H.
    + vm_compute. auto.
  - apply (proj1 (proj2 (proj2 (proj2 (proj2 (proj2 (proj2
             (aggregate_raises_iff isoOnly scenarioA)))))))).
    + discriminate.
    + vm_compute. intros [H | H]; discriminate H.
    + vm_compute. intros [H | H]; discriminate H.
    + vm_compute. intros [H | H]; discriminate H.
Defined.

(** The claim C3 as stated fails: for [unnamedDateRows] a date column is
    detected (the column without a name), [gross] and [net] have their
    columns and the record survives date resolution, and yet [aggregate]
    raises. *)
Lemma aggregate_raises_with_columns :
  let headers := keys (hd [] unnamedDateRows) in
  unnamedDateRows <> [] /\
  detectDateColumn isoOnly unnamedDateRows headers = Some "" /\
  column (detectMetricColumns unnamedDateRows headers) gross = Some "Gross" /\
  column (detectMetricColumns unnamedDateRows headers) net = Some "Net" /\
  survivors isoOnly unnamedDateRows (Some "") = unnamedDateRows /\
  aggregate isoOnly unnamedDateRows
  = Threw "Could not find a date column. Please ensure the CSV includes a date column.".
Proof.
  cbv zeta. split; [discriminate |]. repeat split; vm_compute; reflexivity.
Qed.

(** C9. Whenever [detectDateColumn] returns a column, some record's cell
    in that column resolves through [tryParseDate]; so [aggregate] never
    raises ["No usable dated rows found after parsing."]: it raises one of
    the three earlier errors or returns at least one Daily Aggregate. *)
Theorem no_dated_rows_unreachable (legacy : string -> option Z) (rows : list RawRow) :
  (forall headers c,
      detectDateColumn legacy rows headers = Some c ->
      exists row k, In row rows /\ tryParseDate legacy (get row c) = Some k /\
                    Js.truthy (Some k) = true) /\
  aggregate legacy rows <> Threw errNoDatedRows /\
  (aggregate legacy rows = Threw errNoRows \/
   aggregate legacy rows = Threw errNoDate \/
   (exists missing, missing <> [] /\ aggregate legacy rows = Threw (errMissing missing)) \/
   (exists daily summary, daily <> [] /\ aggregate legacy rows = Returned daily summary)).
Proof.
  pose proof errors_distinct as (_ & D1 & D2 & D3).
  split; [| split].
  - intros headers c H.
    destruct (detectDateColumn_resolves legacy rows headers c H) as (row & k & Hr & Hk).
    exists row, k. split; [exact Hr |]. split; [exact Hk |].
    rewrite <- Hk. apply tryParseDate_truthy. eauto.
  - rewrite aggregate_eq. destruct rows as [| row0 rest]; [congruence |].
    destruct (detectDateColumn _ _ _) as [c |]; [| congruence].
    destruct (String.eqb c ""); [congruence |]. cbv zeta.
    destruct (missingMetrics _) as [| m ms] eqn:Em; [discriminate |].
    pose proof (proj2 (proj2 (D3 (m :: ms)))) as D. congruence.
  - rewrite aggregate_eq. destruct rows as [| row0 rest]; [auto |].
    destruct (detectDateColumn legacy (row0 :: rest) (keys row0)) as [c |] eqn:Ed; [| auto].
    destruct (String.eqb c ""); [auto |]. cbv zeta.
    destruct (missingMetrics _) as [| m ms] eqn:Em.
    + right. right. right. eexists. eexists. split; [| reflexivity].
      eapply dailyOf_nonempty. exact Ed.
    + right. right. left. eexists. split; [| reflexivity]. discriminate.
Qed.

Lemma no_dated_rows_unreachable_witness :
  exists row k, In row scenarioA /\ tryParseDate isoOnly (get row "Date") = Some k /\
                Js.truthy (Some k) = true.
Proof.
  apply (proj1 (no_dated_rows_unreachable isoOnly scenarioA) (keys (hd [] scenarioA)) "Date").
  vm_compute. reflexivity.
Defined.

(** ** The daily sequence and the totals *)

Lemma sumDaily_amount (m : MetricKey) (l : list DailyAggregate) (a : Amounts) :
  amount (fold_left (fun acc cur => addAmounts acc (amounts cur)) l a) m
  = fold_left (fun acc d => (acc + amount (amounts d) m)%float) l (amount a m).
Proof.
  revert a. induction l as [| d l IH]; intros a; cbn [fold_left]; [reflexivity |].
  rewrite IH. destruct m; reflexivity.
Qed.

(** C8 (as amended). After every successful run there is exactly one Daily
    Aggregate for each date that a record resolves to in the detected date
    column, and each total is the sum, from 0 and in the order of the
    sequence, of the metric over the Daily Aggregates.  When every date
    has the form [YYYY-MM-DD] (a year from 0000 to 9999) the Daily
    Aggregates are in strictly ascending order of their ISO date strings,
    compared code unit by code unit. *)
Theorem daily_sorted_totals_exact (legacy : string -> option Z)
    (rows : list RawRow) (daily : list DailyAggregate) (s : Summary) :
  aggregate legacy rows = Returned daily s ->
  NoDup (map dateISO daily) /\
  (exists c,
      detectDateColumn legacy rows (keys (hd [] rows)) = Some c /\
      forall k, In k (map dateISO daily) <->
                exists row, In row rows /\ tryParseDate legacy (get row c) = Some k) /\
  (forall m,
      amount (totals s) m
      = fold_left (fun acc d => (acc + amount (amounts d) m)%float) daily 0%float) /\
  (Forall (fun d => plainDate (dateISO d) = true) daily ->
   StronglySorted (fun a b => String.compare (dateISO a) (dateISO b) = Lt) daily).
Proof.
  intros H. apply aggregate_Returned in H.
  destruct H as (row0 & rest & c & -> & Hd & _ & _ & Hdaily & _ & ->).
  fold (dailyOf legacy (row0 :: rest) c
          (detectMetricColumns (row0 :: rest) (keys row0))) in Hdaily.
  pose proof (dailyOf_sorted legacy (row0 :: rest) c
                (detectMetricColumns (row0 :: rest) (keys row0))) as [Hs Hnd].
  rewrite <- Hdaily in Hs, Hnd.
  split; [exact Hnd | split; [| split]].
  - exists c. split; [exact Hd |]. intros k. rewrite Hdaily. apply dailyOf_keys.
  - intros m. cbn [totals summaryOf]. unfold sumDaily. rewrite sumDaily_amount.
    destruct m; reflexivity.
  - intros Hplain. rewrite Forall_forall in Hplain.
    assert (Hiso : forall e, In e daily ->
              exists t, dateISO e = isoDay t /\ plainDate (isoDay t) = true).
    { intros e He. pose proof (Hplain e He) as Hp.
      assert (Hk : In (dateISO e) (map dateISO daily)) by (apply in_map; exact He).
      rewrite Hdaily in Hk. apply dailyOf_keys in Hk. destruct Hk as (row & _ & Hk).
      destruct (tryParseDate_isoDay legacy _ _ Hk) as [t Ht].
      exists t. split; [exact Ht | rewrite <- Ht; exact Hp]. }
    apply (StronglySorted_weaken dateLt); [| exact Hs].
    intros a b Ha Hb Hab.
    destruct (Hiso a Ha) as (ta & Ea & Pa). destruct (Hiso b Hb) as (tb & Eb & Pb).
    unfold dateLt in Hab. rewrite Ea, Eb in *.
    rewrite <- (localeCompare_plain ta tb Pa Pb). exact Hab.
Qed.

Lemma daily_sorted_totals_exact_witness :
  match aggregate isoOnly reversedA with
  | Returned daily s =>
      map dateISO daily = ["2024-01-01"; "2024-01-03"] /\
      StronglySorted (fun a b => String.compare (dateISO a) (dateISO b) = Lt) daily /\
      aGross (totals s) = 300%float
  | Threw _ => False
  end.
Proof.
  destruct (aggregate isoOnly reversedA) as [msg | daily s] eqn:E.
  - vm_compute in E. discriminate E.
  - pose proof (daily_sorted_totals_exact isoOnly reversedA daily s E) as (_ & _ & _ & Hs).
    split; [| split; [apply Hs |]]; vm_compute in E; injection E as <- <-;
      try reflexivity.
    repeat constructor.
Defined.

(** The claim C8 as stated fails: the three days of [signRows] come out
    with the year 10000 after the years before 0000, where the code units
    put it first ([+] is before [-]), and with the year -1 before the year
    -2, which [new Date] reads as the earlier day. *)
Lemma daily_not_ascending :
  exists daily s,
    aggregate isoOnly signRows = Returned daily s /\
    map dateISO daily = ["-000001-01"; "-000002-01"; "+010000-01"] /\
    String.compare "-000002-01" "+010000-01" = Gt /\
    Date.parse isoOnly "-000001-01" = Some (-719893 * Date.msPerDay) /\
    Date.parse isoOnly "-000002-01" = Some (-720258 * Date.msPerDay).
Proof.
  eexists. eexists. split; [vm_compute; reflexivity |]. repeat split.
Qed.

(** ** The three ratios *)

Lemma ratiosOf_zero_or_nan (t : Amounts) :
  (isZero (aTransactions t) = true \/ isNaN (aTransactions t) = true ->
   netPerTransaction (ratiosOf t) = 0%float /\ tipsPerTransaction (ratiosOf t) = 0%float) /\
  (isZero (aGross t) = true \/ isNaN (aGross t) = true ->
   discountRate (ratiosOf t) = 0%float).
Proof.
  split; intros H; apply truthy_false_iff in H; unfold ratiosOf; cbn; rewrite H; auto.
Qed.

Lemma ratiosOf_quotient (t : Amounts) :
  (isZero (aTransactions t) = false -> isNaN (aTransactions t) = false ->
   netPerTransaction (ratiosOf t) = (aNet t / aTransactions t)%float /\
   tipsPerTransaction (ratiosOf t) = (aTips t / aTransactions t)%float) /\
  (isZero (aGross t) = false -> isNaN (aGross t) = false ->
   discountRate (ratiosOf t) = (aDiscounts t / aGross t)%float).
Proof.
  split; intros Hz Hn; pose proof (proj2 (truthy_true_iff _) (conj Hz Hn)) as H;
    unfold ratiosOf; cbn; rewrite H; auto.
Qed.

(** C7 (as amended). In the summary of every successful run, a ratio whose
    denominator total is zero or [NaN] is 0 ([netPerTransaction] and
    [tipsPerTransaction] on [totals.transactions], [discountRate] on
    [totals.gross]); with any other denominator it is the quotient of the
    two totals. *)
Theorem ratios_zero_guard (legacy : string -> option Z)
    (rows : list RawRow) (daily : list DailyAggregate) (s : Summary) :
  aggregate legacy rows = Returned daily s ->
  let t := totals s in
  let r := ratios s in
  (isZero (aTransactions t) = true \/ isNaN (aTransactions t) = true ->
   netPerTransaction r = 0%float /\ tipsPerTransaction r = 0%float) /\
  (isZero (aGross t) = true \/ isNaN (aGross t) = true -> discountRate r = 0%float) /\
  (isZero (aTransactions t) = false -> isNaN (aTransactions t) = false ->
   netPerTransaction r = (aNet t / aTransactions t)%float /\
   tipsPerTransaction r = (aTips t / aTransactions t)%float) /\
  (isZero (aGross t) = false -> isNaN (aGross t) = false ->
   discountRate r = (aDiscounts t / aGross t)%float).
Proof.
  intros H. apply aggregate_Returned in H.
  destruct H as (row0 & rest & c & _ & _ & _ & _ & _ & _ & ->).
  cbn [totals ratios summaryOf].
  pose proof (ratiosOf_zero_or_nan (sumDaily daily)) as [A B].
  pose proof (ratiosOf_quotient (sumDaily daily)) as [C D].
  repeat split; (apply A || apply B || apply C || apply D); assumption.
Qed.

Lemma ratios_zero_guard_witness :
  match aggregate isoOnly scenarioA with
  | Returned _ s =>
      discountRate (ratios s) = (aDiscounts (totals s) / aGross (totals s))%float
  | Threw _ => False
  end.
Proof.
  destruct (aggregate isoOnly scenarioA) as [msg | daily s] eqn:E.
  - vm_compute in E. discriminate E.
  - pose proof (ratios_zero_guard isoOnly scenarioA daily s E) as H.
    vm_compute in E. injection E as <- <-.
    apply H; vm_compute; reflexivity.
Defined.

(** On every host the transactions of [overflowRows] total [NaN]:
    [netPerTransaction] is 0, and the quotient of the totals is [NaN]. *)
Lemma overflowRows_every_host (legacy : string -> option Z) :
  exists daily s,
    aggregate legacy overflowRows = Returned daily s /\
    (aTransactions (totals s) =? 0)%float = false /\
    isNaN (aTransactions (totals s)) = true /\
    netPerTransaction (ratios s) = 0%float /\
    isNaN (aNet (totals s) / aTransactions (totals s))%float = true.
Proof.
  rewrite aggregate_eq. cbn [overflowRows keys map fst].
  rewrite detectDateColumn_first.
  - eexists. eexists. split; [vm_compute; reflexivity |]. repeat split.
  - discriminate.
  - intros row [<- | [<- | [<- | [<- | []]]]]; vm_compute; reflexivity.
Qed.

(** The claim C7 as stated fails: on [overflowRows] the total of
    transactions is [NaN], which is not zero, and [netPerTransaction] is 0
    while the quotient [totals.net / totals.transactions] is [NaN]. *)
Lemma ratios_nan_denominator :
  ~ (forall legacy rows daily s,
        aggregate legacy rows = Returned daily s ->
        ((aTransactions (totals s) =? 0)%float = false ->
         netPerTransaction (ratios s)
         = (aNet (totals s) / aTransactions (totals s))%float)).
Proof.
  intros H.
  destruct (overflowRows_every_host isoOnly) as (daily & s & E & Hz & _ & Hr & Hq).
  specialize (H isoOnly overflowRows daily s E Hz).
  rewrite Hr in H. rewrite <- H in Hq. vm_compute in Hq. discriminate Hq.
Qed.

(** ** Operating days and calendar days *)

(** The day number (days since 1970-01-01) that a date string names for
    [new Date]; [None] when the string is not a date. *)
Definition dayNumber (legacy : string -> option Z) (k : string) : option Z :=
  option_map (fun t => t / Date.msPerDay) (Date.parse legacy k).

Section Span.

Variable legacy : string -> option Z.

Lemma roundDiv_days x : roundDiv (x * Date.msPerDay) Date.msPerDay = x.
Proof.
  unfold roundDiv, Date.msPerDay. symmetry.
  apply (Z.div_unique _ _ x 86400000); lia.
Qed.

Lemma last_cons {A} (x y : A) (l : list A) (d : A) : last (x :: y :: l) d = last (y :: l) d.
Proof. reflexivity. Qed.

Lemma last_default {A} (x : A) (l : list A) (d d' : A) : last (x :: l) d = last (x :: l) d'.
Proof.
  revert x. induction l as [| y l IH]; intros x; [reflexivity |].
  rewrite !last_cons. apply IH.
Qed.

Lemma last_In {A} (x : A) (l : list A) (d : A) : In (last (x :: l) d) (x :: l).
Proof.
  revert x. induction l as [| y l IH]; intros x; [left; reflexivity |].
  rewrite last_cons. right. apply IH.
Qed.

(** A strictly increasing sequence of [n] integers spans at least [n]. *)
Lemma span_increasing {A} (f : A -> Z) (x : A) (l : list A) :
  StronglySorted (fun a b => f a < f b) (x :: l) ->
  Z.of_nat (List.length (x :: l)) <= f (last (x :: l) x) - f x + 1.
Proof.
  revert x. induction l as [| y l IH]; intros x Hs; [cbn; lia |].
  inversion Hs as [| ? ? Hl Hall]; subst.
  specialize (IH y Hl). rewrite last_cons, (last_default y l x y).
  inversion Hall as [| ? ? Hxy _]; subst.
  cbn [List.length] in *. lia.
Qed.

(** A plain date of the daily sequence names its own day to [new Date],
    on every host. *)
Lemma plain_dayNumber t :
  plainDate (isoDay t) = true ->
  Date.parse legacy (isoDay t) = Some (t / Date.msPerDay * Date.msPerDay) /\
  dayNumber legacy (isoDay t) = Some (t / Date.msPerDay).
Proof.
  intros H. unfold dayNumber. rewrite (parse_isoDay legacy t H). split; [reflexivity |].
  cbn [option_map]. f_equal. apply Z.div_mul. discriminate.
Qed.

Lemma dailyOf_isoDay rows c cols e :
  In e (dailyOf legacy rows c cols) -> exists t, dateISO e = isoDay t.
Proof.
  intros H. assert (Hk : In (dateISO e) (map dateISO (dailyOf legacy rows c cols))).
  { apply in_map. exact H. }
  apply dailyOf_keys in Hk. destruct Hk as (row & _ & Hk).
  exact (tryParseDate_isoDay legacy _ _ Hk).
Qed.

End Span.

(** C4 (as amended). For every successful run whose Daily Aggregates all
    have a date of the form [YYYY-MM-DD] (a year from 0000 to 9999):
    [operatingDays] is the number of Daily Aggregates and is at least 1,
    [calendarDays] is the day number of the last date minus that of the
    first, plus 1, and is at least [operatingDays]; so both divisors are
    positive. *)
Theorem calendarDays_ge_operatingDays (legacy : string -> option Z)
    (rows : list RawRow) (daily : list DailyAggregate) (s : Summary) :
  aggregate legacy rows = Returned daily s ->
  Forall (fun d => plainDate (dateISO d) = true) daily ->
  exists first final dFirst dLast,
    hd_error daily = Some first /\ last daily first = final /\
    dayNumber legacy (dateISO first) = Some dFirst /\
    dayNumber legacy (dateISO final) = Some dLast /\
    operatingDays s = Z.of_nat (List.length daily) /\
    calendarDays s = Some (dLast - dFirst + 1) /\
    1 <= operatingDays s <= dLast - dFirst + 1.
Proof.
  intros H Hplain.
  apply aggregate_Returned in H.
  destruct H as (row0 & rest & c & -> & _ & _ & _ & Hdaily & Hne & ->).
  fold (dailyOf legacy (row0 :: rest) c
          (detectMetricColumns (row0 :: rest) (keys row0))) in Hdaily.
  pose proof (dailyOf_sorted legacy (row0 :: rest) c
                (detectMetricColumns (row0 :: rest) (keys row0))) as [Hsorted _].
  rewrite <- Hdaily in Hsorted.
  assert (Hiso : forall e, In e daily ->
            exists t, dateISO e = isoDay t /\ plainDate (isoDay t) = true).
  { intros e He. rewrite Forall_forall in Hplain. specialize (Hplain e He).
    rewrite Hdaily in He. destruct (dailyOf_isoDay legacy _ _ _ _ He) as [t Ht].
    exists t. split; [exact Ht | rewrite <- Ht; exact Hplain]. }
  destruct daily as [| first l]; [contradiction Hne; reflexivity |].
  set (f := fun e => match dayNumber legacy (dateISO e) with Some d => d | None => 0 end).
  assert (Hf : forall e, In e (first :: l) -> dayNumber legacy (dateISO e) = Some (f e)).
  { intros e He. destruct (Hiso e He) as (t & Ht & Hp). unfold f.
    rewrite Ht, (proj2 (plain_dayNumber legacy t Hp)). reflexivity. }
  assert (Hinc : StronglySorted (fun a b => f a < f b) (first :: l)).
  { apply (StronglySorted_weaken dateLt); [| exact Hsorted].
    intros a b Ha Hb Hab.
    destruct (Hiso a Ha) as (ta & Ea & Pa). destruct (Hiso b Hb) as (tb & Eb & Pb).
    unfold f. unfold dateLt in Hab. rewrite Ea, Eb in *.
    rewrite (proj2 (plain_dayNumber legacy ta Pa)), (proj2 (plain_dayNumber legacy tb Pb)).
    rewrite (compare_isoDay ta tb Pa Pb) in Hab. apply Z.compare_lt_iff. exact Hab. }
  pose proof (span_increasing f first l Hinc) as Hspan.
  pose proof (last_In first l first) as Hlast.
  remember (last (first :: l) first) as final eqn:Efinal.
  exists first, final, (f first), (f final).
  split; [reflexivity |]. split; [symmetry; exact Efinal |].
  split; [apply Hf; left; reflexivity |]. split; [apply Hf; exact Hlast |].
  split; [reflexivity |].
  unfold summaryOf. cbn [operatingDays calendarDays].
  split.
  - unfold spanDays. rewrite <- Efinal.
    destruct (Hiso first (or_introl eq_refl)) as (t1 & E1 & P1).
    destruct (Hiso _ Hlast) as (t2 & E2 & P2).
    pose proof (Hf first (or_introl eq_refl)) as F1. pose proof (Hf _ Hlast) as F2.
    rewrite E1, (proj2 (plain_dayNumber legacy t1 P1)) in F1.
    rewrite E2, (proj2 (plain_dayNumber legacy t2 P2)) in F2.
    injection F1 as F1. injection F2 as F2.
    rewrite E1, E2, (proj1 (plain_dayNumber legacy t1 P1)),
      (proj1 (plain_dayNumber legacy t2 P2)).
    rewrite <- F1, <- F2, <- Z.mul_sub_distr_r, roundDiv_days. reflexivity.
  - cbn [List.length] in *. lia.
Qed.

Lemma calendarDays_ge_operatingDays_witness :
  match aggregate isoOnly scenarioA with
  | Returned daily s =>
      Forall (fun d => plainDate (dateISO d) = true) daily /\
      exists first final dFirst dLast,
        hd_error daily = Some first /\ last daily first = final /\
        dayNumber isoOnly (dateISO first) = Some dFirst /\
        dayNumber isoOnly (dateISO final) = Some dLast /\
        operatingDays s = Z.of_nat (List.length daily) /\
        calendarDays s = Some (dLast - dFirst + 1) /\
        1 <= operatingDays s <= dLast - dFirst + 1
  | Threw _ => False
  end.
Proof.
  destruct (aggregate isoOnly scenarioA) as [msg | daily s] eqn:E.
  - vm_compute in E. discriminate E.
  - assert (Hp : Forall (fun d => plainDate (dateISO d) = true) daily).
    { vm_compute in E. injection E as <- <-. repeat constructor. }
    split; [exact Hp |].
    exact (calendarDays_ge_operatingDays isoOnly scenarioA daily s E Hp).
Defined.

(** On every host the two days of [bcRows] are kept as ["-000001-06"] and
    ["-000002-06"], sorted in that order, and span -364 calendar days. *)
Lemma bcRows_every_host (legacy : string -> option Z) :
  exists daily s,
    aggregate legacy bcRows = Returned daily s /\
    map dateISO daily = ["-000001-06"; "-000002-06"] /\
    operatingDays s = 2 /\ calendarDays s = Some (-364).
Proof.
  rewrite aggregate_eq. cbn [bcRows keys map fst].
  rewrite detectDateColumn_first.
  - eexists. eexists. split; [vm_compute; reflexivity |]. repeat split.
  - discriminate.
  - intros row [<- | [<- | []]]; vm_compute; reflexivity.
Qed.

(** On every host the two days of [y10kRows] are kept as ["+010000-01"]
    and ["9999-12-31"], sorted in that order, and span 0 calendar days. *)
Lemma y10kRows_every_host (legacy : string -> option Z) :
  exists daily s,
    aggregate legacy y10kRows = Returned daily s /\
    map dateISO daily = ["+010000-01"; "9999-12-31"] /\
    operatingDays s = 2 /\ calendarDays s = Some 0.
Proof.
  rewrite aggregate_eq. cbn [y10kRows keys map fst].
  rewrite detectDateColumn_first.
  - eexists. eexists. split; [vm_compute; reflexivity |]. repeat split.
  - discriminate.
  - intros row [<- | [<- | []]]; vm_compute; reflexivity.
Qed.

(** The claim C4 as stated fails: [bcRows] aggregates to two operating
    days and -364 calendar days, and [y10kRows] to two operating days and
    0 calendar days, the divisor of [perCalendarDay]. *)
Lemma calendarDays_below_operatingDays :
  (exists daily s,
      aggregate isoOnly bcRows = Returned daily s /\
      operatingDays s = 2 /\ calendarDays s = Some (-364)) /\
  (exists daily s,
      aggregate isoOnly y10kRows = Returned daily s /\
      operatingDays s = 2 /\ calendarDays s = Some 0).
Proof.
  split.
  - destruct (bcRows_every_host isoOnly) as (daily & s & E & _ & Ho & Hc). eauto.
  - destruct (y10kRows_every_host isoOnly) as (daily & s & E & _ & Ho & Hc). eauto.
Qed.

(** ** One role per column *)

(** C2 fails on the code.  On every host, for [noDiscountRows]: the date
    column is [Date], and [Date] is also the column selected for
    [discounts] (it is the first column left with a numeric-looking cell,
    and [detectMetricColumns] is given all the headers, the date column
    included); [parseNumber] reads 2024 in each of its cells, so the total
    of discounts is 4048. *)
Theorem date_column_also_metric_column (legacy : string -> option Z) :
  let headers := keys (hd [] noDiscountRows) in
  detectDateColumn legacy noDiscountRows headers = Some "Date" /\
  column (detectMetricColumns noDiscountRows headers) discounts = Some "Date" /\
  exists daily s,
    aggregate legacy noDiscountRows = Returned daily s /\
    aDiscounts (totals s) = 4048%float.
Proof.
  cbv zeta.
  assert (Hd : detectDateColumn legacy noDiscountRows (keys (hd [] noDiscountRows))
               = Some "Date").
  { cbn [noDiscountRows hd keys map fst]. apply detectDateColumn_first.
    - discriminate.
    - intros row [<- | [<- | []]]; vm_compute; reflexivity. }
  split; [exact Hd |]. split; [vm_compute; reflexivity |].
  rewrite aggregate_eq. cbn [noDiscountRows hd] in Hd |- *. rewrite Hd.
  eexists. eexists. split; [vm_compute; reflexivity | reflexivity].
Qed.

(** No column is selected for two metric keys. *)
Theorem metric_columns_distinct (rows : list RawRow) (headers : list string)
    (m1 m2 : MetricKey) (c : string) :
  column (detectMetricColumns rows headers) m1 = Some c ->
  column (detectMetricColumns rows headers) m2 = Some c ->
  m1 = m2.
Proof. apply apart_detectMetricColumns. Qed.

Lemma metric_columns_distinct_witness :
  column (detectMetricColumns scenarioA (keys (hd [] scenarioA))) gross = Some "Total Sales" /\
  gross = gross.
Proof.
  split; [vm_compute; reflexivity |].
  apply (metric_columns_distinct scenarioA (keys (hd [] scenarioA)) gross gross "Total Sales");
    vm_compute; reflexivity.
Defined.

(** ** Dates and the zone of the host *)

(** C5 fails on the code.  [tryParseDate] gives the UTC day of the instant
    that [new Date] reads, and a host reads ["01/15/2024"] as midnight in
    its own zone: east of UTC (here Berlin, Tokyo and Sydney in January,
    60, 540 and 660 minutes) the result is ["2024-01-14"], not
    ["2024-01-15"]; at UTC and west of it (New York, -300) it is
    ["2024-01-15"]. *)
Theorem tryParseDate_local_midnight :
  tryParseDate (usDateHost 60) (Some "01/15/2024") = Some "2024-01-14" /\
  tryParseDate (usDateHost 540) (Some "01/15/2024") = Some "2024-01-14" /\
  tryParseDate (usDateHost 660) (Some "01/15/2024") = Some "2024-01-14" /\
  tryParseDate (usDateHost 0) (Some "01/15/2024") = Some "2024-01-15" /\
  tryParseDate (usDateHost (-300)) (Some "01/15/2024") = Some "2024-01-15".
Proof. repeat split; vm_compute; reflexivity. Qed.

(** What holds of [tryParseDate] on every host: it is total; a cell that
    is absent, empty or blank gives [null]; when [new Date] rejects the
    cell with its slashes turned to dashes, the result is that of the part
    of the trimmed cell before its first white space or [T]; and a date in
    the standard format is returned as it is (["2024-01-15"]). *)
Theorem tryParseDate_retry (legacy : string -> option Z) (raw : string) :
  let value := Js.trim raw in
  tryParseDate legacy None = None /\
  (value = "" -> tryParseDate legacy (Some raw) = None) /\
  (value <> "" ->
   Date.parse legacy (Js.replaceChar "/" "-" value) = None ->
   tryParseDate legacy (Some raw)
   = option_map isoDay (Date.parse legacy (Js.beforeFirst isSpaceOrT value))) /\
  (value <> "" ->
   forall t, Date.parse legacy (Js.replaceChar "/" "-" value) = Some t ->
             tryParseDate legacy (Some raw) = Some (isoDay t)) /\
  tryParseDate legacy (Some "2024-01-15") = Some "2024-01-15".
Proof.
  cbv zeta. unfold tryParseDate.
  split; [reflexivity |]. split; [| split; [| split]].
  - intros E. rewrite E. destruct (String.eqb raw ""); reflexivity.
  - intros Hv Hp. destruct (String.eqb_spec raw "") as [-> | _]; [contradiction Hv; reflexivity |].
    destruct (String.eqb_spec (Js.trim raw) "") as [E | _]; [contradiction |].
    rewrite Hp. destruct (Date.parse legacy _); reflexivity.
  - intros Hv t Hp. destruct (String.eqb_spec raw "") as [-> | _]; [contradiction Hv; reflexivity |].
    destruct (String.eqb_spec (Js.trim raw) "") as [E | _]; [contradiction |].
    rewrite Hp. reflexivity.
  - vm_compute. reflexivity.
Qed.

Lemma tryParseDate_retry_witness :
  tryParseDate isoOnly (Some "2024-01-15 09:30")
  = option_map isoDay (Date.parse isoOnly "2024-01-15").
Proof.
  apply (proj1 (proj2 (proj2 (tryParseDate_retry isoOnly "2024-01-15 09:30")))).
  - vm_compute. discriminate.
  - vm_compute. reflexivity.
Defined.

(** On a host that reads ["01/15/2024"] as local midnight, the result is
    the day before in every zone east of UTC (up to UTC+14:00), and the day
    itself from UTC-12:00 to UTC. *)
Theorem tryParseDate_by_zone (offset : Z) :
  -720 <= offset <= 840 ->
  tryParseDate (usDateHost offset) (Some "01/15/2024")
  = Some (if 0 <? offset then "2024-01-14" else "2024-01-15").
Proof.
  intros Ho.
  assert (E : tryParseDate (usDateHost offset) (Some "01/15/2024")
              = Some (isoDay (19737 * Date.msPerDay - offset * 60000))).
  { unfold tryParseDate.
    replace (String.eqb "01/15/2024" "") with false by (vm_compute; reflexivity).
    replace (Js.trim "01/15/2024") with "01/15/2024" by (vm_compute; reflexivity).
    replace (String.eqb "01/15/2024" "") with false by (vm_compute; reflexivity).
    replace (Js.replaceChar "/" "-" "01/15/2024") with "01-15-2024"
      by (vm_compute; reflexivity).
    unfold Date.parse.
    replace (Date.parseISODate "01-15-2024") with (@None Z) by (vm_compute; reflexivity).
    replace (usDateHost offset "01-15-2024")
      with (Some (19737 * Date.msPerDay - offset * 60000)) by reflexivity.
    unfold Date.timeClip, Date.maxTime, Date.msPerDay.
    destruct (Z.leb_spec (Z.abs (19737 * 86400000 - offset * 60000)) 8640000000000000);
      [reflexivity | lia]. }
  rewrite E. f_equal.
  pose proof (isoDay_plain (19737 * Date.msPerDay - offset * 60000)) as P.
  destruct (Z.ltb_spec 0 offset) as [L | L].
  - replace ((19737 * Date.msPerDay - offset * 60000) / Date.msPerDay) with 19736 in P
      by (unfold Date.msPerDay; Z.div_mod_to_equations; lia).
    apply P. vm_compute. split; discriminate.
  - replace ((19737 * Date.msPerDay - offset * 60000) / Date.msPerDay) with 19737 in P
      by (unfold Date.msPerDay; Z.div_mod_to_equations; lia).
    apply P. vm_compute. split; discriminate.
Qed.

Lemma tryParseDate_by_zone_witness :
  tryParseDate (usDateHost 120) (Some "01/15/2024") = Some "2024-01-14".
Proof. apply (tryParseDate_by_zone 120). lia. Defined.

(** ** The end-to-end scenario A *)

(** On every host, scenario A of the specification gives two operating
    days over three calendar days, a gross total of 300 and a net total of
    270, a discount rate of 5/300 and 40/25 tips per transaction, and the
    four signals: the gap between operating and calendar days, revenue led
    by ticket size, light discounts and steady tips. *)
Theorem scenarioA_summary (legacy : string -> option Z) :
  exists daily s,
    aggregate legacy scenarioA = Returned daily s /\
    map dateISO daily = ["2024-01-01"; "2024-01-03"] /\
    operatingDays s = 2 /\ calendarDays s = Some 3 /\
    aGross (totals s) = 300%float /\ aNet (totals s) = 270%float /\
    discountRate (ratios s) = (5 / 300)%float /\
    tipsPerTransaction (ratios s) = (40 / 25)%float /\
    signals s = [msgGap 2 (Some 3); msgTicket; msgDiscountLight; msgTipsSteady].
Proof.
  rewrite aggregate_eq. cbn [scenarioA keys map fst].
  rewrite detectDateColumn_first.
  - eexists. eexists. split; [vm_compute; reflexivity |]. repeat split.
  - discriminate.
  - intros row [<- | [<- | []]]; vm_compute; reflexivity.
Qed.

(** ** Numbers: the kinds of a double *)

Section Doubles.

Lemma SFcompare_refl (x : spec_float) : x <> S754_nan -> SFcompare x x = Some Eq.
Proof.
  destruct x as [s | s | | s m e]; intros H; cbn; try reflexivity.
  - destruct s; reflexivity.
  - contradiction H; reflexivity.
  - rewrite Z.compare_refl, Pos.compare_cont_refl. destruct s; reflexivity.
Qed.

Lemma isNaN_true_iff (x : float) : isNaN x = true <-> Prim2SF x = S754_nan.
Proof.
  unfold isNaN, PrimFloat.is_nan. rewrite FloatAxioms.eqb_spec, negb_true_iff. unfold SFeqb.
  destruct (Prim2SF x) as [s | s | | s m e] eqn:E.
  - cbn. split; discriminate.
  - rewrite SFcompare_refl by discriminate. split; discriminate.
  - cbn. tauto.
  - rewrite SFcompare_refl by discriminate. split; discriminate.
Qed.

Lemma isNaN_false_iff (x : float) : isNaN x = false <-> Prim2SF x <> S754_nan.
Proof.
  rewrite <- isNaN_true_iff. destruct (isNaN x); split; congruence.
Qed.

(** [Infinity] or [-Infinity]. *)
Definition isInfinite (x : float) : bool := PrimFloat.is_infinity x.

Lemma isInfinite_true_iff (x : float) :
  isInfinite x = true <-> exists s, Prim2SF x = S754_infinity s.
Proof.
  unfold isInfinite, PrimFloat.is_infinity. rewrite FloatAxioms.eqb_spec, FloatAxioms.abs_spec.
  change (Prim2SF infinity) with (S754_infinity false).
  destruct (Prim2SF x) as [s | s | | s m e]; cbn.
  - split; [discriminate | intros [s' E]; discriminate E].
  - split; [eauto | reflexivity].
  - split; [discriminate | intros [s' E]; discriminate E].
  - split; [discriminate | intros [s' E]; discriminate E].
Qed.

Lemma isFinite_true_iff (x : float) :
  Num.isFinite x = true <-> isNaN x = false /\ isInfinite x = false.
Proof.
  unfold Num.isFinite, PrimFloat.is_finite, isNaN, isInfinite.
  rewrite negb_true_iff, orb_false_iff. reflexivity.
Qed.

Lemma isFinite_kind (x : float) :
  Num.isFinite x = true ->
  (exists s, Prim2SF x = S754_zero s) \/ (exists s m e, Prim2SF x = S754_finite s m e).
Proof.
  intros H. apply isFinite_true_iff in H. destruct H as [Hn Hi].
  apply isNaN_false_iff in Hn.
  destruct (Prim2SF x) as [s | s | | s m e] eqn:E; eauto.
  - assert (K : isInfinite x = true) by (apply isInfinite_true_iff; eauto). congruence.
  - contradiction Hn; reflexivity.
Qed.

Lemma shr_1_nonneg mrs : 0 <= shr_m mrs -> 0 <= shr_m (shr_1 mrs).
Proof.
  destruct mrs as [m r s]. cbn [shr_m]. intros H.
  destruct m as [| [p | p |] | p]; cbn; lia.
Qed.

Lemma iter_shr_1_nonneg p mrs : 0 <= shr_m mrs -> 0 <= shr_m (iter_pos shr_1 p mrs).
Proof.
  revert mrs. induction p as [p IH | p IH |]; intros mrs H; cbn [iter_pos].
  - apply IH, IH, shr_1_nonneg, H.
  - apply IH, IH, H.
  - apply shr_1_nonneg, H.
Qed.

Lemma shr_fexp_nonneg m e l :
  0 <= m -> 0 <= shr_m (fst (shr_fexp prec emax m e l)).
Proof.
  intros H. unfold shr_fexp, shr.
  assert (K : 0 <= shr_m (shr_record_of_loc m l)).
  { destruct l as [| []]; exact H. }
  destruct (fexp prec emax (Zdigits2 m + e) - e); cbn [fst]; try exact K.
  apply iter_shr_1_nonneg, K.
Qed.

Lemma round_nearest_even_nonneg m l : 0 <= m -> 0 <= round_nearest_even m l.
Proof.
  intros H. unfold round_nearest_even.
  destruct l as [| []]; try lia. destruct (IntDef.Z.even m); lia.
Qed.

(** Rounding a non-negative mantissa gives a zero, a finite number or an
    infinity. *)
Lemma binary_round_aux_not_nan sx mx ex lx :
  0 <= mx -> binary_round_aux prec emax sx mx ex lx <> S754_nan.
Proof.
  intros H. unfold binary_round_aux.
  pose proof (shr_fexp_nonneg mx ex lx H) as K1.
  destruct (shr_fexp prec emax mx ex lx) as [mrs' e']. cbn [fst] in K1.
  pose proof (shr_fexp_nonneg _ e' loc_Exact
                (round_nearest_even_nonneg _ (loc_of_shr_record mrs') K1)) as K2.
  destruct (shr_fexp prec emax _ e' loc_Exact) as [mrs'' e'']. cbn [fst] in K2.
  destruct (shr_m mrs'') as [| p | p]; [discriminate | | lia].
  destruct (e'' <=? emax - prec); discriminate.
Qed.

Lemma binary_normalize_not_nan m e szero :
  binary_normalize prec emax m e szero <> S754_nan.
Proof.
  unfold binary_normalize, binary_round.
  destruct m as [| p | p]; [discriminate | |];
    destruct (shl_align _ _ _) as [mz ez]; apply binary_round_aux_not_nan; lia.
Qed.

(** The sum of a number that is not [NaN] and a finite number is not
    [NaN]. *)
Lemma add_finite_not_nan (x y : float) :
  isNaN x = false -> Num.isFinite y = true -> isNaN (x + y) = false.
Proof.
  intros Hx Hy. apply isNaN_false_iff in Hx. apply isNaN_false_iff.
  rewrite FloatAxioms.add_spec. unfold FloatAxioms.SF64add, SFadd.
  destruct (isFinite_kind y Hy) as [[sy ->] | (sy & my & ey & ->)];
    destruct (Prim2SF x) as [sx | sx | | sx mx ex]; try discriminate;
    try (contradiction Hx; reflexivity).
  - destruct sx, sy; discriminate.
  - apply binary_normalize_not_nan.
Qed.

(** A sum of two numbers that are not [NaN] is [NaN] only when both are
    infinite. *)
Lemma add_nan_infinite (x y : float) :
  isNaN x = false -> isNaN y = false -> isNaN (x + y) = true ->
  isInfinite x = true /\ isInfinite y = true.
Proof.
  intros Hx Hy H. apply isNaN_false_iff in Hx, Hy. apply isNaN_true_iff in H.
  rewrite FloatAxioms.add_spec in H. unfold FloatAxioms.SF64add, SFadd in H.
  rewrite !isInfinite_true_iff.
  destruct (Prim2SF x) as [sx | sx | | sx mx ex]; try (contradiction Hx; reflexivity);
    destruct (Prim2SF y) as [sy | sy | | sy my ey]; try (contradiction Hy; reflexivity);
    try discriminate H; eauto.
  - destruct sx, sy; discriminate H.
  - exfalso. exact (binary_normalize_not_nan _ _ _ H).
Qed.

End Doubles.

(** ** The amounts of a day *)

Lemma amount_setAmount_same m x a : amount (setAmount m x a) m = x.
Proof. destruct m; reflexivity. Qed.

Lemma amount_setAmount_other m m' x a : m <> m' -> amount (setAmount m x a) m' = amount a m'.
Proof. destruct m, m'; intros H; try reflexivity; contradiction H; reflexivity. Qed.

(** What one record adds to the accumulator of [m]: the number in its cell
    of the column selected for [m]; nothing without a column. *)
Definition contribution (cols : Columns) (row : RawRow) (m : MetricKey) (x : float) : float :=
  match column cols m with
  | Some h => if String.eqb h "" then x else (x + parseNumber (ofLookup (get row h)))%float
  | None => x
  end.

Lemma addMetric_amount cols row a m' m :
  amount (addMetric cols row a m') m
  = if MetricKey_eq_dec m' m then contribution cols row m (amount a m) else amount a m.
Proof.
  unfold addMetric, contribution.
  destruct (MetricKey_eq_dec m' m) as [<- | N].
  - destruct (column cols m') as [h |]; cbn [Js.truthy negb]; [| reflexivity].
    destruct (String.eqb h ""); cbn [negb]; [reflexivity |].
    apply amount_setAmount_same.
  - destruct (column cols m') as [h |]; cbn [Js.truthy negb]; [| reflexivity].
    destruct (String.eqb h ""); cbn [negb]; [reflexivity |].
    apply amount_setAmount_other. exact N.
Qed.

Lemma addAll_amount cols row a m :
  amount (fold_left (addMetric cols row) allMetrics a) m = contribution cols row m (amount a m).
Proof.
  unfold allMetrics. cbn [fold_left]. rewrite !addMetric_amount.
  destruct m; cbn; reflexivity.
Qed.

Section DayAmounts.

Variable legacy : string -> option Z.
Variable c : string.
Variable cols : Columns.

(** Whether the cell of a record in the date column resolves to [k]. *)
Definition onDay (k : string) (row : RawRow) : bool :=
  match tryParseDate legacy (get row c) with
  | Some k' => String.eqb k' k
  | None => false
  end.

(** The records of the day [k], in the order of the input. *)
Definition rowsOfDay (k : string) (rows : list RawRow) : list RawRow :=
  filter (onDay k) rows.

(** The sum, from [start] and in order, of [parseNumber] over the cells of
    the column [h]. *)
Definition columnSum (h : string) (rows : list RawRow) (start : float) : float :=
  fold_left (fun acc row => (acc + parseNumber (ofLookup (get row h)))%float) rows start.

(** The accumulators of a day after its records. *)
Definition dayAmounts (rows : list RawRow) (a : Amounts) : Amounts :=
  fold_left (fun a row => fold_left (addMetric cols row) allMetrics a) rows a.

Lemma dayAmounts_amount rows a m :
  amount (dayAmounts rows a) m
  = match column cols m with
    | Some h => if String.eqb h "" then amount a m else columnSum h rows (amount a m)
    | None => amount a m
    end.
Proof.
  unfold dayAmounts, columnSum. revert a.
  induction rows as [| row rows IH]; intros a; cbn [fold_left].
  - destruct (column cols m) as [h |]; [destruct (String.eqb h "") |]; reflexivity.
  - rewrite IH, addAll_amount. unfold contribution.
    destruct (column cols m) as [h |]; [destruct (String.eqb h "") |]; reflexivity.
Qed.

Lemma bucketGet_key bucket k e : bucketGet bucket k = Some e -> dateISO e = k.
Proof.
  induction bucket as [| x r IH]; cbn [bucketGet]; [discriminate |].
  destruct (String.eqb_spec (dateISO x) k) as [E | N]; [| exact IH].
  intros H. injection H as <-. exact E.
Qed.

Lemma bucketGet_set_same bucket k v :
  dateISO v = k -> bucketGet (bucketSet bucket k v) k = Some v.
Proof.
  intros Hv. induction bucket as [| x r IH]; cbn [bucketSet bucketGet].
  - rewrite Hv, String.eqb_refl. reflexivity.
  - destruct (String.eqb_spec (dateISO x) k) as [E | N]; cbn [bucketGet].
    + rewrite Hv, String.eqb_refl. reflexivity.
    + apply String.eqb_neq in N. rewrite N. exact IH.
Qed.

Lemma bucketGet_set_other bucket k v k' :
  dateISO v = k -> k' <> k -> bucketGet (bucketSet bucket k v) k' = bucketGet bucket k'.
Proof.
  intros Hv Hk. induction bucket as [| x r IH]; cbn [bucketSet bucketGet].
  - rewrite Hv. apply String.eqb_neq in Hk. rewrite String.eqb_sym, Hk. reflexivity.
  - destruct (String.eqb_spec (dateISO x) k) as [E | N]; cbn [bucketGet].
    + rewrite Hv, E. apply String.eqb_neq in Hk. rewrite String.eqb_sym, Hk. reflexivity.
    + rewrite IH. reflexivity.
Qed.

Lemma bucketGet_In bucket e :
  NoDup (map dateISO bucket) -> In e bucket -> bucketGet bucket (dateISO e) = Some e.
Proof.
  induction bucket as [| x r IH]; cbn [map In bucketGet]; [tauto |].
  intros Hnd [-> | Hin]; [rewrite String.eqb_refl; reflexivity |].
  inversion Hnd as [| ? ? Hx Hnd']; subst.
  destruct (String.eqb_spec (dateISO x) (dateISO e)) as [E | N]; [| exact (IH Hnd' Hin)].
  exfalso. apply Hx. rewrite E. apply in_map. exact Hin.
Qed.

(** The entry of the day [k] after the records: the entry before them when
    none is of that day, else the accumulators of the day's records, from
    those of the entry before them, or from zero. *)
Lemma bucket_entry rows bucket k :
  bucketGet (fold_left (rowStep legacy c cols) rows bucket) k
  = match rowsOfDay k rows with
    | [] => bucketGet bucket k
    | rs =>
        Some (mkDaily k
                (dayAmounts rs
                   (amounts match bucketGet bucket k with
                            | Some e => e
                            | None => mkDaily k zeroAmounts
                            end)))
    end.
Proof.
  revert bucket. induction rows as [| row rows IH]; intros bucket; [reflexivity |].
  cbn [fold_left]. rewrite IH, rowStep_eq. unfold rowsOfDay. cbn [filter]. unfold onDay at 2.
  fold (rowsOfDay k rows).
  destruct (tryParseDate legacy (get row c)) as [k' |]; [| reflexivity].
  destruct (String.eqb_spec k' k) as [-> | N].
  - rewrite bucketGet_set_same by reflexivity. cbn [amounts].
    destruct (rowsOfDay k rows); reflexivity.
  - rewrite bucketGet_set_other by (try reflexivity; congruence). reflexivity.
Qed.

(** An entry of the daily sequence holds, for every metric key with a
    column, the sum of the column over the records of its day. *)
Lemma dailyOf_amount rows d m :
  In d (dailyOf legacy rows c cols) ->
  amount (amounts d) m
  = match column cols m with
    | Some h =>
        if String.eqb h "" then 0%float
        else columnSum h (rowsOfDay (dateISO d) rows) 0%float
    | None => 0%float
    end.
Proof.
  unfold dailyOf. intros Hin.
  apply (Permutation_in _ (sortDaily_perm _)) in Hin.
  apply bucketGet_In in Hin; [| apply (bucket_NoDup legacy); constructor].
  rewrite bucket_entry in Hin.
  change (bucketGet [] (dateISO d)) with (@None DailyAggregate) in Hin.
  destruct (rowsOfDay (dateISO d) rows) as [| r rs] eqn:E; [discriminate Hin |].
  assert (Ha : amounts d = dayAmounts (r :: rs) zeroAmounts).
  { injection Hin as Hin. rewrite <- Hin. reflexivity. }
  rewrite Ha, dayAmounts_amount. destruct m; reflexivity.
Qed.

End DayAmounts.

(** After every successful run, each Daily Aggregate holds, for every
    metric key that has a column, the sum from 0, in the order of the
    input, of [parseNumber] over the cells of that column in the records
    whose date cell resolves to its date; and 0 for a key without a
    column. *)
Theorem daily_amounts_grouped (legacy : string -> option Z)
    (rows : list RawRow) (daily : list DailyAggregate) (s : Summary) :
  aggregate legacy rows = Returned daily s ->
  exists c,
    detectDateColumn legacy rows (keys (hd [] rows)) = Some c /\
    forall d m,
      In d daily ->
      rowsOfDay legacy c (dateISO d) rows <> [] /\
      amount (amounts d) m
      = match column (detectMetricColumns rows (keys (hd [] rows))) m with
        | Some h =>
            if String.eqb h "" then 0%float
            else columnSum h (rowsOfDay legacy c (dateISO d) rows) 0%float
        | None => 0%float
        end.
Proof.
  intros H. apply aggregate_Returned in H.
  destruct H as (row0 & rest & c & -> & Hd & _ & _ & Hdaily & _ & _).
  fold (dailyOf legacy (row0 :: rest) c
          (detectMetricColumns (row0 :: rest) (keys row0))) in Hdaily.
  exists c. split; [exact Hd |]. intros d m Hin. rewrite Hdaily in Hin. split.
  - assert (Hk : In (dateISO d) (map dateISO (dailyOf legacy (row0 :: rest) c
                     (detectMetricColumns (row0 :: rest) (keys row0)))))
      by (apply in_map; exact Hin).
    apply dailyOf_keys in Hk. destruct Hk as (row & Hr & Hk).
    intros E. assert (Hf : In row (rowsOfDay legacy c (dateISO d) (row0 :: rest))).
    { apply filter_In. split; [exact Hr |]. unfold onDay. rewrite Hk. apply String.eqb_refl. }
    rewrite E in Hf. exact Hf.
  - apply dailyOf_amount. exact Hin.
Qed.

Lemma daily_amounts_grouped_witness :
  match aggregate isoOnly scenarioA with
  | Returned daily _ =>
      Forall
        (fun d =>
           amount (amounts d) gross
           = columnSum "Total Sales" (rowsOfDay isoOnly "Date" (dateISO d) scenarioA) 0%float)
        daily
  | Threw _ => False
  end.
Proof.
  destruct (aggregate isoOnly scenarioA) as [msg | daily s] eqn:E.
  - vm_compute in E. discriminate E.
  - apply Forall_forall. intros d Hd.
    destruct (daily_amounts_grouped isoOnly scenarioA daily s E) as (c & Hc & H).
    destruct (H d gross Hd) as [_ Ha].
    replace (detectDateColumn isoOnly scenarioA (keys (hd [] scenarioA)))
      with (Some "Date") in Hc by (vm_compute; reflexivity).
    injection Hc as <-.
    replace (column (detectMetricColumns scenarioA (keys (hd [] scenarioA))) gross)
      with (Some "Total Sales") in Ha by (vm_compute; reflexivity).
    exact Ha.
Defined.

(** ** Where [NaN] can come from *)

Lemma columnSum_not_nan h rows start :
  isNaN start = false -> isNaN (columnSum h rows start) = false.
Proof.
  unfold columnSum. revert start.
  induction rows as [| row rows IH]; intros start H; cbn [fold_left]; [exact H |].
  apply IH. apply add_finite_not_nan; [exact H | apply parseNumber_finite].
Qed.

(** A sum of numbers none of which is [NaN] is [NaN] only when one of them
    is infinite. *)
Lemma sum_nan_infinite {A} (f : A -> float) (l : list A) (start : float) :
  isNaN start = false ->
  (forall x, In x l -> isNaN (f x) = false) ->
  isNaN (fold_left (fun acc x => (acc + f x)%float) l start) = true ->
  exists x, In x l /\ isInfinite (f x) = true.
Proof.
  revert start. induction l as [| x l IH]; intros start Hs Hl H; cbn [fold_left] in H.
  - congruence.
  - destruct (isNaN (start + f x)%float) eqn:E.
    + exists x. split; [left; reflexivity |].
      apply (add_nan_infinite start (f x) Hs (Hl x (or_introl eq_refl)) E).
    + destruct (IH _ E (fun y Hy => Hl y (or_intror Hy)) H) as (y & Hy & Hi).
      exists y. split; [right; exact Hy | exact Hi].
Qed.

(** After every successful run no amount of a Daily Aggregate is [NaN]
    (an amount can be an infinity, when the sum of the day overflows); and
    a total is [NaN] only when the amount of some day is an infinity. *)
Theorem daily_amounts_never_nan (legacy : string -> option Z)
    (rows : list RawRow) (daily : list DailyAggregate) (s : Summary) :
  aggregate legacy rows = Returned daily s ->
  (forall d m, In d daily -> isNaN (amount (amounts d) m) = false) /\
  (forall m, isNaN (amount (totals s) m) = true ->
             exists d, In d daily /\ isInfinite (amount (amounts d) m) = true).
Proof.
  intros H. apply aggregate_Returned in H.
  destruct H as (row0 & rest & c & -> & _ & _ & _ & Hdaily & _ & ->).
  fold (dailyOf legacy (row0 :: rest) c
          (detectMetricColumns (row0 :: rest) (keys row0))) in Hdaily.
  assert (Hd : forall d m, In d daily -> isNaN (amount (amounts d) m) = false).
  { intros d m Hin. rewrite Hdaily in Hin. rewrite (dailyOf_amount legacy _ _ _ _ m Hin).
    destruct (column _ m) as [h |]; [| reflexivity].
    destruct (String.eqb h ""); [reflexivity |].
    apply columnSum_not_nan. reflexivity. }
  split; [exact Hd |].
  intros m Hn. cbn [totals summaryOf] in Hn. unfold sumDaily in Hn.
  rewrite sumDaily_amount in Hn.
  apply (sum_nan_infinite (fun d => amount (amounts d) m) daily (amount zeroAmounts m)).
  - destruct m; reflexivity.
  - intros d Hin. apply Hd. exact Hin.
  - exact Hn.
Qed.

Lemma daily_amounts_never_nan_witness :
  match aggregate isoOnly overflowRows with
  | Returned daily s =>
      (forall d m, In d daily -> isNaN (amount (amounts d) m) = false) /\
      isNaN (amount (totals s) transactions) = true /\
      exists d, In d daily /\ isInfinite (amount (amounts d) transactions) = true
  | Threw _ => False
  end.
Proof.
  destruct (aggregate isoOnly overflowRows) as [msg | daily s] eqn:E.
  - vm_compute in E. discriminate E.
  - destruct (daily_amounts_never_nan isoOnly overflowRows daily s E) as [H1 H2].
    assert (Hn : isNaN (amount (totals s) transactions) = true).
    { vm_compute in E. injection E as <- <-. reflexivity. }
    split; [exact H1 |]. split; [exact Hn |]. exact (H2 transactions Hn).
Defined.

(** ** A metric key without a column *)

Lemma isZero_true_iff (x : float) : isZero x = true <-> exists s, Prim2SF x = S754_zero s.
Proof.
  unfold isZero. rewrite FloatAxioms.eqb_spec. change (Prim2SF 0%float) with (S754_zero false).
  destruct (Prim2SF x) as [s | s | | s m e]; cbn.
  - split; [eauto | reflexivity].
  - destruct s; (split; [discriminate | intros [s' E]; discriminate E]).
  - split; [discriminate | intros [s' E]; discriminate E].
  - destruct s; (split; [discriminate | intros [s' E]; discriminate E]).
Qed.

(** Zero divided by a number that is neither zero nor [NaN] is zero. *)
Lemma zero_div (x g : float) :
  isZero x = true -> Num.truthy g = true -> isZero (x / g)%float = true.
Proof.
  intros Hx Hg. apply truthy_true_iff in Hg. destruct Hg as [Hz Hn].
  apply isZero_true_iff in Hx. destruct Hx as [sx Hx].
  apply isNaN_false_iff in Hn.
  assert (Hz' : ~ exists s, Prim2SF g = S754_zero s).
  { intros K. apply isZero_true_iff in K. congruence. }
  apply isZero_true_iff. rewrite FloatAxioms.div_spec, Hx. unfold FloatAxioms.SF64div, SFdiv.
  destruct (Prim2SF g) as [s | s | | s m e]; eauto.
  - contradiction Hz'. eauto.
  - contradiction Hn. reflexivity.
Qed.

Lemma discountNote_zero (r : Ratios) :
  isZero (discountRate r) = true -> discountNote r = msgDiscountLight.
Proof.
  intros H. apply isZero_true_iff in H. destruct H as [s H].
  unfold discountNote. rewrite FloatAxioms.leb_spec, FloatAxioms.ltb_spec, H. destruct s; vm_compute; reflexivity.
Qed.

Lemma tipsNote_zero (r : Ratios) :
  isZero (tipsPerTransaction r) = true -> tipsNote r = msgTipsSoft.
Proof.
  intros H. apply isZero_true_iff in H. destruct H as [s H].
  unfold tipsNote. rewrite FloatAxioms.ltb_spec, H. destruct s; vm_compute; reflexivity.
Qed.

Lemma sum_zero {A} (f : A -> float) (l : list A) :
  (forall x, In x l -> f x = 0%float) ->
  fold_left (fun acc x => (acc + f x)%float) l 0%float = 0%float.
Proof.
  induction l as [| x l IH]; intros H; cbn [fold_left]; [reflexivity |].
  rewrite (H x (or_introl eq_refl)). change (0 + 0)%float with 0%float.
  apply IH. intros y Hy. apply H. right. exact Hy.
Qed.

Lemma signals_summaryOf legacy daily :
  signals (summaryOf legacy daily)
  = buildSignals (operatingDays (summaryOf legacy daily)) (calendarDays (summaryOf legacy daily))
      (perOperatingDay (summaryOf legacy daily)) (ratios (summaryOf legacy daily)).
Proof. reflexivity. Qed.

(** After every successful run, a metric key for which no column was
    selected has the amount 0 in every Daily Aggregate and the total 0.
    Without a column for discounts the discount signal is the light one;
    without a column for tips the tips signal is the soft one; without a
    column for transactions both ratios per transaction are 0, there is no
    driver signal and the tips signal is the soft one. *)
Theorem metric_without_column_is_zero (legacy : string -> option Z)
    (rows : list RawRow) (daily : list DailyAggregate) (s : Summary) (m : MetricKey) :
  aggregate legacy rows = Returned daily s ->
  Js.truthy (column (detectMetricColumns rows (keys (hd [] rows))) m) = false ->
  (forall d, In d daily -> amount (amounts d) m = 0%float) /\
  amount (totals s) m = 0%float /\
  (m = discounts -> In msgDiscountLight (signals s)) /\
  (m = tips -> In msgTipsSoft (signals s)) /\
  (m = transactions ->
   netPerTransaction (ratios s) = 0%float /\ tipsPerTransaction (ratios s) = 0%float /\
   signals s = [normalizationNote (operatingDays s) (calendarDays s);
                discountNote (ratios s); msgTipsSoft]).
Proof.
  intros H Hm. apply aggregate_Returned in H.
  destruct H as (row0 & rest & c & -> & _ & _ & _ & Hdaily & _ & ->).
  cbn [hd] in Hm.
  fold (dailyOf legacy (row0 :: rest) c
          (detectMetricColumns (row0 :: rest) (keys row0))) in Hdaily.
  assert (Hd : forall d, In d daily -> amount (amounts d) m = 0%float).
  { intros d Hin. rewrite Hdaily in Hin. rewrite (dailyOf_amount legacy _ _ _ _ m Hin).
    destruct (column _ m) as [h |]; [| reflexivity].
    cbn [Js.truthy] in Hm. apply negb_false_iff in Hm. rewrite Hm. reflexivity. }
  assert (Ht : amount (totals (summaryOf legacy daily)) m = 0%float).
  { cbn [totals summaryOf]. unfold sumDaily. rewrite sumDaily_amount.
    replace (amount zeroAmounts m) with 0%float by (destruct m; reflexivity).
    apply sum_zero. exact Hd. }
  split; [exact Hd |]. split; [exact Ht |].
  rewrite signals_summaryOf, buildSignals_shape.
  split; [| split].
  - intros ->. cbn [amount] in Ht.
    assert (Hz : isZero (discountRate (ratios (summaryOf legacy daily))) = true).
    { cbn [ratios summaryOf ratiosOf discountRate]. cbn [totals summaryOf] in Ht.
      destruct (Num.truthy (aGross (sumDaily daily))) eqn:Eg; [| reflexivity].
      apply zero_div; [rewrite Ht; reflexivity | exact Eg]. }
    rewrite (discountNote_zero _ Hz).
    right. apply in_or_app. right. left. reflexivity.
  - intros ->. cbn [amount] in Ht.
    assert (Hz : isZero (tipsPerTransaction (ratios (summaryOf legacy daily))) = true).
    { cbn [ratios summaryOf ratiosOf tipsPerTransaction]. cbn [totals summaryOf] in Ht.
      destruct (Num.truthy (aTransactions (sumDaily daily))) eqn:Eg; [| reflexivity].
      apply zero_div; [rewrite Ht; reflexivity | exact Eg]. }
    rewrite (tipsNote_zero _ Hz).
    right. apply in_or_app. right. right. left. reflexivity.
  - intros ->. cbn [amount] in Ht. cbn [totals summaryOf] in Ht.
    assert (Hr : netPerTransaction (ratios (summaryOf legacy daily)) = 0%float /\
                 tipsPerTransaction (ratios (summaryOf legacy daily)) = 0%float).
    { cbn [ratios summaryOf ratiosOf netPerTransaction tipsPerTransaction].
      rewrite Ht. split; reflexivity. }
    destruct Hr as [Hn Hp]. split; [exact Hn |]. split; [exact Hp |].
    unfold driverGuard. rewrite Hn.
    replace (Num.truthy 0%float) with false by reflexivity.
    rewrite andb_false_r. cbn [andb app].
    rewrite (tipsNote_zero (ratios (summaryOf legacy daily))) by (rewrite Hp; reflexivity).
    reflexivity.
Qed.

Lemma metric_without_column_is_zero_witness :
  match aggregate isoOnly bcRows with
  | Returned daily s =>
      amount (totals s) transactions = 0%float /\
      signals s = [normalizationNote (operatingDays s) (calendarDays s);
                   discountNote (ratios s); msgTipsSoft]
  | Threw _ => False
  end.
Proof.
  destruct (aggregate isoOnly bcRows) as [msg | daily s] eqn:E.
  - vm_compute in E. discriminate E.
  - destruct (metric_without_column_is_zero isoOnly bcRows daily s transactions E)
      as (_ & Ht & _ & _ & Hs).
    + vm_compute. reflexivity.
    + split; [exact Ht | apply Hs; reflexivity].
Defined.

(** ** One and a half times a positive number *)

Section Rounding.

Lemma fexp_eq z : fexp prec emax z = Z.max (z - 53) (-1074).
Proof. reflexivity. Qed.

(** The number of binary digits of a positive integer. *)
Lemma digits2_pos_spec (p : positive) :
  2 ^ (Z.pos (digits2_pos p) - 1) <= Z.pos p < 2 ^ Z.pos (digits2_pos p).
Proof.
  induction p as [p IH | p IH |]; cbn [digits2_pos]; [| | cbn; lia].
  - rewrite Pos2Z.inj_succ.
    replace (Z.succ (Z.pos (digits2_pos p)) - 1) with (Z.succ (Z.pos (digits2_pos p) - 1)) by lia.
    rewrite !Z.pow_succ_r by lia. lia.
  - rewrite Pos2Z.inj_succ.
    replace (Z.succ (Z.pos (digits2_pos p)) - 1) with (Z.succ (Z.pos (digits2_pos p) - 1)) by lia.
    rewrite !Z.pow_succ_r by lia. lia.
Qed.

Lemma shr_1_half mrs : 0 <= shr_m mrs -> shr_m (shr_1 mrs) = shr_m mrs / 2.
Proof.
  destruct mrs as [m r s]. cbn [shr_m]. intros H.
  destruct m as [| [p | p |] | p]; cbn [shr_1 shr_m]; try lia.
  - reflexivity.
  - rewrite Pos2Z.inj_xI. apply (Z.div_unique _ _ _ 1); lia.
  - rewrite Pos2Z.inj_xO. apply (Z.div_unique _ _ _ 0); lia.
  - reflexivity.
Qed.

Lemma iter_shr_1_div p mrs :
  0 <= shr_m mrs -> shr_m (iter_pos shr_1 p mrs) = shr_m mrs / 2 ^ Z.pos p.
Proof.
  assert (P : forall q, 2 ^ Z.pos q <> 0) by (intros q; apply Z.pow_nonzero; lia).
  revert mrs. induction p as [p IH | p IH |]; intros mrs H; cbn [iter_pos].
  - rewrite IH by (apply iter_shr_1_nonneg, shr_1_nonneg, H).
    rewrite IH by (apply shr_1_nonneg, H). rewrite shr_1_half by exact H.
    rewrite !Z.div_div by (try apply P; lia).
    f_equal. assert (E : Z.pos p~1 = 1 + Z.pos p + Z.pos p) by lia.
    rewrite E, !Z.pow_add_r, Z.pow_1_r by lia. lia.
  - rewrite IH by (apply iter_shr_1_nonneg, H). rewrite IH by exact H.
    rewrite Z.div_div by (try apply P; lia).
    f_equal. assert (E : Z.pos p~0 = Z.pos p + Z.pos p) by lia.
    rewrite E, Z.pow_add_r by lia. reflexivity.
  - rewrite shr_1_half by exact H. reflexivity.
Qed.

Lemma round_nearest_even_ge m l : m <= round_nearest_even m l.
Proof.
  unfold round_nearest_even. destruct l as [| []]; try lia.
  destruct (IntDef.Z.even m); lia.
Qed.

(** What [shr_fexp] leaves of a positive mantissa: the exponent does not
    go down, and at the same exponent the mantissa is the same. *)
Lemma shr_fexp_spec (m : positive) e l :
  let '(mrs, e') := shr_fexp prec emax (Z.pos m) e l in
  let n := fexp prec emax (Z.pos (digits2_pos m) + e) - e in
  e' = e + Z.max n 0 /\ shr_m mrs = Z.pos m / 2 ^ Z.max n 0.
Proof.
  unfold shr_fexp, shr. cbn [Zdigits2].
  assert (K : shr_m (shr_record_of_loc (Z.pos m) l) = Z.pos m) by (destruct l as [| []]; reflexivity).
  destruct (fexp prec emax (Z.pos (digits2_pos m) + e) - e) as [| p | p] eqn:E.
  - cbn [Z.max Z.compare]. rewrite Z.div_1_r. split; [lia | exact K].
  - rewrite iter_shr_1_div by (rewrite K; lia). rewrite K.
    replace (Z.max (Z.pos p) 0) with (Z.pos p) by lia. split; reflexivity.
  - replace (Z.max (Z.neg p) 0) with 0 by lia. rewrite Z.div_1_r. split; [lia | exact K].
Qed.

End Rounding.

Section OneAndAHalf.

(** [1.5] as a double: 3 * 2^51 * 2^-52. *)
Definition sf15 : spec_float := S754_finite false 6755399441055744 (-52).

Lemma sf15_eq : Prim2SF 1.5%float = sf15.
Proof. reflexivity. Qed.

Lemma pow2_le a b : 0 <= a <= b -> 2 ^ a <= 2 ^ b.
Proof. intros H. apply Z.pow_le_mono_r; lia. Qed.

(** The product of a positive double and 1.5 is an infinity or a double
    that compares greater. *)
Lemma mul15_greater (m : positive) (e : Z) :
  bounded prec emax m e = true ->
  let r := SFmul prec emax (S754_finite false m e) sf15 in
  r = S754_infinity false \/
  exists m' e', r = S754_finite false m' e' /\ (e < e' \/ (e = e' /\ Z.pos m < Z.pos m')).
Proof.
  intros Hb. cbv zeta. unfold bounded, canonical_mantissa in Hb.
  apply andb_true_iff in Hb. destruct Hb as [Hc He].
  apply Z.eqb_eq in Hc. apply Z.leb_le in He. rewrite fexp_eq in Hc.
  change (emax - prec) with 971 in He.
  pose proof (digits2_pos_spec m) as Dm.
  set (d := Z.pos (digits2_pos m)) in *.
  assert (Hd : 1 <= d) by (unfold d; lia).
  destruct (Pos.eq_dec m 1) as [-> | Hm].
  { assert (Hd1 : d = 1) by reflexivity.
    assert (e = -1074) by lia. subst e.
    right. exists 2%positive, (-1074). split; [vm_compute; reflexivity | lia]. }
  assert (Hm2 : 2 <= Z.pos m) by lia.
  unfold sf15. cbn [SFmul xorb]. unfold binary_round_aux.
  set (K := 6755399441055744%positive).
  pose proof (digits2_pos_spec (m * K)) as DM.
  set (dM := Z.pos (digits2_pos (m * K))) in *.
  assert (HM : Z.pos (m * K) = Z.pos m * 6755399441055744) by reflexivity.
  assert (Lo : 2 ^ (d + 51) <= Z.pos (m * K)).
  { replace (d + 51) with ((d - 1) + 52) by lia. rewrite Z.pow_add_r by lia.
    change (2 ^ 52) with 4503599627370496. rewrite HM.
    assert (0 < 2 ^ (d - 1)) by (apply Z.pow_pos_nonneg; lia). nia. }
  assert (Hi : Z.pos (m * K) < 2 ^ (d + 53)).
  { rewrite Z.pow_add_r by lia. change (2 ^ 53) with 9007199254740992. rewrite HM.
    assert (0 < 2 ^ d) by (apply Z.pow_pos_nonneg; lia). nia. }
  assert (HdM : d + 52 <= dM <= d + 53).
  { split.
    - destruct (Z_lt_le_dec dM (d + 52)) as [L | L]; [| exact L].
      pose proof (pow2_le dM (d + 51) ltac:(unfold dM; lia)). lia.
    - destruct (Z_lt_le_dec (d + 53) dM) as [L | L]; [| exact L].
      pose proof (pow2_le (d + 53) (dM - 1) ltac:(lia)). lia. }
  pose proof (shr_fexp_spec (m * K) (e + -52) loc_Exact) as S1.
  destruct (shr_fexp prec emax (Z.pos (m * K)) (e + -52) loc_Exact) as [mrs' e'].
  cbv beta iota zeta in S1. fold dM in S1. rewrite fexp_eq in S1.
  set (n := Z.max (dM + (e + -52) - 53) (-1074) - (e + -52)) in *.
  assert (Hn : n = 52 \/ (n = 53 /\ dM = d + 53)) by (unfold n; lia).
  destruct S1 as [Ee' Eq].
  replace (Z.max n 0) with n in Ee', Eq by lia.
  assert (Hq : 1 <= shr_m mrs' /\ (n = 52 -> Z.pos m + 1 <= shr_m mrs')).
  { rewrite Eq. split.
    - apply Z.div_le_lower_bound; [apply Z.pow_pos_nonneg; lia |].
      destruct Hn as [-> | [-> Hd53]].
      + pose proof (pow2_le 52 (d + 51) ltac:(lia)). lia.
      + pose proof (pow2_le 53 (dM - 1) ltac:(lia)). lia.
    - intros ->. change (2 ^ 52) with 4503599627370496.
      apply Z.div_le_lower_bound; [lia |]. rewrite HM. lia. }
  pose proof (round_nearest_even_ge (shr_m mrs') (loc_of_shr_record mrs')) as Hr.
  destruct (round_nearest_even (shr_m mrs') (loc_of_shr_record mrs')) as [| p1 | p1];
    [lia | | lia].
  pose proof (shr_fexp_spec p1 e' loc_Exact) as S2.
  destruct (shr_fexp prec emax (Z.pos p1) e' loc_Exact) as [mrs'' e''].
  cbv beta iota zeta in S2. rewrite fexp_eq in S2.
  pose proof (digits2_pos_spec p1) as D1.
  set (d1 := Z.pos (digits2_pos p1)) in *.
  set (n2 := Z.max (d1 + e' - 53) (-1074) - e') in *.
  destruct S2 as [Ee'' Em''].
  assert (He' : -1074 <= e') by (rewrite Ee'; unfold n; lia).
  assert (Hpos : 1 <= shr_m mrs'').
  { rewrite Em''. apply Z.div_le_lower_bound; [apply Z.pow_pos_nonneg; lia |].
    destruct (Z_le_gt_dec n2 0) as [L | L].
    - replace (Z.max n2 0) with 0 by lia. cbn. lia.
    - replace (Z.max n2 0) with n2 by lia.
      assert (n2 = d1 - 53) by (unfold n2 in *; lia).
      pose proof (pow2_le n2 (d1 - 1) ltac:(lia)). lia. }
  destruct (shr_m mrs'') as [| m'' | m''] eqn:Es; [lia | | lia].
  destruct (e'' <=? emax - prec); [| left; reflexivity].
  right. exists m'', e''. split; [reflexivity |].
  destruct (Z_le_gt_dec n2 0) as [L | L].
  - replace (Z.max n2 0) with 0 in Ee'', Em'' by lia.
    rewrite Z.div_1_r in Em''.
    destruct Hn as [Hn | [Hn _]].
    + right. split; [lia |]. destruct Hq as [_ Hq]. specialize (Hq Hn). lia.
    + left. lia.
  - left. lia.
Qed.

End OneAndAHalf.

(** ** The driver signal *)

Section Driver.

(** A double greater than 0 that is not an infinity. *)
Definition positiveFinite (x : float) : bool := (0 <? x)%float && Num.isFinite x.

Lemma positiveFinite_kind (x : float) :
  positiveFinite x = true ->
  exists m e, Prim2SF x = S754_finite false m e /\ bounded prec emax m e = true.
Proof.
  unfold positiveFinite. intros H. apply andb_true_iff in H. destruct H as [Hp Hf].
  rewrite FloatAxioms.ltb_spec in Hp. change (Prim2SF 0%float) with (S754_zero false) in Hp.
  pose proof (FloatAxioms.Prim2SF_valid x) as Hv.
  destruct (isFinite_kind x Hf) as [[s E] | (s & m & e & E)]; rewrite E in Hp, Hv.
  - discriminate Hp.
  - destruct s; [discriminate Hp |]. exists m, e. split; [exact E | exact Hv].
Qed.

Lemma SFltb_finite m1 e1 m2 e2 :
  SFltb (S754_finite false m1 e1) (S754_finite false m2 e2) = true <->
  e1 < e2 \/ (e1 = e2 /\ Z.pos m1 < Z.pos m2).
Proof.
  unfold SFltb, SFcompare. change (PosDef.Pos.compare_cont Eq m1 m2) with (Pos.compare m1 m2).
  destruct (Z.compare_spec e1 e2) as [E | L | L].
  - destruct (Pos.compare_spec m1 m2) as [E' | L' | L'];
      (split; [intros H; try discriminate H; lia | intros H; try reflexivity; lia]).
  - split; [lia | reflexivity].
  - split; [discriminate | lia].
Qed.

(** For two positive finite doubles, one of the two tests of the driver
    signal succeeds. *)
Lemma driver_tests (tickets txnPace : float) :
  positiveFinite tickets = true -> positiveFinite txnPace = true ->
  (txnPace <? tickets * 1.5)%float = true \/ (tickets <? txnPace * 1.5)%float = true.
Proof.
  intros Ht Hp.
  destruct (positiveFinite_kind tickets Ht) as (mt & et & Et & Bt).
  destruct (positiveFinite_kind txnPace Hp) as (mp & ep & Ep & Bp).
  rewrite !FloatAxioms.ltb_spec, !FloatAxioms.mul_spec, sf15_eq, Et, Ep.
  unfold FloatAxioms.SF64mul.
  pose proof (mul15_greater mt et Bt) as Ha. pose proof (mul15_greater mp ep Bp) as Hb.
  cbv zeta in Ha, Hb.
  destruct Ha as [-> | (ma & ea & -> & Ha)]; [left; reflexivity |].
  destruct Hb as [-> | (mb & eb & -> & Hb)]; [right; reflexivity |].
  rewrite !SFltb_finite. lia.
Qed.

Lemma balanced_not_other :
  msgBalanced <> msgEveryDay /\ (forall o c, msgBalanced <> msgGap o c) /\
  msgBalanced <> msgDiscountMaterial /\ msgBalanced <> msgDiscountModerate /\
  msgBalanced <> msgDiscountLight /\ msgBalanced <> msgTipsSoft /\
  msgBalanced <> msgTipsStrong /\ msgBalanced <> msgTipsSteady /\
  msgBalanced <> msgTicket /\ msgBalanced <> msgVolume.
Proof. repeat split; try discriminate; intros o c; unfold msgGap; discriminate. Qed.

End Driver.

(** When the net per transaction and the transactions per operating day
    are positive and finite, the driver signal is the ticket-size message
    or the volume message: ["Ticket size and volume are balanced drivers
    of revenue."] is never among the signals.  (The two tests overlap:
    when 1.5 times the tickets is not above the pace, 1.5 times the pace
    is above the tickets.) *)
Theorem driver_never_balanced (o : Z) (c : option Z) (p : Amounts) (r : Ratios) :
  positiveFinite (netPerTransaction r) = true ->
  positiveFinite (aTransactions p) = true ->
  (driverNote (netPerTransaction r) (aTransactions p) = msgTicket \/
   driverNote (netPerTransaction r) (aTransactions p) = msgVolume) /\
  ~ In msgBalanced (buildSignals o c p r).
Proof.
  intros Ht Hp.
  assert (Hd : driverNote (netPerTransaction r) (aTransactions p) = msgTicket \/
               driverNote (netPerTransaction r) (aTransactions p) = msgVolume).
  { unfold driverNote. destruct (driver_tests _ _ Ht Hp) as [E | E].
    - rewrite E. left. reflexivity.
    - destruct (aTransactions p <? netPerTransaction r * 1.5)%float eqn:E1;
        [left; reflexivity | right; rewrite E; reflexivity]. }
  split; [exact Hd |].
  pose proof balanced_not_other as (B1 & B2 & B3 & B4 & B5 & B6 & B7 & B8 & B9 & B10).
  rewrite buildSignals_shape. intros [E | Hin].
  - pose proof (normalizationNote_kind o c) as [K | (o' & c' & K)]; rewrite K in E.
    + exact (B1 (eq_sym E)).
    + exact (B2 o' c' (eq_sym E)).
  - apply in_app_or in Hin. destruct Hin as [Hin | [E | [E | []]]].
    + destruct (driverGuard _ _ _); [| contradiction Hin].
      destruct Hin as [E | []]. destruct Hd as [K | K]; rewrite K in E.
      * exact (B9 (eq_sym E)).
      * exact (B10 (eq_sym E)).
    + pose proof (discountNote_kind r) as [K | [K | K]]; rewrite K in E;
        [exact (B3 (eq_sym E)) | exact (B4 (eq_sym E)) | exact (B5 (eq_sym E))].
    + pose proof (tipsNote_kind r) as [K | [K | K]]; rewrite K in E;
        [exact (B6 (eq_sym E)) | exact (B7 (eq_sym E)) | exact (B8 (eq_sym E))].
Qed.

Lemma driver_never_balanced_witness :
  driverNote 10.75 12.5 = msgTicket \/ driverNote 10.75 12.5 = msgVolume.
Proof.
  apply (proj1 (driver_never_balanced 2 (Some 3) (mkAmounts 150 135 2.5 20 12.5)
                  (mkRatios 0.5 10.75 1.5) eq_refl eq_refl)).
Defined.

(** ** How many metric keys get a column *)

(** The place of a metric key in [metricHints]. *)
Definition rank (m : MetricKey) : nat :=
  match m with
  | gross => 0
  | net => 1
  | discounts => 2
  | tips => 3
  | transactions => 4
  end.

Lemma rank_metricHints m : exists hints, nth_error metricHints (rank m) = Some (m, hints).
Proof. destruct m; eexists; reflexivity. Qed.

Section Served.

Variable rows : list RawRow.

(** The number of eligible columns of a pool. *)
Definition eligibleIn (available : list string) : nat :=
  List.length (filter (eligible rows) available).

Lemma setOf_NoDup (l : list string) : NoDup (setOf l).
Proof.
  induction l as [| h l IH]; cbn [setOf]; constructor.
  - rewrite filter_In, negb_true_iff, String.eqb_neq. tauto.
  - apply NoDup_filter. exact IH.
Qed.

Lemma delete_absent h (l : list string) : ~ In h l -> delete h l = l.
Proof.
  unfold delete. induction l as [| x l IH]; cbn [filter In]; [reflexivity |].
  intros H. destruct (String.eqb_spec x h) as [E | N]; cbn [negb]; [tauto |].
  rewrite IH by tauto. reflexivity.
Qed.

Lemma delete_NoDup h (l : list string) : NoDup l -> NoDup (delete h l).
Proof. apply NoDup_filter. Qed.

(** Claiming an eligible column takes one eligible column from the pool. *)
Lemma eligibleIn_delete h (l : list string) :
  NoDup l -> In h l -> eligible rows h = true ->
  S (eligibleIn (delete h l)) = eligibleIn l.
Proof.
  unfold eligibleIn. intros Hnd Hin He.
  induction l as [| x l IH]; [contradiction Hin |].
  inversion Hnd as [| ? ? Hx Hnd']; subst.
  unfold delete in *. cbn [filter].
  destruct (String.eqb_spec x h) as [-> | N]; cbn [negb].
  - fold (delete h l). rewrite delete_absent by exact Hx.
    rewrite He. reflexivity.
  - destruct Hin as [E | Hin]; [contradiction |].
    cbn [filter]. destruct (eligible rows x); cbn [List.length]; rewrite (IH Hnd' Hin); reflexivity.
Qed.

Lemma eligibleIn_zero (l : list string) :
  eligibleIn l = 0%nat <-> firstEligible rows l = None.
Proof.
  rewrite firstEligible_none. unfold eligibleIn. split.
  - intros H h Hin. destruct (eligible rows h) eqn:E; [| reflexivity].
    assert (K : In h (filter (eligible rows) l)) by (apply filter_In; auto).
    destruct (filter (eligible rows) l); [contradiction K | discriminate H].
  - intros H. induction l as [| x l IH]; [reflexivity |].
    cbn [filter]. rewrite (H x (or_introl eq_refl)). apply IH.
    intros h Hh. apply H. right. exact Hh.
Qed.

(** The loop gives a column to the keys it visits while the pool has an
    eligible column: to as many of the first keys as the pool has eligible
    columns. *)
Lemma loop_served entries :
  forall available selections,
    NoDup available -> NoDup (map fst entries) ->
    (forall m, In m (map fst entries) -> column selections m = None) ->
    forall i m hints,
      nth_error entries i = Some (m, hints) ->
      (column (snd (loop rows entries (available, selections))) m <> None <->
       (i < eligibleIn available)%nat).
Proof.
  induction entries as [| [m0 hints0] es IH]; intros av sel Hav Hnd Hnone i m hints Hi.
  - destruct i; discriminate Hi.
  - cbn [map fst] in Hnd, Hnone. inversion Hnd as [| ? ? Hm0 Hnd']; subst.
    unfold loop. cbn [fold_left]. rewrite metricStep_eq.
    pose proof (bestColumn_scanned rows hints0 av) as Hsc.
    destruct (bestColumn rows hints0 av) as [b |]; cbn [scanned] in Hsc.
    + destruct Hsc as (Hin & [He _] & _).
      fold (loop rows es (delete (header b) av, setColumn m0 (header b) sel)).
      pose proof (eligibleIn_delete (header b) av Hav Hin He) as Hc.
      destruct i as [| j]; cbn [nth_error] in Hi.
      * injection Hi as <- <-. rewrite loop_frame by exact Hm0.
        rewrite column_setColumn_same. split; [intros _; lia | discriminate].
      * rewrite (IH _ _ (delete_NoDup _ _ Hav) Hnd') with (i := j) (hints := hints);
          [lia | | exact Hi].
        intros m' Hm'. rewrite column_setColumn_other.
        -- apply Hnone. right. exact Hm'.
        -- intros ->. exact (Hm0 Hm').
    + fold (loop rows es (av, sel)).
      apply eligibleIn_zero in Hsc.
      destruct i as [| j]; cbn [nth_error] in Hi.
      * injection Hi as <- <-. rewrite loop_frame by exact Hm0.
        rewrite (Hnone m0 (or_introl eq_refl)). split; [congruence | lia].
      * rewrite (IH _ _ Hav Hnd') with (i := j) (hints := hints); [lia | | exact Hi].
        intros m' Hm'. apply Hnone. right. exact Hm'.
Qed.

(** The claimed columns are eligible. *)
Definition numeric (st : list string * Columns) : Prop :=
  forall m c, column (snd st) m = Some c -> eligible rows c = true.

Lemma numeric_loop entries st : numeric st -> numeric (loop rows entries st).
Proof.
  revert st. induction entries as [| [m hints] es IH]; intros [av sel] H; [exact H |].
  unfold loop. cbn [fold_left]. rewrite metricStep_eq.
  pose proof (bestColumn_scanned rows hints av) as Hsc.
  destruct (bestColumn rows hints av) as [b |]; cbn [scanned] in Hsc; [| apply IH; exact H].
  apply IH. destruct Hsc as (_ & [He _] & _). intros m' c. cbn [snd].
  destruct (MetricKey_eq_dec m m') as [<- | N].
  - rewrite column_setColumn_same. intros E. injection E as <-. exact He.
  - rewrite column_setColumn_other by exact N. apply H.
Qed.

Variable headers : list string.

Lemma detectMetricColumns_numeric m c :
  column (detectMetricColumns rows headers) m = Some c -> eligible rows c = true.
Proof.
  assert (H : numeric (scoredColumns rows headers)).
  { apply (numeric_loop metricHints). intros m' c' Hc. destruct m'; discriminate Hc. }
  unfold detectMetricColumns. destruct (scoredColumns rows headers) as [av sel].
  unfold numeric in H. cbn [snd] in H.
  destruct (negb (Js.truthy (colTransactions sel))); [| apply H].
  destruct (find (dense rows) av) as [h |] eqn:Ef; [| apply H].
  apply find_some in Ef. destruct Ef as [_ Hd].
  destruct (MetricKey_eq_dec transactions m) as [<- | N].
  - rewrite column_setColumn_same. intros E. injection E as <-.
    apply dense_eligible. exact Hd.
  - rewrite column_setColumn_other by exact N. apply H.
Qed.

(** The scan that follows the scored loop gives no column to a key that
    the loop left without one. *)
Lemma detectMetricColumns_none m :
  column (detectMetricColumns rows headers) m = None <->
  column (snd (scoredColumns rows headers)) m = None.
Proof.
  destruct (column (snd (scoredColumns rows headers)) m) as [c |] eqn:Ec.
  - split; [| discriminate]. intros H. exfalso.
    destruct (MetricKey_eq_dec m transactions) as [-> | N].
    + revert H. unfold detectMetricColumns.
      destruct (scoredColumns rows headers) as [av sel]. cbn [snd column] in Ec.
      destruct (negb (Js.truthy (colTransactions sel))); [| cbn [column]; congruence].
      destruct (find (dense rows) av) as [h |]; [| cbn [column]; congruence].
      rewrite column_setColumn_same. discriminate.
    + rewrite detectMetricColumns_column in H by (intros E; contradiction). congruence.
  - rewrite detectMetricColumns_column; [tauto |]. intros _. congruence.
Qed.

End Served.

(** The number of distinct headers with a numeric-looking cell in some
    record. *)
Definition eligibleCount (rows : list RawRow) (headers : list string) : nat :=
  eligibleIn rows (setOf headers).

Lemma detectMetricColumns_served (rows : list RawRow) (headers : list string)
    (m : MetricKey) :
  column (detectMetricColumns rows headers) m <> None <->
  (rank m < eligibleCount rows headers)%nat.
Proof.
  rewrite detectMetricColumns_none. destruct (rank_metricHints m) as [hints Hr].
  unfold scoredColumns, eligibleCount. fold (loop rows metricHints (setOf headers, noColumns)).
  apply (loop_served rows metricHints) with (hints := hints).
  - apply setOf_NoDup.
  - rewrite metricHints_keys. exact allMetrics_NoDup.
  - intros m' _. destruct m'; reflexivity.
  - exact Hr.
Qed.

(** Without a header that is the empty string, a key counts as missing
    exactly when it has no column. *)
Lemma truthy_column (rows : list RawRow) (headers : list string) (m : MetricKey) :
  ~ In "" headers ->
  Js.truthy (column (detectMetricColumns rows headers) m)
  = (rank m <? eligibleCount rows headers)%nat.
Proof.
  intros Hh. pose proof (detectMetricColumns_served rows headers m) as K.
  destruct (column (detectMetricColumns rows headers) m) as [c |] eqn:Ec.
  - apply detectMetricColumns_within in Ec. cbn [Js.truthy].
    destruct (String.eqb_spec c "") as [-> | _]; [contradiction |]. cbn [negb].
    symmetry. apply Nat.ltb_lt. apply K. discriminate.
  - cbn [Js.truthy]. symmetry. apply Nat.ltb_ge.
    destruct (Nat.le_gt_cases (eligibleCount rows headers) (rank m)) as [L | L]; [exact L |].
    apply K in L. contradiction L. reflexivity.
Qed.

(** [detectMetricColumns] gives a column to the first [n] metric keys, in
    the order gross, net, discounts, tips, transactions, where [n] is the
    number of distinct headers with a numeric-looking cell; the names of
    the headers play no part in which keys get a column.  Every selected
    column is a header with a numeric-looking cell. *)
Theorem metric_keys_served_in_order (rows : list RawRow) (headers : list string)
    (m : MetricKey) :
  (column (detectMetricColumns rows headers) m <> None <->
   (rank m < eligibleCount rows headers)%nat) /\
  (forall c, column (detectMetricColumns rows headers) m = Some c ->
             In c headers /\ eligible rows c = true).
Proof.
  split; [apply detectMetricColumns_served |].
  intros c Hc. split.
  - exact (detectMetricColumns_within rows headers m c Hc).
  - exact (detectMetricColumns_numeric rows headers m c Hc).
Qed.

(** A record set with a date column and no header that is the empty
    string: [aggregate] raises ["Missing expected numeric columns: gross,
    net"] when no column has a numeric-looking cell, ["... : net"] when
    exactly one has, and returns when two or more have.  ["... : gross"]
    alone is never raised. *)
Theorem missing_columns_by_count (legacy : string -> option Z) (rows : list RawRow) :
  let headers := keys (hd [] rows) in
  rows <> [] -> ~ In "" headers ->
  detectDateColumn legacy rows headers <> None ->
  match eligibleCount rows headers with
  | O => aggregate legacy rows = Threw (errMissing [gross; net])
  | S O => aggregate legacy rows = Threw (errMissing [net])
  | S (S _) => exists daily s, aggregate legacy rows = Returned daily s
  end.
Proof.
  cbv zeta. intros Hne Hh Hd. rewrite aggregate_eq.
  destruct rows as [| row0 rest]; [contradiction Hne; reflexivity |]. cbn [hd] in *.
  destruct (detectDateColumn legacy (row0 :: rest) (keys row0)) as [c |] eqn:Ed;
    [| contradiction Hd; reflexivity].
  apply detectDateColumn_Some in Ed. destruct Ed as (Hin & _).
  destruct (String.eqb_spec c "") as [-> | _]; [contradiction |]. cbv zeta.
  unfold missingMetrics. cbn [filter].
  rewrite !truthy_column by exact Hh. cbn [rank].
  destruct (eligibleCount (row0 :: rest) (keys row0)) as [| [| n]]; cbn; eauto.
Qed.

Lemma missing_columns_by_count_witness :
  aggregate isoOnly [[("Date", "2024-01-01"); ("Note", "cash only")]]
  = Threw (errMissing [net]).
Proof.
  apply (missing_columns_by_count isoOnly [[("Date", "2024-01-01"); ("Note", "cash only")]]).
  - discriminate.
  - cbn. intros [E | [E | []]]; discriminate E.
  - vm_compute. discriminate.
Defined.

(** ** When every numeric-looking column is selected *)

Section AllSelected.

Variable rows : list RawRow.
Variable headers : list string.

Definition picked (m : MetricKey) : string :=
  match column (detectMetricColumns rows headers) m with
  | Some c => c
  | None => ""
  end.

Lemma firstn_rank n m : In m (firstn n allMetrics) -> (rank m < n)%nat.
Proof.
  unfold allMetrics. intros H.
  destruct m; destruct n as [| [| [| [| [| n]]]]]; cbn [rank]; try lia;
    cbn [firstn In] in H; intuition discriminate.
Qed.

Lemma firstn_allMetrics_length n :
  (n <= 5)%nat -> List.length (firstn n allMetrics) = n.
Proof. intros H. rewrite length_firstn. cbn [allMetrics List.length]. lia. Qed.

Lemma firstn_allMetrics_NoDup n : NoDup (firstn n allMetrics).
Proof.
  pose proof allMetrics_NoDup as H. rewrite <- (firstn_skipn n allMetrics) in H.
  exact (NoDup_app_remove_r _ _ H).
Qed.

Lemma picked_served m :
  (rank m < eligibleCount rows headers)%nat ->
  column (detectMetricColumns rows headers) m = Some (picked m).
Proof.
  intros H. apply detectMetricColumns_served in H. unfold picked.
  destruct (column (detectMetricColumns rows headers) m); [reflexivity | contradiction].
Qed.

(** With at most five eligible columns, each of them is the column of a
    metric key. *)
Lemma eligible_all_picked h :
  (eligibleCount rows headers <= 5)%nat ->
  In h headers -> eligible rows h = true ->
  exists m, column (detectMetricColumns rows headers) m = Some h.
Proof.
  intros Hn Hin He.
  set (n := eligibleCount rows headers) in *.
  set (pool := filter (eligible rows) (setOf headers)).
  set (chosen := map picked (firstn n allMetrics)).
  assert (Hc : forall m, In m (firstn n allMetrics) ->
                 column (detectMetricColumns rows headers) m = Some (picked m)).
  { intros m Hm. apply picked_served. apply firstn_rank. exact Hm. }
  assert (Hnd : NoDup chosen).
  { apply NoDup_map_NoDup_ForallPairs; [| apply firstn_allMetrics_NoDup].
    intros m1 m2 H1 H2 E. apply (apart_detectMetricColumns rows headers m1 m2 (picked m1)).
    - exact (Hc m1 H1).
    - rewrite E. exact (Hc m2 H2). }
  assert (Hincl : incl chosen pool).
  { intros c Hin'. apply in_map_iff in Hin'. destruct Hin' as (m & <- & Hm).
    pose proof (Hc m Hm) as K. apply filter_In. split.
    - apply in_setOf. exact (detectMetricColumns_within rows headers m _ K).
    - exact (detectMetricColumns_numeric rows headers m _ K). }
  assert (Hlen : (List.length pool <= List.length chosen)%nat).
  { unfold chosen. rewrite length_map, firstn_allMetrics_length by exact Hn. reflexivity. }
  pose proof (NoDup_length_incl Hnd Hlen Hincl) as Hback.
  assert (Hp : In h pool) by (apply filter_In; split; [apply in_setOf |]; assumption).
  apply Hback in Hp. apply in_map_iff in Hp. destruct Hp as (m & <- & Hm).
  exists m. exact (Hc m Hm).
Qed.

End AllSelected.

(** When at most five distinct headers have a numeric-looking cell, every
    one of them is selected for a metric key, whatever its name: so is the
    date column itself when one of its cells holds a digit, as the cells
    of a date column do. *)
Theorem few_columns_all_selected (rows : list RawRow) (headers : list string) (h : string) :
  (eligibleCount rows headers <= 5)%nat ->
  In h headers ->
  (exists row, In row rows /\ numericCell h row = true) ->
  exists m, column (detectMetricColumns rows headers) m = Some h.
Proof.
  intros Hn Hin (row & Hr & Hc). apply eligible_all_picked; [exact Hn | exact Hin |].
  unfold eligible. apply existsb_exists. eauto.
Qed.

Lemma few_columns_all_selected_witness :
  exists m, column (detectMetricColumns noDiscountRows (keys (hd [] noDiscountRows))) m
            = Some "Date".
Proof.
  apply (few_columns_all_selected noDiscountRows (keys (hd [] noDiscountRows)) "Date").
  - vm_compute. lia.
  - left. reflexivity.
  - exists (hd [] noDiscountRows). split; [left; reflexivity | reflexivity].
Defined.

(** ** Ties between metric columns *)

Section MetricTies.

Variable rows : list RawRow.

(** What the scan of a pool leaves in [best], as to order: the columns
    that compete and come before the selected one have smaller scores. *)
Definition scannedFirst (hints : list string) (available : list string)
    (best : option Best) : Prop :=
  match best with
  | None => True
  | Some b =>
      exists pre post,
        available = pre ++ header b :: post /\
        forall h, In h pre -> competes rows hints available h ->
                  weightedScore rows hints h < score b
  end.

Lemma bestColumn_scannedFirst hints available :
  scannedFirst hints available (bestColumn rows hints available).
Proof.
  induction available as [| x l IH] using rev_ind; [exact I |].
  pose proof (bestColumn_scanned rows hints l) as Hsc.
  rewrite bestColumn_snoc. unfold scoreStep. fold (eligible rows x).
  fold (hintCount hints x).
  assert (Keep : forall b, bestColumn rows hints l = Some b ->
                   scannedFirst hints (l ++ [x]) (Some b)).
  { intros b Eb. rewrite Eb in IH. cbn [scannedFirst] in IH |- *.
    destruct IH as (pre & post & E & Hlt).
    exists pre, (post ++ [x]). split.
    - rewrite E, <- app_assoc. reflexivity.
    - intros h Hh Hc. apply Hlt; [exact Hh |].
      apply (competes_snoc_old rows hints l x h); [| exact Hc].
      rewrite E. apply in_or_app. left. exact Hh. }
  assert (Take : forall w, (forall h, In h l -> competes rows hints (l ++ [x]) h ->
                                      weightedScore rows hints h < w) ->
                   scannedFirst hints (l ++ [x]) (Some (mkBest x w))).
  { intros w Hw. cbn [scannedFirst header score]. exists l, []. split; [reflexivity | exact Hw]. }
  destruct (bestColumn rows hints l) as [b |] eqn:Eb; cbn [scanned] in Hsc.
  - destruct Hsc as (Hin & Hc & Hs & Hmax).
    destruct (eligible rows x) eqn:Ex; cbn [negb]; [| apply Keep; reflexivity].
    destruct (hintCount hints x =? 0) eqn:Ek; cbn [andb]; [apply Keep; reflexivity |].
    change (hintCount hints x * 2 + numericDensity rows x) with (weightedScore rows hints x).
    destruct (Z.gtb_spec (weightedScore rows hints x) (score b)) as [G | G];
      [| apply Keep; reflexivity].
    apply Take. intros h Hh Hch.
    specialize (Hmax h Hh (competes_snoc_old rows hints l x h Hh Hch)). lia.
  - destruct (eligible rows x) eqn:Ex; cbn [negb andb]; [| exact I].
    rewrite andb_false_r. apply Take. intros h Hh [He _].
    rewrite (proj1 (firstEligible_none rows l) Hsc h Hh) in He. discriminate He.
Qed.

(** The pool of a loop is the pool it started from without some columns,
    in the same order. *)
Lemma loop_order entries :
  forall available selections,
  exists keep,
    fst (loop rows entries (available, selections)) = filter keep available.
Proof.
  induction entries as [| [m hints] es IH]; intros av sel.
  - exists (fun _ => true). cbn [loop fold_left fst].
    symmetry. apply forallb_filter_id. apply forallb_forall. reflexivity.
  - unfold loop. cbn [fold_left]. rewrite metricStep_eq.
    destruct (bestColumn rows hints av) as [b |].
    + fold (loop rows es (delete (header b) av, setColumn m (header b) sel)).
      destruct (IH (delete (header b) av) (setColumn m (header b) sel)) as [keep E].
      exists (fun x => negb (String.eqb x (header b)) && keep x).
      rewrite E. unfold delete. clear. induction av as [| x av IH]; [reflexivity |].
      cbn [filter]. destruct (negb (String.eqb x (header b))); cbn [andb filter];
        [destruct (keep x); rewrite IH; reflexivity | exact IH].
    + fold (loop rows es (av, sel)). apply IH.
Qed.

Lemma filter_members (keep : string -> bool) (l : list string) :
  filter keep l = filter (fun h => existsb (String.eqb h) (filter keep l)) l.
Proof.
  apply filter_ext_in. intros h Hin.
  destruct (keep h) eqn:E; symmetry.
  - apply existsb_exists. exists h. split; [| apply String.eqb_refl].
    apply filter_In. auto.
  - destruct (existsb (String.eqb h) (filter keep l)) eqn:K; [| reflexivity].
    apply existsb_exists in K. destruct K as (x & Hx & Ex).
    apply String.eqb_eq in Ex. subst x. apply filter_In in Hx. destruct Hx as [_ Hx]. congruence.
Qed.

End MetricTies.

(** For the metric key [m] that [metricHints] lists after the keys
    [before]: the pool holds its headers in the order of their first
    occurrence among the headers, and among the columns that compete, the
    selected one is the first with the greatest score: every competing
    column before it in the pool has a strictly smaller score. *)
Theorem metric_ties_first_wins (rows : list RawRow) (headers : list string)
    (before : list (MetricKey * list string)) (m : MetricKey) (hints : list string)
    (after : list (MetricKey * list string)) :
  metricHints = before ++ (m, hints) :: after ->
  let available := fst (loop rows before (setOf headers, noColumns)) in
  available = filter (fun h => existsb (String.eqb h) available) (setOf headers) /\
  forall c,
    column (snd (scoredColumns rows headers)) m = Some c ->
    exists pre post,
      available = pre ++ c :: post /\
      forall h, In h pre -> competes rows hints available h ->
                weightedScore rows hints h < weightedScore rows hints c.
Proof.
  intros Hsplit. cbv zeta. split.
  - destruct (loop_order rows before (setOf headers) noColumns) as [keep E].
    rewrite E. apply filter_members.
  - assert (Hnd : NoDup (map fst (before ++ (m, hints) :: after))).
    { rewrite <- Hsplit, metricHints_keys. exact allMetrics_NoDup. }
    rewrite map_app in Hnd. cbn [map fst] in Hnd.
    pose proof (NoDup_remove_2 _ _ _ Hnd) as Hnd2.
    assert (Hma : ~ In m (map fst after)).
    { intros H. apply Hnd2. apply in_or_app. right. exact H. }
    intros c. unfold scoredColumns. fold (loop rows metricHints (setOf headers, noColumns)).
    rewrite Hsplit, loop_at by exact Hma.
    pose proof (bestColumn_scanned rows hints
                  (fst (loop rows before (setOf headers, noColumns)))) as Hsc.
    pose proof (bestColumn_scannedFirst rows hints
                  (fst (loop rows before (setOf headers, noColumns)))) as Hf.
    destruct (bestColumn rows hints _) as [b |]; cbn [scanned scannedFirst] in Hsc, Hf.
    + intros E. injection E as <-. destruct Hsc as (_ & _ & Hs & _). rewrite <- Hs. exact Hf.
    + rewrite loop_frame.
      * replace (column noColumns m) with (@None string) by (destruct m; reflexivity).
        discriminate.
      * intros H. apply Hnd2. apply in_or_app. left. exact H.
Qed.

Lemma metric_ties_first_wins_witness :
  exists pre post,
    setOf (keys (hd [] scenarioA)) = pre ++ "Total Sales" :: post /\
    forall h, In h pre ->
              competes scenarioA ["gross"; "total sales"; "total gross"; "revenue"]
                (setOf (keys (hd [] scenarioA))) h ->
              weightedScore scenarioA ["gross"; "total sales"; "total gross"; "revenue"] h
              < weightedScore scenarioA ["gross"; "total sales"; "total gross"; "revenue"]
                  "Total Sales".
Proof.
  apply (proj2 (metric_ties_first_wins scenarioA (keys (hd [] scenarioA)) [] gross
                  ["gross"; "total sales"; "total gross"; "revenue"]
                  (tl metricHints) eq_refl) "Total Sales").
  vm_compute. reflexivity.
Defined.

(** ** What [parseNumber] reads of a cell *)

Section Cells.

Lemma str_chars (s : string) : Js.str (Js.chars s) = s.
Proof. apply string_of_list_ascii_of_string. Qed.

Lemma filter_dropWhile {A} (p q : A -> bool) (l : list A) :
  (forall x, p x = true -> q x = false) ->
  filter q (Js.dropWhile p l) = filter q l.
Proof.
  intros H. induction l as [| x l IH]; [reflexivity |].
  cbn [Js.dropWhile filter]. destruct (p x) eqn:E; [| reflexivity].
  rewrite (H x E). exact IH.
Qed.

Lemma filter_rev {A} (q : A -> bool) (l : list A) : filter q (rev l) = rev (filter q l).
Proof.
  induction l as [| x l IH]; [reflexivity |].
  cbn [rev filter]. rewrite filter_app, IH. cbn [filter].
  destruct (q x); [reflexivity | apply app_nil_r].
Qed.

(** Removing a class that holds the white space makes [trim] redundant. *)
Lemma removeAll_trim (cls : ascii -> bool) (s : string) :
  (forall c, Js.isSpace c = true -> cls c = true) ->
  Js.removeAll cls (Js.trim s) = Js.removeAll cls s.
Proof.
  intros H. unfold Js.removeAll, Js.trim. rewrite chars_str. f_equal.
  assert (K : forall x, Js.isSpace x = true -> negb (cls x) = false).
  { intros x Hx. rewrite (H x Hx). reflexivity. }
  rewrite filter_rev, (filter_dropWhile _ _ _ K), filter_rev, rev_involutive.
  apply (filter_dropWhile _ _ _ K).
Qed.

Lemma normalized_trim (s : string) : normalized (Js.trim s) = normalized s.
Proof.
  unfold normalized. rewrite removeAll_trim; [reflexivity |].
  intros c Hc. unfold isCurrencyNoise. rewrite Hc. apply orb_true_r.
Qed.

Lemma trim_empty_normalized (s : string) : Js.trim s = "" -> normalized s = "".
Proof. intros H. rewrite <- normalized_trim, H. reflexivity. Qed.

(** [parseNumber] on a string is [parseFloat] on what is left of it without
    [$], commas, white space, parentheses and [%], made 0 when not finite. *)
Lemma parseNumber_normalized (s : string) :
  parseNumber (CString s)
  = let parsed := Num.parseFloat (normalized s) in
    if Num.isFinite parsed then parsed else PrimFloat.zero.
Proof.
  cbn [parseNumber]. destruct (String.eqb_spec (Js.trim s) "") as [E | N].
  - rewrite (trim_empty_normalized s E). reflexivity.
  - rewrite normalized_trim. reflexivity.
Qed.

End Cells.

(** Two cells that differ only by [$], commas, white space, parentheses
    and [%] give the same number: [parseNumber] reads what is left of the
    cell without these characters. *)
Theorem parseNumber_ignores_decoration (a b : string) :
  normalized a = normalized b ->
  parseNumber (CString a) = parseNumber (CString b).
Proof.
  intros H. rewrite !parseNumber_normalized, H. reflexivity.
Qed.

Lemma parseNumber_ignores_decoration_witness :
  parseNumber (CString " $ (1,234.50) ") = parseNumber (CString "1234.50%").
Proof.
  apply (parseNumber_ignores_decoration " $ (1,234.50) " "1234.50%").
  vm_compute. reflexivity.
Defined.

(** ** Cells that do not look numeric *)

Section NotNumeric.

Lemma takeWhile_none {A} (p : A -> bool) (l : list A) :
  (forall x, In x l -> p x = false) -> Js.takeWhile p l = [].
Proof.
  destruct l as [| x l]; [reflexivity |]. intros H. cbn [Js.takeWhile].
  rewrite (H x (or_introl eq_refl)). reflexivity.
Qed.

Lemma dropWhile_none {A} (p : A -> bool) (l : list A) :
  (forall x, In x l -> p x = false) -> Js.dropWhile p l = l.
Proof.
  destruct l as [| x l]; [reflexivity |]. intros H. cbn [Js.dropWhile].
  rewrite (H x (or_introl eq_refl)). reflexivity.
Qed.

Lemma dropWhile_incl {A} (p : A -> bool) (l : list A) x :
  In x (Js.dropWhile p l) -> In x l.
Proof.
  induction l as [| y l IH]; [tauto |]. cbn [Js.dropWhile].
  destruct (p y); [intros H; right; exact (IH H) | tauto].
Qed.

(** Without a digit in the string, [parseFloat] finds no finite number. *)
Lemma parseFloat_no_digit (s : string) :
  (forall c, In c (Js.chars s) -> Js.isDigit c = false) ->
  Num.isFinite (Num.parseFloat s) = false.
Proof.
  intros H. unfold Num.parseFloat.
  assert (H0 : forall c, In c (Js.dropWhile Js.isSpace (Js.chars s)) -> Js.isDigit c = false).
  { intros c Hc. apply H. exact (dropWhile_incl _ _ _ Hc). }
  destruct (Js.dropWhile Js.isSpace (Js.chars s)) as [| c0 r0] eqn:E0.
  - reflexivity.
  - set (p := if Ascii.eqb c0 "-" then (true, r0)
              else if Ascii.eqb c0 "+" then (false, r0) else (false, c0 :: r0)).
    assert (H1 : forall c, In c (snd p) -> Js.isDigit c = false).
    { intros c Hc. apply H0. unfold p in Hc.
      destruct (Ascii.eqb c0 "-"); [right; exact Hc |].
      destruct (Ascii.eqb c0 "+"); [right; exact Hc | exact Hc]. }
    destruct p as [neg l1]. cbn [snd] in H1.
    destruct (Js.startsWith (Js.chars "Infinity") l1); [destruct neg; reflexivity |].
    rewrite (takeWhile_none _ _ H1), (dropWhile_none _ _ H1).
    destruct l1 as [| c1 r1]; [reflexivity |].
    destruct (Ascii.eqb c1 "."); [| reflexivity].
    rewrite takeWhile_none; [reflexivity |].
    intros c Hc. apply H1. right. exact Hc.
Qed.

Lemma normalized_incl (s : string) c : In c (Js.chars (normalized s)) -> In c (Js.chars s).
Proof.
  unfold normalized, Js.removeAll. rewrite !chars_str, !filter_In. tauto.
Qed.

End NotNumeric.

(** A cell without a digit is read as 0, and so is every cell that does
    not look numeric to [numberish]: only cells that count towards the
    score and the density of a column can add to an amount. *)
Theorem parseNumber_needs_digit (s : string) :
  ((forall c, In c (Js.chars s) -> Js.isDigit c = false) ->
   parseNumber (CString s) = 0%float) /\
  (numberish s = false -> parseNumber (CString s) = 0%float).
Proof.
  assert (K : (forall c, In c (Js.chars s) -> Js.isDigit c = false) ->
              parseNumber (CString s) = 0%float).
  { intros H. rewrite parseNumber_normalized. cbv zeta.
    rewrite parseFloat_no_digit; [reflexivity |].
    intros c Hc. apply H. exact (normalized_incl s c Hc). }
  split; [exact K |].
  intros H. apply K. intros c Hc. unfold numberish in H.
  destruct (Js.isDigit c) eqn:E; [| reflexivity].
  assert (N : existsb isNumberishChar (Js.chars s) = true).
  { apply existsb_exists. exists c. split; [exact Hc |].
    unfold isNumberishChar. rewrite E, orb_true_r. reflexivity. }
  congruence.
Qed.

Lemma parseNumber_needs_digit_witness :
  numberish "n/a" = false /\ parseNumber (CString "n/a") = 0%float.
Proof.
  split; [reflexivity |].
  apply (proj2 (parseNumber_needs_digit "n/a")). reflexivity.
Defined.

(** ** The sign of a parsed number *)

Section Sign.

(** Zero, a finite number or an infinity, with the sign [sx]. *)
Definition signIs (sx : bool) (r : spec_float) : Prop :=
  match r with
  | S754_zero s | S754_infinity s | S754_finite s _ _ => s = sx
  | S754_nan => False
  end.

Lemma binary_round_aux_sign sx mx ex lx :
  0 <= mx -> signIs sx (binary_round_aux prec emax sx mx ex lx).
Proof.
  intros H. unfold binary_round_aux.
  pose proof (shr_fexp_nonneg mx ex lx H) as K1.
  destruct (shr_fexp prec emax mx ex lx) as [mrs' e']. cbn [fst] in K1.
  pose proof (shr_fexp_nonneg _ e' loc_Exact
                (round_nearest_even_nonneg _ (loc_of_shr_record mrs') K1)) as K2.
  destruct (shr_fexp prec emax _ e' loc_Exact) as [mrs'' e'']. cbn [fst] in K2.
  destruct (shr_m mrs'') as [| p | p]; [reflexivity | | lia].
  destruct (e'' <=? emax - prec); reflexivity.
Qed.

Lemma binary_round_sign sx mx ex : signIs sx (binary_round prec emax sx mx ex).
Proof.
  unfold binary_round. destruct (shl_align _ _ _) as [mz ez].
  apply binary_round_aux_sign. lia.
Qed.

Lemma binary_normalize_nonneg m e :
  0 <= m -> signIs false (binary_normalize prec emax m e false).
Proof.
  intros H. unfold binary_normalize.
  destruct m as [| p | p]; [reflexivity | apply binary_round_sign | lia].
Qed.

Lemma SFdiv_nonneg m1 e1 m2 e2 :
  signIs false (SFdiv prec emax (S754_finite false m1 e1) (S754_finite false m2 e2)).
Proof.
  cbn [SFdiv xorb]. unfold SFdiv_core_binary.
  set (s := e1 - e2 - _).
  set (m' := match s with 0 => Z.pos m1 | Z.pos _ => IntDef.Z.shiftl (Z.pos m1) s | Z.neg _ => 0 end).
  assert (Hm : 0 <= m').
  { unfold m'. destruct s; [lia | apply Z.shiftl_nonneg; lia | lia]. }
  pose proof (Z.div_pos m' (Z.pos m2) Hm ltac:(lia)) as Hq.
  unfold Z.div in Hq. change Z.div_eucl with IntDef.Z.div_eucl in Hq.
  destruct (IntDef.Z.div_eucl m' (Z.pos m2)) as [q r].
  apply binary_round_aux_sign. exact Hq.
Qed.

Lemma to_Z_rec_nonneg (n : nat) i : 0 <= Uint63Axioms.to_Z_rec n i.
Proof.
  revert i. induction n as [| n IH]; intros i; cbn [Uint63Axioms.to_Z_rec]; [lia |].
  match goal with
  | |- context [Uint63Axioms.to_Z_rec n ?j] =>
      generalize (IH j); generalize (Uint63Axioms.to_Z_rec n j)
  end.
  intros z Hz.
  destruct (Uint63Axioms.is_even i).
  - change IntDef.Z.double with Z.double. rewrite Z.double_spec. lia.
  - change IntDef.Z.succ_double with Z.succ_double. rewrite Z.succ_double_spec. lia.
Qed.

(** A double made from a description without a minus sign is not below
    zero. *)
Lemma SF2Prim_not_negative (r : spec_float) :
  signIs false r \/ r = S754_nan -> (SF2Prim r <? 0)%float = false.
Proof.
  intros [H | ->]; [| reflexivity].
  destruct r as [s | s | | s m e]; cbn [signIs] in H; try contradiction;
    subst s; try reflexivity.
  rewrite FloatAxioms.ltb_spec. change (Prim2SF 0%float) with (S754_zero false).
  cbn [SF2Prim]. unfold Z.ldexp. rewrite FloatAxioms.ldshiftexp_spec, FloatAxioms.of_uint63_spec.
  set (z := Uint63Axioms.to_Z _). set (n := Uint63Axioms.to_Z _ - _).
  assert (Hz : 0 <= z) by apply to_Z_rec_nonneg.
  pose proof (binary_normalize_nonneg z 0 Hz) as K.
  destruct (binary_normalize prec emax z 0 false) as [s | s | | s m' e'];
    cbn [signIs] in K; try contradiction; subst s; try reflexivity.
  cbn [SFldexp]. pose proof (binary_round_sign false m' (e' + n)) as K.
  destruct (binary_round prec emax false m' (e' + n)) as [s | s | | s m'' e''];
    cbn [signIs] in K; try contradiction; subst s; reflexivity.
Qed.

Lemma decimal_not_negative (m : positive) (e : Z) : (Num.decimal m e <? 0)%float = false.
Proof.
  unfold Num.decimal. destruct e as [| k | k]; apply SF2Prim_not_negative; left.
  - apply binary_normalize_nonneg. lia.
  - apply binary_normalize_nonneg. apply Z.mul_nonneg_nonneg; [lia |].
    apply Z.pow_nonneg. lia.
  - apply SFdiv_nonneg.
Qed.

(** [parseFloat] gives a number below zero only for a string that, after
    its leading white space, begins with a minus sign. *)
Lemma parseFloat_negative (s : string) :
  (Num.parseFloat s <? 0)%float = true ->
  exists rest, Js.dropWhile Js.isSpace (Js.chars s) = "-"%char :: rest.
Proof.
  unfold Num.parseFloat.
  destruct (Js.dropWhile Js.isSpace (Js.chars s)) as [| c r].
  - cbn. discriminate.
  - destruct (Ascii.eqb_spec c "-") as [-> | N]; [eauto |].
    intros H. exfalso. revert H.
    set (p := if Ascii.eqb c "+" then (false, r) else (false, c :: r)).
    assert (Hp : fst p = false) by (unfold p; destruct (Ascii.eqb c "+"); reflexivity).
    destruct p as [neg l1]. cbn [fst] in Hp. subst neg.
    destruct (Js.startsWith (Js.chars "Infinity") l1); [discriminate |].
    destruct (match Js.dropWhile Js.isDigit l1 with
              | [] => ([], Js.dropWhile Js.isDigit l1)
              | c0 :: r0 =>
                  if Ascii.eqb c0 "."
                  then (Js.takeWhile Js.isDigit r0, Js.dropWhile Js.isDigit r0)
                  else ([], Js.dropWhile Js.isDigit l1)
              end) as [fp l3].
    destruct (Js.takeWhile Js.isDigit l1 ++ fp); [discriminate |].
    destruct (Num.digitsVal 0 _) as [| m | m]; cbn [Num.signed]; try discriminate.
    rewrite decimal_not_negative. discriminate.
Qed.

Lemma normalized_no_space (s : string) c :
  In c (Js.chars (normalized s)) -> Js.isSpace c = false.
Proof.
  unfold normalized, Js.removeAll. rewrite !chars_str, !filter_In.
  intros ((((_ & H) & _) & _) & _). cbv beta in H. unfold isCurrencyNoise in H.
  rewrite negb_true_iff, orb_false_iff in H. apply H.
Qed.

End Sign.

(** [parseNumber] returns a number below zero only for a cell whose first
    character, once [$], commas, white space, parentheses and [%] are
    removed, is a minus sign: parentheses around an amount never make it
    negative. *)
Theorem parseNumber_negative_needs_minus (s : string) :
  (parseNumber (CString s) <? 0)%float = true ->
  exists rest, Js.chars (normalized s) = "-"%char :: rest.
Proof.
  rewrite parseNumber_normalized. cbv zeta.
  destruct (Num.isFinite (Num.parseFloat (normalized s))); [| discriminate].
  intros H. apply parseFloat_negative in H.
  rewrite dropWhile_none in H; [exact H |]. apply normalized_no_space.
Qed.

Lemma parseNumber_negative_needs_minus_witness :
  exists rest, Js.chars (normalized "($-12.50)") = "-"%char :: rest.
Proof.
  apply (parseNumber_negative_needs_minus "($-12.50)"). vm_compute. reflexivity.
Defined.

(** ** Dates in the standard format *)

Section StandardDates.

Import Date.

Lemma monthOf_unique leap diy m :
  1 <= m <= 12 ->
  daysBefore leap m <= diy < daysBefore leap (m + 1) ->
  monthOf leap diy = m.
Proof.
  intros Hm Hd.
  assert (H0 : 0 <= diy < daysBefore leap 13).
  { assert (0 <= daysBefore leap m).
    { destruct (Z.eq_dec m 1) as [-> | N]; [cbn; lia |].
      pose proof (daysBefore_mono leap 1 m). cbn in *. lia. }
    assert (daysBefore leap (m + 1) <= daysBefore leap 13).
    { destruct (Z.eq_dec (m + 1) 13) as [-> | N]; [lia |].
      pose proof (daysBefore_mono leap (m + 1) 13). lia. }
    lia. }
  pose proof (monthOf_spec leap diy H0) as (Hr & Hs).
  set (m' := monthOf leap diy) in *.
  destruct (Z.lt_trichotomy m' m) as [L | [E | L]]; [| exact E |]; exfalso.
  - assert (daysBefore leap (m' + 1) <= daysBefore leap m).
    { destruct (Z.eq_dec (m' + 1) m) as [<- | N]; [lia |].
      apply Z.lt_le_incl. apply daysBefore_mono; lia. }
    lia.
  - assert (daysBefore leap (m + 1) <= daysBefore leap m').
    { destruct (Z.eq_dec (m + 1) m') as [<- | N]; [lia |].
      apply Z.lt_le_incl. apply daysBefore_mono; lia. }
    lia.
Qed.

(** The civil date of the day of a date of the calendar is that date. *)
Lemma civil_dayOfCivil y m dt :
  1 <= m <= 12 -> 1 <= dt <= daysInMonth y m ->
  civil (dayOfCivil y m dt) = (y, m, dt).
Proof.
  intros Hm Hd. unfold daysInMonth in Hd. unfold civil, dayOfCivil.
  assert (H0 : 0 <= daysBefore (isLeap y) m).
  { destruct (Z.eq_dec m 1) as [-> | N]; [cbn; lia |].
    pose proof (daysBefore_mono (isLeap y) 1 m). cbn in *. lia. }
  assert (H1 : daysBefore (isLeap y) (m + 1) <= daysBefore (isLeap y) 13).
  { destruct (Z.eq_dec (m + 1) 13) as [-> | N]; [lia |].
    pose proof (daysBefore_mono (isLeap y) (m + 1) 13). lia. }
  assert (Ey : YearFromDay (DayFromYear y + daysBefore (isLeap y) m + dt - 1) = y).
  { apply YearFromDay_unique. rewrite DayFromYear_length. lia. }
  rewrite Ey.
  replace (DayFromYear y + daysBefore (isLeap y) m + dt - 1 - DayFromYear y)
    with (daysBefore (isLeap y) m + dt - 1) by lia.
  rewrite (monthOf_unique (isLeap y) _ m Hm) by lia.
  do 2 f_equal. lia.
Qed.

Lemma isoDate_nonempty y m dt : Js.str (isoDate y m dt) <> "".
Proof. unfold isoDate. cbn [pad app Js.str string_of_list_ascii]. discriminate. Qed.

End StandardDates.

(** A cell that, trimmed and with its slashes turned to dashes, is a date
    [YYYY-MM-DD] of the calendar resolves to that date on every host,
    whatever its time zone. *)
Theorem standard_date_resolves_to_itself (legacy : string -> option Z)
    (raw : string) (y m dt : Z) :
  0 <= y <= 9999 -> 1 <= m <= 12 -> 1 <= dt <= Date.daysInMonth y m ->
  Js.replaceChar "/" "-" (Js.trim raw) = Js.str (isoDate y m dt) ->
  tryParseDate legacy (Some raw) = Some (Js.str (isoDate y m dt)).
Proof.
  intros Hy Hm Hd E. unfold tryParseDate.
  pose proof (isoDate_nonempty y m dt) as Hne.
  destruct (String.eqb_spec raw "") as [-> | _].
  { contradiction Hne. rewrite <- E. reflexivity. }
  destruct (String.eqb_spec (Js.trim raw) "") as [K | _].
  { contradiction Hne. rewrite <- E, K. reflexivity. }
  rewrite E. unfold Date.parse. rewrite (parseISODate_isoDate y m dt Hy Hm Hd).
  pose proof (civil_dayOfCivil y m dt Hm Hd) as Hc.
  pose proof (plain_day_bounds (Date.dayOfCivil y m dt)) as Hb.
  rewrite Hc in Hb. cbn [fst] in Hb. specialize (Hb Hy).
  unfold Date.timeClip.
  destruct (Z.leb_spec (Z.abs (Date.dayOfCivil y m dt * Date.msPerDay)) Date.maxTime) as [_ | L];
    [| unfold Date.msPerDay, Date.maxTime in L; lia].
  f_equal. pose proof (isoDay_plain (Date.dayOfCivil y m dt * Date.msPerDay)) as P.
  rewrite Z.div_mul in P by discriminate. rewrite Hc in P. exact (P Hy).
Qed.

Lemma standard_date_resolves_to_itself_witness :
  tryParseDate (usDateHost 540) (Some " 2024/02/29 ") = Some "2024-02-29".
Proof.
  apply (standard_date_resolves_to_itself (usDateHost 540) " 2024/02/29 " 2024 2 29).
  - lia.
  - lia.
  - vm_compute. split; discriminate.
  - vm_compute. reflexivity.
Defined.

(** ** Resolved dates resolve to themselves *)

Section Idempotent.

Import Date.

Variable legacy : string -> option Z.

(** The characters of a date: digits and signs. *)
Definition isDateChar (c : ascii) : bool :=
  Js.isDigit c || Ascii.eqb c "-" || Ascii.eqb c "+".

Lemma pad_digits n k :
  0 <= k < 10 ^ Z.of_nat n -> forall c, In c (pad n k) -> isDateChar c = true.
Proof.
  intros Hk c Hc. unfold isDateChar. rewrite (pad_isDigit n k Hk c Hc). reflexivity.
Qed.

Lemma isDateChar_plain c :
  isDateChar c = true ->
  Js.isSpace c = false /\ isSpaceOrT c = false /\ Ascii.eqb c "/" = false.
Proof.
  unfold isDateChar, isSpaceOrT, Js.isSpace, Js.isDigit. intros H.
  destruct (Ascii.eqb_spec c "-") as [E1 | N1]; [subst c; split; [| split]; reflexivity |].
  destruct (Ascii.eqb_spec c "+") as [E2 | N2]; [subst c; split; [| split]; reflexivity |].
  rewrite !orb_false_r in H. apply andb_true_iff in H. destruct H as [H1 H2].
  apply Z.leb_le in H1, H2.
  assert (Hs : (9 <=? Js.code c) && (Js.code c <=? 13) || (Js.code c =? 32)
               || (Js.code c =? 160) = false).
  { apply orb_false_iff. split; [apply orb_false_iff; split |].
    - apply andb_false_iff. right. apply Z.leb_gt. lia.
    - apply Z.eqb_neq. lia.
    - apply Z.eqb_neq. lia. }
  split; [exact Hs |]. split.
  - rewrite Hs. destruct (Ascii.eqb_spec c "T") as [E | _]; [subst c; change (Js.code "T") with 84 in H2; lia | reflexivity].
  - destruct (Ascii.eqb_spec c "/") as [E | _]; [subst c; change (Js.code "/") with 47 in H1; lia | reflexivity].
Qed.

Lemma trim_id (s : string) :
  (forall c, In c (Js.chars s) -> Js.isSpace c = false) -> Js.trim s = s.
Proof.
  intros H. unfold Js.trim. rewrite (dropWhile_none _ _ H).
  rewrite dropWhile_none, rev_involutive; [apply str_chars |].
  intros c Hc. apply H. apply in_rev. exact Hc.
Qed.

Lemma replaceChar_id (x y : ascii) (s : string) :
  (forall c, In c (Js.chars s) -> Ascii.eqb c x = false) -> Js.replaceChar x y s = s.
Proof.
  intros H. unfold Js.replaceChar. rewrite <- (str_chars s) at 2. f_equal.
  induction (Js.chars s) as [| c l IH]; [reflexivity |].
  cbn [map]. rewrite (H c (or_introl eq_refl)), IH; [reflexivity |].
  intros c' Hc'. apply H. right. exact Hc'.
Qed.

Lemma beforeFirst_id (cls : ascii -> bool) (s : string) :
  (forall c, In c (Js.chars s) -> cls c = false) -> Js.beforeFirst cls s = s.
Proof.
  intros H. unfold Js.beforeFirst. rewrite <- (str_chars s) at 2. f_equal.
  induction (Js.chars s) as [| c l IH]; [reflexivity |].
  cbn [Js.takeWhile]. rewrite (H c (or_introl eq_refl)). cbn [negb]. rewrite IH; [reflexivity |].
  intros c' Hc'. apply H. right. exact Hc'.
Qed.

(** [tryParseDate] on a string of digits and signs that is in the
    standard format. *)
Lemma tryParseDate_clean (s : string) (t0 : Z) :
  s <> "" ->
  (forall c, In c (Js.chars s) -> isDateChar c = true) ->
  parseISODate s = Some t0 ->
  tryParseDate legacy (Some s) = option_map isoDay (timeClip t0).
Proof.
  intros Hne Hc Hp. unfold tryParseDate.
  destruct (String.eqb_spec s "") as [E | _]; [contradiction |].
  rewrite trim_id by (intros c K; apply (isDateChar_plain c (Hc c K))).
  destruct (String.eqb_spec s "") as [E | _]; [contradiction |].
  rewrite replaceChar_id by (intros c K; apply (isDateChar_plain c (Hc c K))).
  rewrite beforeFirst_id by (intros c K; apply (isDateChar_plain c (Hc c K))).
  unfold Date.parse. rewrite Hp. destruct (timeClip t0); reflexivity.
Qed.

Lemma day_of_valid t :
  Z.abs t <= maxTime -> -100000000 <= t / msPerDay <= 100000000.
Proof. unfold maxTime, msPerDay. intros H. Z.div_mod_to_equations. lia. Qed.

End Idempotent.

(** A date that [tryParseDate] returns resolves to itself when it is given
    back to [tryParseDate], on the same host or another: the function is
    idempotent.  The one exception is ["-271821-04"], the month in which
    the time values begin: its first day is before the first time value,
    and it resolves to nothing. *)
Theorem tryParseDate_idempotent (legacy legacy' : string -> option Z)
    (raw : option string) (k : string) :
  tryParseDate legacy raw = Some k ->
  tryParseDate legacy' (Some k)
  = if String.eqb k "-271821-04" then None else Some k.
Proof.
  intros H. destruct (String.eqb_spec k "-271821-04") as [-> | Hk].
  { rewrite (tryParseDate_clean legacy' "-271821-04"
               (Date.dayOfCivil (-271821) 4 1 * Date.msPerDay)).
    - reflexivity.
    - discriminate.
    - intros c Hc. cbn in Hc.
      repeat (destruct Hc as [<- | Hc]; [reflexivity |]). contradiction Hc.
    - vm_compute. reflexivity. }
  destruct (tryParseDate_valid legacy raw k H) as (t & -> & Ht).
  pose proof (day_of_valid t Ht) as Hd.
  pose proof (valid_year t Ht) as Hy.
  pose proof (isoDay_plain t) as Pp. pose proof (isoDay_expanded t) as Pe.
  pose proof (civil_valid (t / Date.msPerDay)) as V.
  unfold Date.civil in Pp, Pe, V.
  set (d := t / Date.msPerDay) in *.
  set (y := Date.YearFromDay d) in *.
  set (m := Date.monthOf (Date.isLeap y) (d - Date.DayFromYear y)) in *.
  set (dt := d - Date.DayFromYear y - Date.daysBefore (Date.isLeap y) m + 1) in *.
  cbv beta iota zeta in Pp, Pe, V. destruct V as (Vm & Vd & Vc).
  assert (Rm : 0 <= m < 10 ^ Z.of_nat 2) by (change (10 ^ Z.of_nat 2) with 100; lia).
  destruct (Z_le_dec 0 y) as [L0 | L0]; [destruct (Z_le_dec y 9999) as [L1 | L1] |].
  - (* a year from 0000 to 9999 *)
    assert (Hy' : 0 <= y <= 9999) by lia.
    destruct (plain_range y m dt Hy' Vm Vd) as (Ry & _ & Rd).
    rewrite (Pp Hy').
    rewrite (tryParseDate_clean legacy' _ (Date.dayOfCivil y m dt * Date.msPerDay)).
    + unfold Date.timeClip. rewrite Vc.
      destruct (Z.leb_spec (Z.abs (d * Date.msPerDay)) Date.maxTime) as [_ | L];
        [| unfold Date.msPerDay, Date.maxTime in L; lia].
      cbn [option_map]. f_equal.
      pose proof (isoDay_plain (d * Date.msPerDay)) as P.
      rewrite Z.div_mul in P by discriminate. unfold Date.civil in P.
      exact (P Hy').
    + apply isoDate_nonempty.
    + intros c. rewrite chars_str. unfold isoDate. rewrite !in_app_iff. cbn [In].
      rewrite !in_app_iff. cbn [In].
      intros [K | [<- | [K | [<- | K]]]]; try reflexivity;
        [exact (pad_digits 4 y Ry c K) | exact (pad_digits 2 m Rm c K)
         | exact (pad_digits 2 dt Rd c K)].
    + apply parseISODate_isoDate; assumption.
  - (* a year after 9999 *)
    assert (Hy' : ~ 0 <= y <= 9999) by lia.
    assert (Ra : 0 <= Z.abs y < 10 ^ Z.of_nat 6)
      by (change (10 ^ Z.of_nat 6) with 1000000; lia).
    assert (V1 : 1 <= 1 <= Date.daysInMonth y m) by lia.
    rewrite (Pe Hy').
    rewrite (tryParseDate_clean legacy' _ (Date.dayOfCivil y m 1 * Date.msPerDay)).
    + unfold Date.timeClip.
      assert (Hb : Date.dayOfCivil y m 1 = d - dt + 1) by (unfold Date.dayOfCivil in *; lia).
      assert (Hlow : Date.DayFromYear 9999 <= Date.dayOfCivil y m 1).
      { pose proof (DayFromYear_mono 9999 y ltac:(lia)).
        pose proof (civil_dayOfCivil y m 1 Vm V1) as C1.
        pose proof (YearFromDay_spec (Date.dayOfCivil y m 1)) as S1.
        unfold Date.civil in C1. injection C1 as C1 _ _. rewrite C1 in S1. lia. }
      change (Date.DayFromYear 9999) with 2932532 in Hlow.
      destruct (Z.leb_spec (Z.abs (Date.dayOfCivil y m 1 * Date.msPerDay)) Date.maxTime)
        as [_ | L]; [| unfold Date.msPerDay, Date.maxTime in L; lia].
      cbn [option_map]. f_equal.
      pose proof (isoDay_expanded (Date.dayOfCivil y m 1 * Date.msPerDay)) as P.
      rewrite Z.div_mul in P by discriminate.
      rewrite (civil_dayOfCivil y m 1 Vm V1) in P. exact (P Hy').
    + destruct (y <? 0); discriminate.
    + intros c. rewrite chars_str. cbn [In]. rewrite in_app_iff. cbn [In].
      intros [<- | [K | [<- | K]]]; try (destruct (y <? 0); reflexivity); try reflexivity;
        [exact (pad_digits 6 (Z.abs y) Ra c K) | exact (pad_digits 2 m Rm c K)].
    + apply parseISODate_expanded; [exact Hy' | apply Ra | exact Vm].
  - (* a year before 0000 *)
    assert (Hy' : ~ 0 <= y <= 9999) by lia.
    assert (Ra : 0 <= Z.abs y < 10 ^ Z.of_nat 6)
      by (change (10 ^ Z.of_nat 6) with 1000000; lia).
    assert (V1 : 1 <= 1 <= Date.daysInMonth y m) by lia.
    rewrite (Pe Hy') in Hk |- *.
    rewrite (tryParseDate_clean legacy' _ (Date.dayOfCivil y m 1 * Date.msPerDay)).
    + unfold Date.timeClip.
      assert (Hb : Date.dayOfCivil y m 1 = d - dt + 1) by (unfold Date.dayOfCivil in *; lia).
      destruct (Z.leb_spec (Z.abs (Date.dayOfCivil y m 1 * Date.msPerDay)) Date.maxTime)
        as [_ | L].
      * cbn [option_map]. f_equal.
        pose proof (isoDay_expanded (Date.dayOfCivil y m 1 * Date.msPerDay)) as P.
        rewrite Z.div_mul in P by discriminate.
        rewrite (civil_dayOfCivil y m 1 Vm V1) in P. exact (P Hy').
      * exfalso. apply Hk.
        assert (Hd1 : Date.dayOfCivil y m 1 < -100000000)
          by (unfold Date.msPerDay, Date.maxTime in L; lia).
        assert (H0 : 0 <= Date.daysBefore (Date.isLeap y) m).
        { destruct (Z.eq_dec m 1) as [-> | N]; [cbn; lia |].
          pose proof (daysBefore_mono (Date.isLeap y) 1 m). cbn in *. lia. }
        assert (Ey : y = -271821).
        { destruct (Z.eq_dec y (-271821)) as [E | N]; [exact E | exfalso].
          pose proof (DayFromYear_mono (-271820) y ltac:(lia)) as M.
          change (Date.DayFromYear (-271820)) with (-99999744) in M.
          unfold Date.dayOfCivil in Hd1. lia. }
        assert (Em : m = 4).
        { unfold Date.dayOfCivil, Date.daysInMonth in *. rewrite Ey in *.
          change (Date.isLeap (-271821)) with false in *.
          change (Date.DayFromYear (-271821)) with (-100000109) in *.
          assert (C : m = 1 \/ m = 2 \/ m = 3 \/ m = 4 \/ m = 5 \/ m = 6 \/ m = 7 \/
                      m = 8 \/ m = 9 \/ m = 10 \/ m = 11 \/ m = 12) by lia.
          repeat (destruct C as [C | C]); try exact C; exfalso; rewrite C in *;
            cbn in Hd1, Vd, Hb; lia. }
        rewrite Ey, Em. reflexivity.
    + destruct (y <? 0); discriminate.
    + intros c. rewrite chars_str. cbn [In]. rewrite in_app_iff. cbn [In].
      intros [<- | [K | [<- | K]]]; try (destruct (y <? 0); reflexivity); try reflexivity;
        [exact (pad_digits 6 (Z.abs y) Ra c K) | exact (pad_digits 2 m Rm c K)].
    + apply parseISODate_expanded; [exact Hy' | apply Ra | exact Vm].
Qed.

Lemma tryParseDate_idempotent_witness :
  tryParseDate isoOnly (Some "2024-01-15") = Some "2024-01-15".
Proof.
  apply (tryParseDate_idempotent (usDateHost 60) isoOnly (Some "01/16/2024") "2024-01-15").
  vm_compute. reflexivity.
Defined.

(** ** What [new Date] reads from the daily dates *)

Section ResolvedRange.

Import Date.

(** The date that [tryParseDate] makes of a valid time value is in the
    standard format, and the time value that [new Date] reads from it is
    valid too, except for the month in which the time values begin: the
    first day of ["-271821-04"] is before the first of them. *)
Lemma resolved_range t :
  Z.abs t <= maxTime ->
  exists d, parseISODate (isoDay t) = Some (d * msPerDay) /\
            (Z.abs (d * msPerDay) <= maxTime \/ isoDay t = "-271821-04").
Proof.
  intros Ht.
  assert (Hd : -100000000 <= t / msPerDay <= 100000000).
  { unfold maxTime, msPerDay in *. Z.div_mod_to_equations. lia. }
  pose proof (valid_year t Ht) as Hy.
  pose proof (isoDay_plain t) as Pp. pose proof (isoDay_expanded t) as Pe.
  pose proof (civil_valid (t / msPerDay)) as V.
  unfold civil in Pp, Pe, V.
  set (d := t / msPerDay) in *.
  set (y := YearFromDay d) in *.
  set (m := monthOf (isLeap y) (d - DayFromYear y)) in *.
  set (dt := d - DayFromYear y - daysBefore (isLeap y) m + 1) in *.
  cbv beta iota zeta in Pp, Pe, V. destruct V as (Vm & Vd & Vc).
  assert (V1 : 1 <= 1 <= daysInMonth y m) by lia.
  assert (Hb : dayOfCivil y m 1 = d - dt + 1) by (unfold dayOfCivil in *; lia).
  destruct (Z_le_dec 0 y) as [L0 | L0]; [destruct (Z_le_dec y 9999) as [L1 | L1] |].
  - exists (dayOfCivil y m dt). rewrite Pp by lia. split.
    + apply parseISODate_isoDate; [lia | exact Vm | exact Vd].
    + left. rewrite Vc. unfold maxTime, msPerDay. lia.
  - exists (dayOfCivil y m 1). rewrite Pe by lia. split.
    + apply parseISODate_expanded;
        [lia | change (10 ^ Z.of_nat 6) with 1000000; lia | exact Vm].
    + left.
      assert (Hlow : DayFromYear 9999 <= dayOfCivil y m 1).
      { pose proof (DayFromYear_mono 9999 y ltac:(lia)).
        pose proof (civil_dayOfCivil y m 1 Vm V1) as C1.
        pose proof (YearFromDay_spec (dayOfCivil y m 1)) as S1.
        unfold civil in C1. injection C1 as C1 _ _. rewrite C1 in S1. lia. }
      change (DayFromYear 9999) with 2932532 in Hlow.
      unfold maxTime, msPerDay. lia.
  - exists (dayOfCivil y m 1). rewrite Pe by lia. split.
    + apply parseISODate_expanded;
        [lia | change (10 ^ Z.of_nat 6) with 1000000; lia | exact Vm].
    + destruct (Z_le_dec (-100000000) (dayOfCivil y m 1)) as [L | L];
        [left; unfold maxTime, msPerDay; lia | right].
      assert (H0 : 0 <= daysBefore (isLeap y) m).
      { destruct (Z.eq_dec m 1) as [-> | N]; [cbn; lia |].
        pose proof (daysBefore_mono (isLeap y) 1 m). cbn in *. lia. }
      assert (Ey : y = -271821).
      { destruct (Z.eq_dec y (-271821)) as [E | N]; [exact E | exfalso].
        pose proof (DayFromYear_mono (-271820) y ltac:(lia)) as M.
        change (DayFromYear (-271820)) with (-99999744) in M.
        unfold dayOfCivil in L. lia. }
      assert (Em : m = 4).
      { unfold dayOfCivil, daysInMonth in *. rewrite Ey in *.
        change (isLeap (-271821)) with false in *.
        change (DayFromYear (-271821)) with (-100000109) in *.
        assert (C : m = 1 \/ m = 2 \/ m = 3 \/ m = 4 \/ m = 5 \/ m = 6 \/ m = 7 \/
                    m = 8 \/ m = 9 \/ m = 10 \/ m = 11 \/ m = 12) by lia.
        repeat (destruct C as [C | C]); try exact C; exfalso; rewrite C in *;
          cbn in L, Vd, Hb; lia. }
      rewrite Ey, Em. reflexivity.
Qed.

(** What [new Date] reads from a resolved date, on every host. *)
Lemma parse_resolved (legacy : string -> option Z) t :
  Z.abs t <= maxTime ->
  exists d, parseISODate (isoDay t) = Some (d * msPerDay) /\
            Date.parse legacy (isoDay t)
            = if String.eqb (isoDay t) "-271821-04" then None else Some (d * msPerDay).
Proof.
  intros Ht. destruct (resolved_range t Ht) as (d & Hp & Hr).
  exists d. split; [exact Hp |]. unfold Date.parse. rewrite Hp.
  destruct (String.eqb_spec (isoDay t) "-271821-04") as [E | N].
  - rewrite E in Hp.
    assert (Hx : parseISODate "-271821-04" = Some (-100000019 * msPerDay))
      by (vm_compute; reflexivity).
    rewrite Hx in Hp. injection Hp as Hp.
    assert (Ed : d = -100000019) by (unfold msPerDay in Hp; lia).
    rewrite Ed. reflexivity.
  - destruct Hr as [Hr | Hr]; [| contradiction].
    unfold timeClip. apply Z.leb_le in Hr. rewrite Hr. reflexivity.
Qed.

End ResolvedRange.

(** After every successful run each Daily Aggregate's date is a string of
    the standard format, which every host reads in the same way: as UTC
    midnight of a day, except ["-271821-04"], the month in which the time
    values begin, which [new Date] rejects.  So [calendarDays] is [NaN]
    exactly when the first or the last date is that one, and otherwise it
    is the difference of the two day numbers plus one. *)
Theorem daily_dates_standard (legacy : string -> option Z)
    (rows : list RawRow) (daily : list DailyAggregate) (s : Summary) :
  aggregate legacy rows = Returned daily s ->
  Forall (fun e =>
            exists d,
              Date.parseISODate (dateISO e) = Some (d * Date.msPerDay) /\
              forall host,
                Date.parse host (dateISO e)
                = if String.eqb (dateISO e) "-271821-04" then None
                  else Some (d * Date.msPerDay))
         daily /\
  exists first stop,
    hd_error daily = Some first /\ stop = last daily first /\
    (calendarDays s = None <->
     dateISO first = "-271821-04" \/ dateISO stop = "-271821-04") /\
    forall n, calendarDays s = Some n ->
              exists d1 d2,
                Date.parse legacy (dateISO first) = Some (d1 * Date.msPerDay) /\
                Date.parse legacy (dateISO stop) = Some (d2 * Date.msPerDay) /\
                n = d2 - d1 + 1.
Proof.
  intros H. apply aggregate_Returned in H.
  destruct H as (row0 & rest & c & -> & _ & _ & _ & Hdaily & Hne & ->).
  fold (dailyOf legacy (row0 :: rest) c
          (detectMetricColumns (row0 :: rest) (keys row0))) in Hdaily.
  assert (Hall : forall e, In e daily ->
            exists d,
              Date.parseISODate (dateISO e) = Some (d * Date.msPerDay) /\
              forall host,
                Date.parse host (dateISO e)
                = if String.eqb (dateISO e) "-271821-04" then None
                  else Some (d * Date.msPerDay)).
  { intros e He.
    assert (Hk : In (dateISO e) (map dateISO daily)) by (apply in_map; exact He).
    rewrite Hdaily in Hk. apply dailyOf_keys in Hk. destruct Hk as (row & _ & Hk).
    destruct (tryParseDate_valid legacy _ _ Hk) as (t & -> & Ht).
    destruct (parse_resolved legacy t Ht) as (d & Hp & _).
    exists d. split; [exact Hp |]. intros host.
    destruct (parse_resolved host t Ht) as (d' & Hp' & Hh).
    rewrite Hp in Hp'. injection Hp' as Hp'.
    assert (d' = d) by (unfold Date.msPerDay in Hp'; lia). subst d'. exact Hh. }
  split; [apply Forall_forall; exact Hall |].
  destruct daily as [| first l]; [contradiction Hne; reflexivity |].
  exists first, (last (first :: l) first). split; [reflexivity |]. split; [reflexivity |].
  destruct (Hall first (or_introl eq_refl)) as (d1 & _ & H1).
  destruct (Hall (last (first :: l) first) (last_In first l first)) as (d2 & _ & H2).
  cbn [calendarDays summaryOf spanDays]. rewrite (H1 legacy), (H2 legacy).
  destruct (String.eqb_spec (dateISO first) "-271821-04") as [E1 | N1].
  { split; [split; auto | discriminate]. }
  destruct (String.eqb_spec (dateISO (last (first :: l) first)) "-271821-04") as [E2 | N2].
  { split; [split; auto | discriminate]. }
  split.
  - split; [discriminate | intros [K | K]; contradiction].
  - intros n Hn. injection Hn as <-. exists d1, d2. repeat split.
    replace (d2 * Date.msPerDay - d1 * Date.msPerDay) with ((d2 - d1) * Date.msPerDay) by lia.
    rewrite roundDiv_days. reflexivity.
Qed.

Lemma daily_dates_standard_witness :
  match aggregate isoOnly firstDayRows with
  | Returned daily s =>
      map dateISO daily = ["-271821-04"] /\ calendarDays s = None
  | Threw _ => False
  end.
Proof.
  destruct (aggregate isoOnly firstDayRows) as [msg | daily s] eqn:E.
  - vm_compute in E. discriminate E.
  - destruct (daily_dates_standard isoOnly firstDayRows daily s E)
      as (_ & first & stop & Hf & _ & Hc & _).
    assert (Hk : map dateISO daily = ["-271821-04"])
      by (vm_compute in E; injection E as <- _; reflexivity).
    split; [exact Hk |]. apply Hc. left.
    destruct daily as [| e l]; [discriminate Hk |].
    injection Hf as <-. injection Hk as Hk _. exact Hk.
Defined.

(** ** Text after a date *)

Section TrailingText.

Import Date.

Variable legacy : string -> option Z.

Lemma dropWhile_app_stop {A} (p : A -> bool) (x y : list A) :
  Js.dropWhile p y = y -> Js.dropWhile p (x ++ y) = Js.dropWhile p x ++ y.
Proof.
  intros Hy. induction x as [| a x IH]; [exact Hy |].
  cbn [app Js.dropWhile]. destruct (p a); [exact IH | reflexivity].
Qed.

Lemma dropWhile_snoc {A} (p : A -> bool) (x : list A) (c : A) :
  Js.dropWhile p (x ++ [c]) = [] \/ exists x', Js.dropWhile p (x ++ [c]) = x' ++ [c].
Proof.
  induction x as [| a x IH]; cbn [app Js.dropWhile].
  - destruct (p c); [left; reflexivity | right; exists []; reflexivity].
  - destruct (p a); [exact IH | right; exists (a :: x); reflexivity].
Qed.

Lemma takeWhile_app_stop {A} (p : A -> bool) (x : list A) (c : A) (y : list A) :
  (forall a, In a x -> p a = true) -> p c = false ->
  Js.takeWhile p (x ++ c :: y) = x.
Proof.
  intros Hx Hc. induction x as [| a x IH]; cbn [app Js.takeWhile].
  - rewrite Hc. reflexivity.
  - rewrite (Hx a (or_introl eq_refl)), IH; [reflexivity |].
    intros b Hb. apply Hx. right. exact Hb.
Qed.

(** A date [YYYY-MM-DD] of the calendar names UTC midnight of its day to
    every host, and [toISOString] gives it back. *)
Lemma parse_isoDate y m dt :
  0 <= y <= 9999 -> 1 <= m <= 12 -> 1 <= dt <= daysInMonth y m ->
  Date.parse legacy (Js.str (isoDate y m dt)) = Some (dayOfCivil y m dt * msPerDay) /\
  isoDay (dayOfCivil y m dt * msPerDay) = Js.str (isoDate y m dt).
Proof.
  intros Hy Hm Hd. unfold Date.parse. rewrite (parseISODate_isoDate y m dt Hy Hm Hd).
  pose proof (civil_dayOfCivil y m dt Hm Hd) as Hc.
  pose proof (plain_day_bounds (dayOfCivil y m dt)) as Hb.
  rewrite Hc in Hb. cbn [fst] in Hb. specialize (Hb Hy).
  unfold timeClip.
  destruct (Z.leb_spec (Z.abs (dayOfCivil y m dt * msPerDay)) maxTime) as [_ | L];
    [| unfold msPerDay, maxTime in L; lia].
  split; [reflexivity |].
  pose proof (isoDay_plain (dayOfCivil y m dt * msPerDay)) as P.
  rewrite Z.div_mul in P by discriminate. rewrite Hc in P. exact (P Hy).
Qed.

(** Trimming a date followed by text keeps the date, and the text up to
    its last character that is not white space. *)
Lemma trim_after_date y m dt sep rest :
  0 <= y <= 9999 -> 1 <= m <= 12 -> 1 <= dt <= daysInMonth y m ->
  Js.trim (Js.str (isoDate y m dt ++ sep :: rest)) = Js.str (isoDate y m dt) \/
  exists rest', Js.trim (Js.str (isoDate y m dt ++ sep :: rest))
                = Js.str (isoDate y m dt ++ sep :: rest').
Proof.
  intros Hy Hm Hd. destruct (plain_range y m dt Hy Hm Hd) as (Ry & Rm & Rd).
  assert (Hplain : forall c, In c (isoDate y m dt) -> Js.isSpace c = false).
  { intros c Hc. apply isDateChar_plain. revert Hc. unfold isoDate.
    rewrite !in_app_iff. cbn [In]. rewrite !in_app_iff. cbn [In].
    intros [K | [<- | [K | [<- | K]]]]; try reflexivity;
      [exact (pad_digits 4 y Ry c K) | exact (pad_digits 2 m Rm c K)
       | exact (pad_digits 2 dt Rd c K)]. }
  unfold Js.trim. rewrite chars_str.
  assert (E1 : Js.dropWhile Js.isSpace (isoDate y m dt ++ sep :: rest)
               = isoDate y m dt ++ sep :: rest).
  { destruct (isoDate y m dt) as [| c l] eqn:E.
    - exfalso. revert E. unfold isoDate. cbn [pad app]. discriminate.
    - cbn [app Js.dropWhile]. rewrite (Hplain c (or_introl eq_refl)). reflexivity. }
  rewrite E1, rev_app_distr.
  assert (E2 : Js.dropWhile Js.isSpace (rev (isoDate y m dt)) = rev (isoDate y m dt)).
  { apply dropWhile_none. intros c Hc. apply Hplain. apply in_rev. exact Hc. }
  rewrite (dropWhile_app_stop _ _ _ E2), rev_app_distr, rev_involutive.
  cbn [rev]. destruct (dropWhile_snoc Js.isSpace (rev rest) sep) as [E | [x' E]]; rewrite E.
  - left. cbn [rev]. rewrite app_nil_r. reflexivity.
  - right. exists (rev x'). rewrite rev_app_distr. reflexivity.
Qed.

End TrailingText.

(** A cell that begins with a date [YYYY-MM-DD] of the calendar, followed
    by white space or [T] and any text, resolves to that date on every host
    that rejects the cell as a whole: the second attempt drops the text,
    whatever it is and whatever the time zone. *)
Theorem trailing_text_dropped (legacy : string -> option Z)
    (y m dt : Z) (sep : ascii) (rest : list ascii) :
  0 <= y <= 9999 -> 1 <= m <= 12 -> 1 <= dt <= Date.daysInMonth y m ->
  isSpaceOrT sep = true ->
  let raw := Js.str (isoDate y m dt ++ sep :: rest) in
  Date.parse legacy (Js.replaceChar "/" "-" (Js.trim raw)) = None ->
  tryParseDate legacy (Some raw) = Some (Js.str (isoDate y m dt)).
Proof.
  intros Hy Hm Hd Hsep raw Hrej.
  destruct (parse_isoDate legacy y m dt Hy Hm Hd) as [Hp Hi].
  destruct (plain_range y m dt Hy Hm Hd) as (Ry & Rm & Rd).
  assert (Hchars : forall c, In c (isoDate y m dt) -> isDateChar c = true).
  { intros c. unfold isoDate. rewrite !in_app_iff. cbn [In]. rewrite !in_app_iff. cbn [In].
    intros [K | [<- | [K | [<- | K]]]]; try reflexivity;
      [exact (pad_digits 4 y Ry c K) | exact (pad_digits 2 m Rm c K)
       | exact (pad_digits 2 dt Rd c K)]. }
  destruct (trim_after_date y m dt sep rest Hy Hm Hd) as [E | [rest' E]];
    fold raw in E.
  - exfalso. rewrite E in Hrej. rewrite replaceChar_id in Hrej.
    + rewrite Hp in Hrej. discriminate Hrej.
    + intros c. rewrite chars_str. intros K. apply (isDateChar_plain c (Hchars c K)).
  - unfold tryParseDate.
    destruct (String.eqb_spec raw "") as [K | _].
    { exfalso. revert K. unfold raw, isoDate. cbn [Date.pad app Js.str string_of_list_ascii].
      discriminate. }
    destruct (String.eqb_spec (Js.trim raw) "") as [K | _].
    { exfalso. revert K. rewrite E. unfold isoDate.
      cbn [Date.pad app Js.str string_of_list_ascii]. discriminate. }
    rewrite Hrej. rewrite E. unfold Js.beforeFirst. rewrite chars_str.
    rewrite takeWhile_app_stop.
    + rewrite Hp, Hi. reflexivity.
    + intros c K. destruct (isDateChar_plain c (Hchars c K)) as (_ & -> & _). reflexivity.
    + rewrite Hsep. reflexivity.
Qed.

Lemma trailing_text_dropped_witness :
  tryParseDate isoOnly (Some "2024-01-15 around noon ") = Some "2024-01-15".
Proof.
  apply (trailing_text_dropped isoOnly 2024 1 15 " " (Js.chars "around noon ")).
  - lia.
  - lia.
  - vm_compute. split; discriminate.
  - reflexivity.
  - vm_compute. reflexivity.
Defined.

(** ** Dates written month first *)

(** [MM/DD/YYYY], or [MM-DD-YYYY]. *)
Definition usDate (sep : ascii) (y m dt : Z) : string :=
  Js.str (Date.pad 2 m ++ sep :: Date.pad 2 dt ++ sep :: Date.pad 4 y).

Section MonthFirst.

Import Date.

Variables y m dt : Z.
Hypothesis Hy : 0 <= y <= 9999.
Hypothesis Hm : 1 <= m <= 12.
Hypothesis Hd : 1 <= dt <= daysInMonth y m.

Lemma usDate_chars sep c :
  In c (Js.chars (usDate sep y m dt)) -> Js.isDigit c = true \/ c = sep.
Proof.
  destruct (plain_range y m dt Hy Hm Hd) as (Ry & Rm & Rd).
  unfold usDate. rewrite chars_str, in_app_iff. cbn [In]. rewrite in_app_iff. cbn [In].
  intros [K | [<- | [K | [<- | K]]]]; auto; left.
  - exact (pad_isDigit 2 m Rm c K).
  - exact (pad_isDigit 2 dt Rd c K).
  - exact (pad_isDigit 4 y Ry c K).
Qed.

Lemma map_digits (g : ascii -> ascii) (l : list ascii) :
  (forall c, Js.isDigit c = true -> g c = c) ->
  (forall c, In c l -> Js.isDigit c = true) -> map g l = l.
Proof.
  intros Hg H. induction l as [| c l IH]; [reflexivity |].
  cbn [map]. rewrite (Hg c (H c (or_introl eq_refl))), IH; [reflexivity |].
  intros c' Hc'. apply H. right. exact Hc'.
Qed.

Lemma digit_not_slash c : Js.isDigit c = true -> Ascii.eqb c "/" = false.
Proof.
  intros H. destruct (Ascii.eqb_spec c "/") as [E | _]; [| reflexivity].
  subst c. discriminate H.
Qed.

Lemma digit_not_space c : Js.isDigit c = true -> Js.isSpace c = false.
Proof.
  unfold Js.isDigit, Js.isSpace. intros H. apply andb_true_iff in H.
  destruct H as [H1 H2]. apply Z.leb_le in H1, H2.
  apply orb_false_iff. split; [apply orb_false_iff; split |].
  - apply andb_false_iff. right. apply Z.leb_gt. lia.
  - apply Z.eqb_neq. lia.
  - apply Z.eqb_neq. lia.
Qed.

(** The slashes of [MM/DD/YYYY] turned to dashes. *)
Lemma usDate_dashed : Js.replaceChar "/" "-" (usDate "/" y m dt) = usDate "-" y m dt.
Proof.
  destruct (plain_range y m dt Hy Hm Hd) as (Ry & Rm & Rd).
  unfold Js.replaceChar, usDate. rewrite chars_str. f_equal.
  assert (G : forall c, Js.isDigit c = true -> (if Ascii.eqb c "/" then "-"%char else c) = c).
  { intros c Hc. rewrite (digit_not_slash c Hc). reflexivity. }
  rewrite map_app. cbn [map]. rewrite map_app. cbn [map].
  rewrite !(map_digits _ _ G); try reflexivity.
  - exact (pad_isDigit 4 y Ry).
  - exact (pad_isDigit 2 dt Rd).
  - exact (pad_isDigit 2 m Rm).
Qed.

Lemma usDate_trim : Js.trim (usDate "/" y m dt) = usDate "/" y m dt.
Proof.
  apply trim_id. intros c Hc. destruct (usDate_chars _ c Hc) as [K | ->].
  - apply digit_not_space. exact K.
  - reflexivity.
Qed.

(** [MM-DD-YYYY] is not in the standard format: the host reads it its own
    way. *)
Lemma usDate_not_standard : parseISODate (usDate "-" y m dt) = None.
Proof.
  destruct (plain_range y m dt Hy Hm Hd) as (_ & Rm & _).
  destruct (lead_digit 1 m Rm) as (L1 & R1 & _).
  change (10 ^ Z.of_nat 1) with (10 ^ Z.of_nat (S 0)) in R1.
  destruct (lead_digit 0 _ R1) as (L0 & _ & _).
  unfold parseISODate, usDate. rewrite chars_str. unfold isoYear. cbn [pad app].
  rewrite !(digitChar_not_sign _ _ L1) by reflexivity.
  cbn [digitsN]. rewrite (isDigit_digitChar _ L1), (isDigit_digitChar _ L0).
  reflexivity.
Qed.

End MonthFirst.

(** A cell [MM/DD/YYYY] on a host that reads [MM-DD-YYYY] as midnight of
    that day in its own zone, [offset] minutes east of UTC: [tryParseDate]
    returns the date of the cell when the zone is UTC or west of it, and
    the date of the day before when the zone is east of UTC. *)
Theorem month_first_date_by_zone (legacy : string -> option Z)
    (offset y m dt : Z) :
  1 <= y <= 9999 -> 1 <= m <= 12 -> 1 <= dt <= Date.daysInMonth y m ->
  -720 <= offset <= 840 ->
  legacy (usDate "-" y m dt)
  = Some (Date.dayOfCivil y m dt * Date.msPerDay - offset * 60000) ->
  let resolved := tryParseDate legacy (Some (usDate "/" y m dt)) in
  (offset <= 0 -> resolved = Some (Js.str (isoDate y m dt))) /\
  (0 < offset ->
   resolved = Some (isoDay ((Date.dayOfCivil y m dt - 1) * Date.msPerDay)) /\
   resolved <> Some (Js.str (isoDate y m dt))).
Proof.
  intros Hy Hm Hd Ho Hl. cbv zeta.
  assert (Hy' : 0 <= y <= 9999) by lia.
  pose proof (civil_dayOfCivil y m dt Hm Hd) as Hc.
  pose proof (plain_day_bounds (Date.dayOfCivil y m dt)) as Hb.
  rewrite Hc in Hb. cbn [fst] in Hb. specialize (Hb Hy').
  set (d := Date.dayOfCivil y m dt) in *.
  assert (E : tryParseDate legacy (Some (usDate "/" y m dt))
              = Some (isoDay (d * Date.msPerDay - offset * 60000))).
  { unfold tryParseDate.
    destruct (String.eqb_spec (usDate "/" y m dt) "") as [K | _].
    { unfold usDate in K. cbn [Date.pad app Js.str string_of_list_ascii] in K.
      discriminate K. }
    rewrite (usDate_trim y m dt Hy' Hm Hd).
    destruct (String.eqb_spec (usDate "/" y m dt) "") as [K | _].
    { unfold usDate in K. cbn [Date.pad app Js.str string_of_list_ascii] in K.
      discriminate K. }
    rewrite (usDate_dashed y m dt Hy' Hm Hd). unfold Date.parse.
    rewrite (usDate_not_standard y m dt Hy' Hm Hd), Hl. unfold Date.timeClip.
    destruct (Z.leb_spec (Z.abs (d * Date.msPerDay - offset * 60000)) Date.maxTime) as [_ | L];
      [reflexivity | unfold Date.msPerDay, Date.maxTime in L; lia]. }
  rewrite E. split.
  - intros Hw. f_equal.
    pose proof (isoDay_plain (d * Date.msPerDay - offset * 60000)) as P.
    replace ((d * Date.msPerDay - offset * 60000) / Date.msPerDay) with d in P
      by (unfold Date.msPerDay; Z.div_mod_to_equations; lia).
    rewrite Hc in P. exact (P Hy').
  - intros He.
    assert (Hday : (d * Date.msPerDay - offset * 60000) / Date.msPerDay = d - 1)
      by (unfold Date.msPerDay; Z.div_mod_to_equations; lia).
    pose proof (isoDay_plain (d * Date.msPerDay - offset * 60000)) as P.
    pose proof (isoDay_plain ((d - 1) * Date.msPerDay)) as P'.
    rewrite Hday in P. rewrite Z.div_mul in P' by discriminate.
    pose proof (civil_valid (d - 1)) as V.
    assert (Hy1 : 0 <= fst (fst (Date.civil (d - 1))) <= 9999).
    { unfold Date.civil. cbn [fst].
      pose proof (YearFromDay_mono (Date.DayFromYear 0) (d - 1)) as M0.
      pose proof (YearFromDay_mono (d - 1) d ltac:(lia)) as M1.
      assert (Yd : Date.YearFromDay d = y).
      { unfold Date.civil in Hc. injection Hc as Hc _ _. exact Hc. }
      assert (Y0 : Date.YearFromDay (Date.DayFromYear 0) = 0) by reflexivity.
      pose proof (YearFromDay_spec d) as Sd. rewrite Yd in Sd.
      pose proof (DayFromYear_mono 1 y ltac:(lia)) as D1.
      change (Date.DayFromYear 1) with (-719162) in D1.
      change (Date.DayFromYear 0) with (-719528) in *.
      specialize (M0 ltac:(lia)). lia. }
    destruct (Date.civil (d - 1)) as [[y1 m1] t1] eqn:E1. cbn [fst] in Hy1.
    destruct V as (Vm & Vd & Vc).
    rewrite (P Hy1). split; [rewrite (P' Hy1); reflexivity |].
    intros K0.
    assert (K : Js.str (isoDate y1 m1 t1) = Js.str (isoDate y m dt)) by congruence.
    pose proof (parseISODate_isoDate y1 m1 t1 Hy1 Vm Vd) as Q1.
    pose proof (parseISODate_isoDate y m dt Hy' Hm Hd) as Q.
    rewrite K, Q in Q1. injection Q1 as Q1. fold d in Q1. rewrite Vc in Q1.
    unfold Date.msPerDay in Q1. lia.
Qed.

Lemma month_first_date_by_zone_witness :
  tryParseDate (usDateHost 60) (Some "03/01/2024") = Some "2024-02-29" /\
  tryParseDate (usDateHost (-300)) (Some "03/01/2024") = Some "2024-03-01".
Proof.
  split.
  - apply (month_first_date_by_zone (usDateHost 60) 60 2024 3 1); try lia.
    + vm_compute. split; discriminate.
    + vm_compute. reflexivity.
  - apply (month_first_date_by_zone (usDateHost (-300)) (-300) 2024 3 1); try lia.
    + vm_compute. split; discriminate.
    + vm_compute. reflexivity.
Defined.

(** ** Numbers that read as dates *)

Section FourDigits.

Import Date.

Lemma parseISODate_year y :
  0 <= y <= 9999 -> parseISODate (Js.str (pad 4 y)) = Some (dayOfCivil y 1 1 * msPerDay).
Proof.
  intros Hy.
  assert (Ry : 0 <= y < 10 ^ Z.of_nat 4) by (change (10 ^ Z.of_nat 4) with 10000; lia).
  destruct (lead_digit 3 y Ry) as (L & _ & _).
  assert (Hp : pad 4 y = digitChar (y / 10 ^ Z.of_nat 3) :: pad 3 (y mod 10 ^ Z.of_nat 3))
    by reflexivity.
  unfold parseISODate. rewrite chars_str. unfold isoYear.
  rewrite Hp, !(digitChar_not_sign _ _ L) by reflexivity. rewrite <- Hp.
  rewrite <- (app_nil_r (pad 4 y)), digitsN_pad by exact Ry.
  replace (0 * 10 ^ Z.of_nat 4 + y) with y by lia. reflexivity.
Qed.

End FourDigits.

(** A cell made of four digits is read as a date, the first of January of
    that year, on every host.  So a column that comes first and holds
    four digits in every record (a year, or an amount from 1000 to 9999)
    is taken for the date column. *)
Theorem four_digits_read_as_date (legacy : string -> option Z) :
  (forall y, 0 <= y <= 9999 ->
             tryParseDate legacy (Some (Js.str (Date.pad 4 y)))
             = Some (Js.str (isoDate y 1 1))) /\
  (forall rows h rest,
      rows <> [] ->
      (forall row, In row rows ->
                   exists y, 0 <= y <= 9999 /\ get row h = Some (Js.str (Date.pad 4 y))) ->
      detectDateColumn legacy rows (h :: rest) = Some h).
Proof.
  assert (A : forall y, 0 <= y <= 9999 ->
                tryParseDate legacy (Some (Js.str (Date.pad 4 y)))
                = Some (Js.str (isoDate y 1 1))).
  { intros y Hy.
    assert (Ry : 0 <= y < 10 ^ Z.of_nat 4) by (change (10 ^ Z.of_nat 4) with 10000; lia).
    assert (Hm : 1 <= 1 <= 12) by lia.
    assert (Hd : 1 <= 1 <= Date.daysInMonth y 1).
    { unfold Date.daysInMonth. destruct (Date.isLeap y); cbn; lia. }
    rewrite (tryParseDate_clean legacy _ (Date.dayOfCivil y 1 1 * Date.msPerDay)).
    - pose proof (civil_dayOfCivil y 1 1 Hm Hd) as Hc.
      pose proof (plain_day_bounds (Date.dayOfCivil y 1 1)) as Hb.
      rewrite Hc in Hb. cbn [fst] in Hb. specialize (Hb Hy).
      unfold Date.timeClip.
      destruct (Z.leb_spec (Z.abs (Date.dayOfCivil y 1 1 * Date.msPerDay)) Date.maxTime)
        as [_ | L]; [| unfold Date.msPerDay, Date.maxTime in L; lia].
      cbn [option_map]. f_equal.
      pose proof (isoDay_plain (Date.dayOfCivil y 1 1 * Date.msPerDay)) as P.
      rewrite Z.div_mul in P by discriminate. rewrite Hc in P. exact (P Hy).
    - cbn [Date.pad Js.str string_of_list_ascii]. discriminate.
    - intros c. rewrite chars_str. apply pad_digits. exact Ry.
    - apply parseISODate_year. exact Hy. }
  split; [exact A |].
  intros rows h rest Hne Hall. apply detectDateColumn_first; [exact Hne |].
  intros row Hr. destruct (Hall row Hr) as (y & Hy & E).
  unfold resolves. rewrite E, (A y Hy). apply negb_true_iff, String.eqb_neq.
  unfold isoDate. cbn [Date.pad app Js.str string_of_list_ascii]. discriminate.
Qed.

Lemma four_digits_read_as_date_witness :
  tryParseDate isoOnly (Some "1250") = Some "1250-01-01" /\
  detectDateColumn isoOnly
    [[("Amount", "1250"); ("Day", "2024-01-01")]; [("Amount", "3100"); ("Day", "")]]
    ["Amount"; "Day"]
  = Some "Amount".
Proof.
  split.
  - apply (proj1 (four_digits_read_as_date isoOnly) 1250). lia.
  - apply (proj2 (four_digits_read_as_date isoOnly)).
    + discriminate.
    + intros row [<- | [<- | []]]; [exists 1250 | exists 3100]; (split; [lia | reflexivity]).
Defined.

(** ** The order of the days in time *)

(** After every successful run whose Daily Aggregates all have a date of
    the form [YYYY-MM-DD] (a year from 0000 to 9999), the Daily Aggregates
    are in chronological order: the order of the date strings is the order
    of the days they name. *)
Theorem daily_chronological (legacy : string -> option Z)
    (rows : list RawRow) (daily : list DailyAggregate) (s : Summary) :
  aggregate legacy rows = Returned daily s ->
  Forall (fun d => plainDate (dateISO d) = true) daily ->
  StronglySorted
    (fun a b => exists da db,
         dayNumber legacy (dateISO a) = Some da /\
         dayNumber legacy (dateISO b) = Some db /\ da < db)
    daily.
Proof.
  intros H Hplain. apply aggregate_Returned in H.
  destruct H as (row0 & rest & c & -> & _ & _ & _ & Hdaily & _ & _).
  fold (dailyOf legacy (row0 :: rest) c
          (detectMetricColumns (row0 :: rest) (keys row0))) in Hdaily.
  pose proof (dailyOf_sorted legacy (row0 :: rest) c
                (detectMetricColumns (row0 :: rest) (keys row0))) as [Hsorted _].
  rewrite <- Hdaily in Hsorted.
  assert (Hiso : forall e, In e daily ->
            exists t, dateISO e = isoDay t /\ plainDate (isoDay t) = true).
  { intros e He. rewrite Forall_forall in Hplain. specialize (Hplain e He).
    rewrite Hdaily in He. destruct (dailyOf_isoDay legacy _ _ _ _ He) as [t Ht].
    exists t. split; [exact Ht | rewrite <- Ht; exact Hplain]. }
  apply (StronglySorted_weaken dateLt); [| exact Hsorted].
  intros a b Ha Hb Hab.
  destruct (Hiso a Ha) as (ta & Ea & Pa). destruct (Hiso b Hb) as (tb & Eb & Pb).
  exists (ta / Date.msPerDay), (tb / Date.msPerDay).
  rewrite Ea, Eb. split; [apply plain_dayNumber; exact Pa |].
  split; [apply plain_dayNumber; exact Pb |].
  unfold dateLt in Hab. rewrite Ea, Eb, (compare_isoDay ta tb Pa Pb) in Hab.
  apply Z.compare_lt_iff. exact Hab.
Qed.

Lemma daily_chronological_witness :
  match aggregate isoOnly scenarioA with
  | Returned daily _ =>
      StronglySorted
        (fun a b => exists da db,
             dayNumber isoOnly (dateISO a) = Some da /\
             dayNumber isoOnly (dateISO b) = Some db /\ da < db)
        daily
  | Threw _ => False
  end.
Proof.
  destruct (aggregate isoOnly scenarioA) as [msg | daily s] eqn:E.
  - vm_compute in E. discriminate E.
  - apply (daily_chronological isoOnly scenarioA daily s E).
    vm_compute in E. injection E as <- <-. repeat constructor.
Defined.

(** ** The number of operating days *)

Section OperatingDays.

Variable legacy : string -> option Z.

Lemma bucketSet_length bucket k v :
  (List.length (bucketSet bucket k v) <= S (List.length bucket))%nat.
Proof.
  induction bucket as [| e r IH]; cbn [bucketSet List.length]; [lia |].
  destruct (String.eqb (dateISO e) k); cbn [List.length]; lia.
Qed.

Lemma bucket_length c cols rows bucket :
  (List.length (fold_left (rowStep legacy c cols) rows bucket)
   <= List.length bucket + List.length (filter (resolves legacy c) rows))%nat.
Proof.
  revert bucket. induction rows as [| row rows IH]; intros bucket; cbn [fold_left filter].
  - cbn. lia.
  - etransitivity; [apply IH |]. rewrite rowStep_eq. unfold resolves at 2.
    destruct (tryParseDate legacy (get row c)) as [k |] eqn:Ek.
    + replace (Js.truthy (Some k)) with true
        by (symmetry; rewrite <- Ek; apply tryParseDate_truthy; eauto).
      pose proof (bucketSet_length bucket k
        (mkDaily k (fold_left (addMetric cols row) allMetrics
           (amounts match bucketGet bucket k with
                    | Some e => e
                    | None => mkDaily k zeroAmounts
                    end)))).
      cbn [List.length]. lia.
    + cbn [Js.truthy]. lia.
Qed.

End OperatingDays.

(** After every successful run [operatingDays] is the number of Daily
    Aggregates; it is at least 1 and at most the number of records whose
    cell in the date column resolves: [perOperatingDay] never divides by
    zero. *)
Theorem operatingDays_bounds (legacy : string -> option Z)
    (rows : list RawRow) (daily : list DailyAggregate) (s : Summary) :
  aggregate legacy rows = Returned daily s ->
  exists c,
    detectDateColumn legacy rows (keys (hd [] rows)) = Some c /\
    operatingDays s = Z.of_nat (List.length daily) /\
    1 <= operatingDays s <= dateHits legacy rows c /\
    dateHits legacy rows c <= Z.of_nat (List.length rows).
Proof.
  intros H. apply aggregate_Returned in H.
  destruct H as (row0 & rest & c & -> & Hd & _ & _ & Hdaily & Hne & ->).
  exists c. split; [exact Hd |]. split; [reflexivity |].
  cbn [operatingDays summaryOf]. rewrite dateHits_count.
  pose proof (bucket_length legacy c (detectMetricColumns (row0 :: rest) (keys row0))
                (row0 :: rest) []) as Hl.
  rewrite <- (Permutation_length (sortDaily_perm _)), <- Hdaily in Hl.
  pose proof (filter_length_le (resolves legacy c) (row0 :: rest)).
  destruct daily; [contradiction Hne; reflexivity |]. cbn [List.length] in *. lia.
Qed.

Lemma operatingDays_bounds_witness :
  match aggregate isoOnly overflowRows with
  | Returned daily s => operatingDays s = 2 /\ dateHits isoOnly overflowRows "Date" = 4
  | Threw _ => False
  end.
Proof.
  destruct (aggregate isoOnly overflowRows) as [msg | daily s] eqn:E.
  - vm_compute in E. discriminate E.
  - destruct (operatingDays_bounds isoOnly overflowRows daily s E) as (c & _ & Ho & _).
    rewrite Ho. vm_compute in E. injection E as <- <-. split; reflexivity.
Defined.

(** ** The order of the records *)

Section RecordOrder.

Variable legacy : string -> option Z.
Variables rows rows' : list RawRow.
Hypothesis Hperm : Permutation rows rows'.











End RecordOrder.

Section SortedDates.


Lemma StronglySorted_map {A B} (f : A -> B) (R : B -> B -> Prop) (l : list A) :
  StronglySorted (fun a b => R (f a) (f b)) l -> StronglySorted R (map f l).
Proof.
  induction 1 as [| x l Hs IH Hall]; cbn [map]; constructor; [exact IH |].
  rewrite Forall_forall in Hall |- *. intros y Hy. apply in_map_iff in Hy.
  destruct Hy as (a & <- & Ha). exact (Hall a Ha).
Qed.

Lemma last_map {A B} (f : A -> B) (x : A) (l : list A) (d : A) :
  f (last (x :: l) d) = last (map f (x :: l)) (f d).
Proof.
  revert x. induction l as [| y l IH]; intros x; [reflexivity |].
  rewrite last_cons. cbn [map]. rewrite IH. reflexivity.
Qed.


End SortedDates.



(** ** Days without a gap *)

(** Each number is the one before it plus 1. *)
Fixpoint consecutive (l : list Z) : Prop :=
  match l with
  | a :: ((b :: _) as r) => b = a + 1 /\ consecutive r
  | _ => True
  end.

Section Gaps.

(** A strictly increasing sequence spans as many integers as it has
    members exactly when it is consecutive. *)
Lemma span_consecutive (x : Z) (l : list Z) :
  StronglySorted Z.lt (x :: l) ->
  Z.of_nat (List.length (x :: l)) <= last (x :: l) x - x + 1 /\
  (Z.of_nat (List.length (x :: l)) = last (x :: l) x - x + 1 <-> consecutive (x :: l)).
Proof.
  revert x. induction l as [| y l IH]; intros x Hs.
  - cbn. split; [lia | split; [trivial | lia]].
  - inversion Hs as [| ? ? Hl Hall]; subst.
    destruct (IH y Hl) as [Hle Hiff].
    inversion Hall as [| ? ? Hxy _]; subst.
    rewrite last_cons, (last_default y l x y).
    change (consecutive (x :: y :: l)) with (y = x + 1 /\ consecutive (y :: l)).
    rewrite <- Hiff. cbn [List.length] in *. lia.
Qed.

Lemma msgGap_not_everyDay o c : msgGap o c <> msgEveryDay.
Proof. unfold msgGap, msgEveryDay. cbn [append]. discriminate. Qed.

End Gaps.

(** After every successful run whose Daily Aggregates all have a date of
    the form [YYYY-MM-DD] (a year from 0000 to 9999): the first signal is
    ["Performance is normalized: every calendar day shows activity."]
    exactly when the days of the Daily Aggregates follow one another
    without a gap, and it is the operating-day normalization message, with
    the two counts, exactly when some day between the first and the last
    has no record. *)
Theorem every_day_signal_iff_no_gap (legacy : string -> option Z)
    (rows : list RawRow) (daily : list DailyAggregate) (s : Summary) :
  aggregate legacy rows = Returned daily s ->
  Forall (fun d => plainDate (dateISO d) = true) daily ->
  exists days,
    map (fun d => dayNumber legacy (dateISO d)) daily = map Some days /\
    (hd_error (signals s) = Some msgEveryDay <-> consecutive days) /\
    (hd_error (signals s) = Some (msgGap (operatingDays s) (calendarDays s)) <->
     ~ consecutive days).
Proof.
  intros H Hplain. apply aggregate_Returned in H.
  destruct H as (row0 & rest & c & -> & _ & _ & _ & Hdaily & Hne & ->).
  fold (dailyOf legacy (row0 :: rest) c
          (detectMetricColumns (row0 :: rest) (keys row0))) in Hdaily.
  pose proof (dailyOf_sorted legacy (row0 :: rest) c
                (detectMetricColumns (row0 :: rest) (keys row0))) as [Hsorted _].
  rewrite <- Hdaily in Hsorted.
  assert (Hiso : forall e, In e daily ->
            exists t, dateISO e = isoDay t /\ plainDate (isoDay t) = true).
  { intros e He. rewrite Forall_forall in Hplain. specialize (Hplain e He).
    rewrite Hdaily in He. destruct (dailyOf_isoDay legacy _ _ _ _ He) as [t Ht].
    exists t. split; [exact Ht | rewrite <- Ht; exact Hplain]. }
  set (f := fun e => match dayNumber legacy (dateISO e) with Some d => d | None => 0 end).
  assert (Hf : forall e, In e daily -> dayNumber legacy (dateISO e) = Some (f e)).
  { intros e He. destruct (Hiso e He) as (t & Ht & Hp). unfold f.
    rewrite Ht, (proj2 (plain_dayNumber legacy t Hp)). reflexivity. }
  assert (Hp : forall e, In e daily ->
            Date.parse legacy (dateISO e) = Some (f e * Date.msPerDay)).
  { intros e He. destruct (Hiso e He) as (t & Ht & Pt). unfold f.
    rewrite Ht, (proj2 (plain_dayNumber legacy t Pt)).
    exact (proj1 (plain_dayNumber legacy t Pt)). }
  assert (Hinc : StronglySorted Z.lt (map f daily)).
  { apply StronglySorted_map. apply (StronglySorted_weaken dateLt); [| exact Hsorted].
    intros a b Ha Hb Hab.
    destruct (Hiso a Ha) as (ta & Ea & Pa). destruct (Hiso b Hb) as (tb & Eb & Pb).
    unfold f. unfold dateLt in Hab. rewrite Ea, Eb in *.
    rewrite (proj2 (plain_dayNumber legacy ta Pa)), (proj2 (plain_dayNumber legacy tb Pb)).
    rewrite (compare_isoDay ta tb Pa Pb) in Hab. apply Z.compare_lt_iff. exact Hab. }
  exists (map f daily). split.
  { rewrite map_map. apply map_ext_in. exact Hf. }
  destruct daily as [| first l]; [contradiction Hne; reflexivity |].
  cbn [map] in Hinc |- *.
  destruct (span_consecutive (f first) (map f l) Hinc) as [Hle Hiff].
  rewrite <- Hiff.
  assert (Ec : spanDays legacy (first :: l)
               = Some (last (f first :: map f l) (f first) - f first + 1)).
  { unfold spanDays. pose proof (last_In first l first) as Hlast.
    rewrite (Hp first (or_introl eq_refl)), (Hp _ Hlast).
    rewrite <- Z.mul_sub_distr_r, roundDiv_days.
    change (f first :: map f l) with (map f (first :: l)).
    rewrite <- (last_map f first l first). reflexivity. }
  cbn [signals operatingDays calendarDays summaryOf]. rewrite buildSignals_shape.
  rewrite Ec. cbn [hd_error]. unfold normalizationNote.
  change (f first :: map f l) with (map f (first :: l)) in *.
  rewrite length_map in *.
  set (n := Z.of_nat (List.length (first :: l))) in *.
  set (span := last (map f (first :: l)) (f first) - f first + 1) in *.
  destruct (Z.ltb_spec n span) as [L | L].
  - split; split.
    + intros E. exfalso. apply (msgGap_not_everyDay n (Some span)). congruence.
    + lia.
    + lia.
    + reflexivity.
  - split; split.
    + lia.
    + reflexivity.
    + intros E. exfalso. apply (msgGap_not_everyDay n (Some span)). congruence.
    + lia.
Qed.

Lemma every_day_signal_iff_no_gap_witness :
  match aggregate isoOnly scenarioA with
  | Returned daily s =>
      exists days,
        map (fun d => dayNumber isoOnly (dateISO d)) daily = map Some days /\
        (hd_error (signals s) = Some msgEveryDay <-> consecutive days) /\
        (hd_error (signals s) = Some (msgGap (operatingDays s) (calendarDays s)) <->
         ~ consecutive days)
  | Threw _ => False
  end.
Proof.
  destruct (aggregate isoOnly scenarioA) as [msg | daily s] eqn:E.
  - vm_compute in E. discriminate E.
  - apply (every_day_signal_iff_no_gap isoOnly scenarioA daily s E).
    vm_compute in E. injection E as <- <-. repeat constructor.
Defined.

(** ** The state of the page *)

Section AppFacts.

Variable legacy : string -> option Z.
Variable papaParse : string -> App.ParseResult + App.Thrown.

Lemma aggregate_nonempty rows daily s :
  aggregate legacy rows = Returned daily s -> daily <> [].
Proof.
  intros H. apply aggregate_Returned in H.
  destruct H as (_ & _ & _ & _ & _ & _ & _ & _ & Hne & _). exact Hne.
Qed.

Lemma tryBlock_Returned text aggregated builtSummary :
  App.tryBlock legacy papaParse text = inl (aggregated, builtSummary) ->
  exists rows, aggregate legacy rows = Returned aggregated builtSummary.
Proof.
  unfold App.tryBlock. destruct text as [t | thrown]; [| discriminate].
  destruct (papaParse t) as [parsed | thrown]; [| discriminate].
  destruct (App.errors parsed); [| discriminate].
  destruct (aggregate legacy _) as [msg | d s] eqn:E; [discriminate |].
  intros H. injection H as <- <-. eauto.
Qed.

Lemma afterText_coherent st text :
  App.coherent legacy (App.afterText legacy papaParse st text).
Proof.
  unfold App.afterText.
  destruct (App.tryBlock legacy papaParse text) as [[d s] | err] eqn:E.
  - apply tryBlock_Returned in E. destruct E as [rows E].
    cbn. split; [reflexivity |]. split; [exact (aggregate_nonempty _ _ _ E) | eauto].
  - reflexivity.
Qed.

Lemma step_coherent st ev :
  App.coherent legacy st -> App.coherent legacy (App.step legacy papaParse st ev).
Proof.
  intros H. destruct ev as [file | file]; cbn [App.step].
  - exact H.
  - apply afterText_coherent.
Qed.

End AppFacts.

(** Whatever files are dropped, and however the calls of [handleFiles]
    overlap, the state of the page stays coherent: a summary is shown only
    together with the non-empty daily sequence of the same run of
    [aggregate] and without an error message, and when there is no summary
    the daily sequence is empty.  A call that is given no file changes
    nothing, and a call that fails leaves an error message and clears the
    summary and the daily sequence of the file before. *)
Theorem handleFiles_coherent (legacy : string -> option Z)
    (papaParse : string -> App.ParseResult + App.Thrown) :
  (forall events, App.coherent legacy (App.run legacy papaParse events)) /\
  (forall st, App.handleFiles legacy papaParse st [] = st) /\
  (forall st file rest,
      let st' := App.handleFiles legacy papaParse st (file :: rest) in
      App.fileName st' = App.name file /\
      App.coherent legacy st' /\
      (App.summary st' = None <-> App.error st' <> None)).
Proof.
  split; [| split].
  - intros events. unfold App.run.
    assert (H : forall st, App.coherent legacy st ->
                App.coherent legacy (fold_left (App.step legacy papaParse) events st)).
    { induction events as [| ev events IH]; intros st Hst; [exact Hst |].
      cbn [fold_left]. apply IH. apply step_coherent. exact Hst. }
    apply H. reflexivity.
  - reflexivity.
  - intros st file rest. cbv zeta. cbn [App.handleFiles].
    split; [| split].
    + unfold App.afterText. destruct (App.tryBlock _ _ _) as [[d s] | err]; reflexivity.
    + apply afterText_coherent.
    + unfold App.afterText. destruct (App.tryBlock _ _ _) as [[d s] | err]; cbn.
      * split; [discriminate | intros H; contradiction H; reflexivity].
      * split; [discriminate | reflexivity].
Qed.
